(** * Snorkel labeling-function helpers: n-gram context extractors

    A shallow embedding of [snorkel/utils.py] (the n-gram slicer) and of
    [snorkel/lf_helpers.py] (directional, tabular and visual context
    helpers), with the properties that the specification states about
    them.

    Python values are modelled as follows.
    - integers are [Z]; list slicing follows Python's rules for negative
      and out-of-range bounds ([Py.slice]);
    - strings are [string]; [delim.join] is [String.concat];
    - the body of a generator is the finite trace its consumer observes:
      the items it yields, followed by a normal return or by the
      exception that ends it ([gen]); a call of a generator function
      returns a generator object, which [next] advances ([Generator]);
    - ORM objects are records; an object's identity is a numeric id, and
      [==] on objects compares identities;
    - navigation through cyclic ORM relationships ([Table.cells]) and the
      functions that [lf_helpers.py] imports but that the repository's
      files do not define ([tokens_to_ngrams], [table_utils]) are
      Section variables. *)

From Stdlib Require Import ZArith List String Ascii Bool Lia Arith.
From Stdlib Require Import Permutation Sorted.
From Equations Require Import Equations.
Import ListNotations.

Local Open Scope string_scope.
Local Open Scope Z_scope.

(* ===================================================================== *)
(** ** Python built-ins *)
(* ===================================================================== *)

Module Py.

(** [range(n)]: empty when [n <= 0]. *)
Definition range (n : Z) : list Z :=
  map Z.of_nat (seq 0 (Z.to_nat n)).

(** A slice bound is shifted by the length when negative and then
    clamped into [0, len]. *)
Definition clamp (len i : Z) : Z :=
  if i <? 0 then Z.max 0 (i + len) else Z.min i len.

(** [l[lo:hi]] *)
Definition slice {A : Type} (l : list A) (lo hi : Z) : list A :=
  let len := Z.of_nat (List.length l) in
  let a := clamp len lo in
  let b := clamp len hi in
  firstn (Z.to_nat (b - a)) (skipn (Z.to_nat a) l).

(** [l[lo:]] *)
Definition slice_from {A : Type} (l : list A) (lo : Z) : list A :=
  skipn (Z.to_nat (clamp (Z.of_nat (List.length l)) lo)) l.

(** [l[:hi]] *)
Definition slice_to {A : Type} (l : list A) (hi : Z) : list A :=
  firstn (Z.to_nat (clamp (Z.of_nat (List.length l)) hi)) l.

(** [delim.join(l)] *)
Definition join (delim : string) (l : list string) : string :=
  String.concat delim l.

(** [len(s)] of a string. *)
Definition len (s : string) : Z := Z.of_nat (String.length s).

End Py.

(** [a] is met strictly before [b] when reading [l] from the left. *)
Fixpoint before {A : Type} (a b : A) (l : list A) : Prop :=
  match l with
  | [] => False
  | x :: l' => (x = a /\ In b l') \/ before a b l'
  end.

(* ===================================================================== *)
(** ** utils.py *)
(* ===================================================================== *)

Module Utils.

Definition default_n_max : Z := 3.
Definition default_delim : string := "_".

(** [[
    def slice_into_ngrams(tokens, n_max=3, delim='_'):
        N = len(tokens)
        for root in range(N):
            for n in range(min(n_max, N - root)):
                yield delim.join(tokens[root:root+n+1])
    ]] *)
Definition slice_into_ngrams
    (tokens : list string) (n_max : Z) (delim : string) : list string :=
  let N := Z.of_nat (List.length tokens) in
  flat_map
    (fun root =>
       map (fun n => Py.join delim (Py.slice tokens root (root + n + 1)))
           (Py.range (Z.min n_max (N - root))))
    (Py.range N).

(** The (root, n) pairs visited by the two loops, in the order in which
    they are visited. *)
Definition ngram_spans (N n_max : Z) : list (Z * Z) :=
  flat_map
    (fun root => map (fun n => (root, n)) (Py.range (Z.min n_max (N - root))))
    (Py.range N).

(** The number of items the specification announces for bounds
    [n_min .. n_max]: the sum over each length [n] of [N - n + 1],
    counted as zero when [N < n]. *)
Definition announced_count (N n_min n_max : Z) : Z :=
  fold_right Z.add 0
    (map (fun k => Z.max 0 (N - (n_min + k) + 1))
         (Py.range (n_max - n_min + 1))).

(** Two ways of counting the pairs (root, n) with [root + n < N] and
    [n < m]: root by root, as the loops do, and length by length, as the
    specification does. *)
Definition by_root (N m : nat) : nat :=
  list_sum (map (fun r => Nat.min m (N - r)) (seq 0 N)).

Definition by_length (N m : nat) : nat :=
  list_sum (map (fun k => N - k)%nat (seq 0 m)).

End Utils.

(* ===================================================================== *)
(** ** Exceptions and generators *)
(* ===================================================================== *)

Module Gen.

Inductive exn : Type :=
| ValueError (msg : string)
| IndexError (msg : string)
| KeyError (key : string)
| AttributeError (msg : string)
| UnboundLocalError (var : string).

(** How a call ends. *)
Inductive outcome (R : Type) : Type :=
| Returned (r : R)
| Raised (e : exn).
Arguments Returned {R} r.
Arguments Raised {R} e.

Definition obind {R S : Type} (o : outcome R) (k : R -> outcome S) : outcome S :=
  match o with
  | Returned r => k r
  | Raised e => Raised e
  end.

(** A generator that yields items of type [Y]: what it yields when it is
    run to its end, and how it ends.  The body of a Python generator
    runs when the generator is first advanced, so an exception raised
    before the first [yield] shows as a trace with no item. *)
Definition gen (Y R : Type) : Type := (list Y * outcome R)%type.

Definition ret {Y R : Type} (r : R) : gen Y R := ([], Returned r).
Definition raise {Y R : Type} (e : exn) : gen Y R := ([], Raised e).

(** [yield y] *)
Definition yield {Y : Type} (y : Y) : gen Y unit := ([y], Returned tt).

Definition bind {Y R S : Type} (g : gen Y R) (k : R -> gen Y S) : gen Y S :=
  match g with
  | (ys, Returned r) => let (zs, o) := k r in ((ys ++ zs)%list, o)
  | (ys, Raised e) => (ys, Raised e)
  end.

(** A plain call inside a generator body. *)
Definition call {Y R : Type} (o : outcome R) : gen Y R := ([], o).

(** [for y in ys: yield y], over a sequence that cannot fail. *)
Definition yield_all {Y : Type} (ys : list Y) : gen Y unit := (ys, Returned tt).

(** [for y in g: yield h(y)] *)
Definition yield_each {X Y R : Type} (h : X -> Y) (g : gen X R) : gen Y R :=
  (map h (fst g), snd g).

(** [for x in xs: body(x)], threading the local variables [s] that the
    body may rebind. *)
Fixpoint for_each {X Y S : Type}
    (xs : list X) (s : S) (body : S -> X -> gen Y S) : gen Y S :=
  match xs with
  | [] => ret s
  | x :: xs' => bind (body s x) (fun s' => for_each xs' s' body)
  end.

(** A loop whose body rebinds nothing. *)
Definition for_in {X Y : Type} (xs : list X) (body : X -> gen Y unit) : gen Y unit :=
  for_each xs tt (fun _ x => body x).

Definition yielded {Y R : Type} (g : gen Y R) : list Y := fst g.
Definition ending {Y R : Type} (g : gen Y R) : outcome R := snd g.

Definition is_ValueError {R : Type} (o : outcome R) : bool :=
  match o with
  | Raised (ValueError _) => true
  | _ => false
  end.

End Gen.

Import Gen.

Declare Scope gen_scope.
Delimit Scope gen_scope with gen.
Notation "x <- g ;; k" := (Gen.bind g (fun x => k))
  (at level 61, g at next level, right associativity) : gen_scope.
Notation "g ;;; k" := (Gen.bind g (fun _ => k))
  (at level 61, right associativity) : gen_scope.

Declare Scope outcome_scope.
Delimit Scope outcome_scope with outcome.
Notation "x <- o ;; k" := (Gen.obind o (fun x => k))
  (at level 61, o at next level, right associativity) : outcome_scope.

(* ===================================================================== *)
(** ** The object model read by the helpers *)
(* ===================================================================== *)

(** A [Phrase] (or [Sentence]): the parent context of a span.  [attribs]
    is the lookup of a token attribute by name ([words], [lemmas],
    [poses], ...), undefined for a name the context does not have. *)
Record Phrase : Type := mkPhrase {
  phrase_id : nat;
  text : string;
  attribs : string -> option (list string);
  row_start : option Z;
  col_start : option Z
}.

(** [p == q] on contexts. *)
Definition same_phrase_obj (p q : Phrase) : bool :=
  Nat.eqb (phrase_id p) (phrase_id q).

(** A [TemporarySpan]; [word_start] and [word_end] are the values of
    [get_word_start()] and [get_word_end()]. *)
Record Span : Type := mkSpan {
  parent : Phrase;
  char_start : Z;
  char_end : Z;
  word_start : Z;
  word_end : Z
}.

(** An argument of a candidate: a span, or a context of another class. *)
Inductive Argument : Type :=
| ArgSpan (s : Span)
| ArgOther (ctx : Phrase).

(** What the n-gram helpers accept as [c]: a span, or a candidate over
    spans. *)
Inductive Target : Type :=
| TSpan (s : Span)
| TCandidate (args : list Span).

(** [[c] if isinstance(c, TemporarySpan) else c.get_arguments()] *)
Definition spans_of (c : Target) : list Span :=
  match c with
  | TSpan s => [s]
  | TCandidate args => args
  end.

(** A [Row] or [Col] of a table. *)
Record TableAxis : Type := mkTableAxis {
  axis_id : nat;
  position : Z
}.

Definition same_axis_obj (a b : TableAxis) : bool :=
  Nat.eqb (axis_id a) (axis_id b).

Record Cell : Type := mkCell {
  cell_id : nat;
  cell_text : string;
  cell_row_start : Z;
  cell_col_start : Z;
  cell_row : TableAxis;
  cell_col : TableAxis;
  cell_phrases : list Phrase
}.

(** [PhantomCell = namedtuple('PhantomCell','phrases')]; [_infer_cell]
    returns either a cell of the table or a phantom cell. *)
Inductive CellLike : Type :=
| RealCell (c : Cell)
| PhantomCell (phrases : list Phrase).

(** [.phrases] *)
Definition phrases (c : CellLike) : list Phrase :=
  match c with
  | RealCell c => cell_phrases c
  | PhantomCell ps => ps
  end.

Inductive Axis : Type := Row | Col.

(** [[
    def _other_axis(axis):
        return 'row' if axis=='col' else 'col'
    ]] *)
Definition _other_axis (axis : Axis) : Axis :=
  match axis with
  | Col => Row
  | Row => Col
  end.

(** [getattr(cell, axis + '_start')] *)
Definition axis_start (axis : Axis) (c : Cell) : Z :=
  match axis with
  | Row => cell_row_start c
  | Col => cell_col_start c
  end.

(** [getattr(cell, axis)] *)
Definition axis_of (axis : Axis) (c : Cell) : TableAxis :=
  match axis with
  | Row => cell_row c
  | Col => cell_col c
  end.

(* ===================================================================== *)
(** ** Strings *)
(* ===================================================================== *)

Module Str.

Definition is_upper (c : ascii) : bool :=
  let n := nat_of_ascii c in (Nat.leb 65 n && Nat.leb n 90)%bool.

Definition is_lower (c : ascii) : bool :=
  let n := nat_of_ascii c in (Nat.leb 97 n && Nat.leb n 122)%bool.

Definition lower_char (c : ascii) : ascii :=
  if is_upper c then ascii_of_nat (nat_of_ascii c + 32) else c.

(** [s.lower()] *)
Fixpoint lower (s : string) : string :=
  match s with
  | EmptyString => EmptyString
  | String c s' => String (lower_char c) (lower s')
  end.

(** [s.isalpha()]: at least one character, and letters only. *)
Definition isalpha (s : string) : bool :=
  match s with
  | EmptyString => false
  | _ => forallb (fun c => is_upper c || is_lower c)%bool (list_ascii_of_string s)
  end.

(** [s[lo:hi]], [s[lo:]], [s[:hi]] *)
Definition slice (s : string) (lo hi : Z) : string :=
  string_of_list_ascii (Py.slice (list_ascii_of_string s) lo hi).
Definition slice_from (s : string) (lo : Z) : string :=
  string_of_list_ascii (Py.slice_from (list_ascii_of_string s) lo).
Definition slice_to (s : string) (hi : Z) : string :=
  string_of_list_ascii (Py.slice_to (list_ascii_of_string s) hi).

(** [chr(n)] of Python 2. *)
Definition chr (n : Z) : outcome string :=
  if (0 <=? n) && (n <? 256)
  then Returned (String (ascii_of_nat (Z.to_nat n)) EmptyString)
  else Raised (ValueError "chr() arg not in range(256)").

End Str.

(* ===================================================================== *)
(** ** lf_helpers.py: text splits *)
(* ===================================================================== *)

Module TextSplits.

(** [(span.char_start, span.char_end, chr(65+i))] *)
Definition Mark : Type := (Z * Z * string)%type.

Definition mark_start (m : Mark) : Z := fst (fst m).
Definition mark_end (m : Mark) : Z := snd (fst m).
Definition mark_letter (m : Mark) : string := snd m.

(** Tuple comparison, as [list.sort] uses it. *)
Definition mark_leb (a b : Mark) : bool :=
  if mark_start a <? mark_start b then true
  else if mark_start b <? mark_start a then false
  else if mark_end a <? mark_end b then true
  else if mark_end b <? mark_end a then false
  else String.leb (mark_letter a) (mark_letter b).

Fixpoint insert (m : Mark) (l : list Mark) : list Mark :=
  match l with
  | [] => [m]
  | x :: l' => if mark_leb m x then m :: l else x :: insert m l'
  end.

(** [spans.sort()] *)
Definition sort (l : list Mark) : list Mark := fold_right insert [] l.

(** [["{{%s}}" % letter]] *)
Definition tag (m : Mark) : string :=
  ("{{" ++ mark_letter m ++ "}}")%string.

(** The first loop: it stops at the first argument that is not a span;
    [span] is the loop variable, unbound until the first iteration. *)
Fixpoint collect (i : Z) (args : list Argument)
    (spans : list Mark) (span : option Span)
  : outcome (list Mark * option Span) :=
  match args with
  | [] => Returned (spans, span)
  | ArgOther _ :: _ =>
      Raised (ValueError "Handles Span-type Candidate arguments only")
  | ArgSpan s :: args' =>
      (letter <- Str.chr (65 + i) ;;
       collect (i + 1) args'
               (spans ++ [(char_start s, char_end s, letter)])%list
               (Some s))%outcome
  end.

(** The second loop, over consecutive pairs of the sorted marks, and
    the final chunk. *)
Fixpoint chunks_after (text : string) (prev : Mark) (rest : list Mark)
  : list string :=
  match rest with
  | [] => [Str.slice_from text (mark_end prev + 1)]
  | next :: rest' =>
      Str.slice text (mark_end prev + 1) (mark_start next)
      :: tag next :: chunks_after text next rest'
  end.

(** [[
    def get_text_splits(c):
        spans = []
        for i, span in enumerate(c.get_arguments()):
            if not isinstance(span, TemporarySpan):
                raise ValueError("Handles Span-type Candidate arguments only")
            spans.append((span.char_start, span.char_end, chr(65+i)))
        spans.sort()
        text = span.parent.text
        chunks = [text[:spans[0][0]], "{{%s}}" % spans[0][2]]
        for j in range(len(spans)-1):
            chunks.append(text[spans[j][1]+1:spans[j+1][0]])
            chunks.append("{{%s}}" % spans[j+1][2])
        chunks.append(text[spans[-1][1]+1:])
        return chunks
    ]] *)
Definition get_text_splits (c : list Argument) : outcome (list string) :=
  (r <- collect 0 c [] None ;;
   let spans := sort (fst r) in
   match snd r with
   | None => Raised (UnboundLocalError "span")
   | Some span =>
       let text := text (parent span) in
       match spans with
       | [] => Raised (IndexError "list index out of range")
       | first :: rest =>
           Returned (Str.slice_to text (mark_start first)
                     :: tag first :: chunks_after text first rest)
       end
   end)%outcome.

(** [[
    def get_tagged_text(c):
        return "".join(get_text_splits(c))
    ]] *)
Definition get_tagged_text (c : list Argument) : outcome string :=
  (chunks <- get_text_splits c ;; Returned (Py.join "" chunks))%outcome.

(** [[
    def get_text_between(c):
        chunks = get_text_splits(c)
        if len(chunks) == 5:
            return chunks[2]
        else:
            raise ValueError("Only applicable to binary Candidates")
    ]] *)
Definition get_text_between (c : list Argument) : outcome string :=
  (chunks <- get_text_splits c ;;
   match chunks with
   | [_; _; between; _; _] => Returned between
   | _ => Raised (ValueError "Only applicable to binary Candidates")
   end)%outcome.

(** [isinstance(a, TemporarySpan)] *)
Definition is_span (a : Argument) : bool :=
  match a with
  | ArgSpan _ => true
  | ArgOther _ => false
  end.

(** The message of the error raised for an argument that is not a span. *)
Definition descriptive : string := "Handles Span-type Candidate arguments only".

End TextSplits.

(* ===================================================================== *)
(** ** lf_helpers.py: directional context *)
(* ===================================================================== *)

Module Directional.
Section WithTokenizer.

(** [tokens_to_ngrams(tokens, n_min, n_max, lower)], imported from
    [utils]. *)
Variable tokens_to_ngrams : list string -> Z -> Z -> bool -> list string.

(** [span.parent._asdict()[attrib]] *)
Definition asdict_attrib (p : Phrase) (attrib : string) : outcome (list string) :=
  match attribs p attrib with
  | Some toks => Returned toks
  | None => Raised (KeyError attrib)
  end.

(** [c if isinstance(c, TemporarySpan) else c[0]] *)
Definition first_span (c : Target) : outcome Span :=
  match c with
  | TSpan s => Returned s
  | TCandidate [] => Raised (IndexError "tuple index out of range")
  | TCandidate (s :: _) => Returned s
  end.

(** [c if isinstance(c, TemporarySpan) else c[-1]] *)
Definition last_span (c : Target) : outcome Span :=
  match c with
  | TSpan s => Returned s
  | TCandidate args =>
      match rev args with
      | [] => Raised (IndexError "tuple index out of range")
      | s :: _ => Returned s
      end
  end.

(** [[
    def get_left_ngrams(c, window=3, attrib='words', n_min=1, n_max=1, lower=True):
        span = c if isinstance(c, TemporarySpan) else c[0]
        i    = span.get_word_start()
        for ngram in tokens_to_ngrams(span.parent._asdict()[attrib][max(0, i-window):i],
                                      n_min=n_min, n_max=n_max, lower=lower):
            yield ngram
    ]] *)
Definition get_left_ngrams (c : Target) (window : Z) (attrib : string)
    (n_min n_max : Z) (lower : bool) : gen string unit :=
  (span <- call (first_span c) ;;
   let i := word_start span in
   toks <- call (asdict_attrib (parent span) attrib) ;;
   yield_all (tokens_to_ngrams (Py.slice toks (Z.max 0 (i - window)) i)
                               n_min n_max lower))%gen.

(** [[
    def get_right_ngrams(c, window=3, attrib='words', n_min=1, n_max=1, lower=True):
        span = c if isinstance(c, TemporarySpan) else c[-1]
        i    = span.get_word_end()
        for ngram in tokens_to_ngrams(span.parent._asdict()[attrib][i+1:i+1+window],
                                      n_min=n_min, n_max=n_max, lower=lower):
            yield ngram
    ]] *)
Definition get_right_ngrams (c : Target) (window : Z) (attrib : string)
    (n_min n_max : Z) (lower : bool) : gen string unit :=
  (span <- call (last_span c) ;;
   let i := word_end span in
   toks <- call (asdict_attrib (parent span) attrib) ;;
   yield_all (tokens_to_ngrams (Py.slice toks (i + 1) (i + 1 + window))
                               n_min n_max lower))%gen.

(** [[
    def get_between_ngrams(c, attrib='words', n_min=1, n_max=1, lower=True):
        if len(c.get_arguments()) != 2:
            raise ValueError("Only applicable to binary Candidates")
        span0 = c[0]
        span1 = c[1]
        if span0.parent != span1.parent:
            raise ValueError("Only applicable to Candidates where both spans are from the same immediate Context.")
        distance = abs(span0.get_word_start() - span1.get_word_start())
        if span0.get_word_start() < span1.get_word_start():
            for ngram in get_right_ngrams(span0, window=distance-1, ...):
                yield ngram
        else: # span0.get_word_start() > span1.get_word_start()
            for ngram in get_left_ngrams(span1, window=distance-1, ...):
                yield ngram
    ]] *)
Definition get_between_ngrams (c : list Span) (attrib : string)
    (n_min n_max : Z) (lower : bool) : gen string unit :=
  match c with
  | [span0; span1] =>
      if negb (same_phrase_obj (parent span0) (parent span1))
      then raise (ValueError
        "Only applicable to Candidates where both spans are from the same immediate Context.")
      else
        let distance := Z.abs (word_start span0 - word_start span1) in
        if word_start span0 <? word_start span1
        then get_right_ngrams (TSpan span0) (distance - 1) attrib n_min n_max lower
        else get_left_ngrams (TSpan span1) (distance - 1) attrib n_min n_max lower
  | _ => raise (ValueError "Only applicable to binary Candidates")
  end.

(** [[
    def get_between_tokens(c, attrib='words', n_min=1, n_max=1, lower=True):
        return [ngram for ngram in get_between_ngrams(c, ...)]
    ]]
    The list is built at the call, so the exception that ends the
    generator ends the call. *)
Definition get_between_tokens (c : list Span) (attrib : string)
    (n_min n_max : Z) (lower : bool) : outcome (list string) :=
  let g := get_between_ngrams c attrib n_min n_max lower in
  (_ <- ending g ;; Returned (yielded g))%outcome.

(** [[
    def get_phrase_ngrams(c, attrib='words', n_min=1, n_max=1, lower=True):
        spans = [c] if isinstance(c, TemporarySpan) else c.get_arguments()
        for span in spans:
            for ngram in get_left_ngrams(span, window=100, ...):
                yield ngram
            for ngram in get_right_ngrams(span, window=100, ...):
                yield ngram
    ]] *)
Definition get_phrase_ngrams (c : Target) (attrib : string)
    (n_min n_max : Z) (lower : bool) : gen string unit :=
  for_in (spans_of c) (fun span =>
    (get_left_ngrams (TSpan span) 100 attrib n_min n_max lower ;;;
     get_right_ngrams (TSpan span) 100 attrib n_min n_max lower)%gen).

End WithTokenizer.
End Directional.

(* ===================================================================== *)
(** ** lf_helpers.py: cell inference *)
(* ===================================================================== *)

Module Infer.

(** [len(root_cell.text) == 9] *)
Definition empty (root_cell : Cell) : bool :=
  Py.len (cell_text root_cell) =? 9.

(** [getattr(root_cell, _other_axis(axis) + '_start') == 0] *)
Definition edge (root_cell : Cell) (axis : Axis) : bool :=
  axis_start (_other_axis axis) root_cell =? 0.

(** [[
    [cell for cell in root_cell.table.cells
        if getattr(cell, axis) == getattr(root_cell, axis)
        and getattr(cell, _other_axis(axis)).position
            == getattr(root_cell, _other_axis(axis)).position - 1]
    ]] *)
Definition neighbor_cells (cells : list Cell) (root_cell : Cell) (axis : Axis)
  : list Cell :=
  filter
    (fun cell =>
       same_axis_obj (axis_of axis cell) (axis_of axis root_cell)
       && (position (axis_of (_other_axis axis) cell)
           =? position (axis_of (_other_axis axis) root_cell) - 1))
    cells.

(** A lower bound of the positions, along [axis], of the cells of a
    table: the recursion of [_infer_cell] steps to a cell of the table
    whose position is one less, so it stops above this bound. *)
Definition floor_position (cells : list Cell) (axis : Axis) : Z :=
  fold_right (fun c m => Z.min (position (axis_of axis c)) m) 0 cells.

Definition height (cells : list Cell) (axis : Axis) (c : Cell) : nat :=
  Z.to_nat (position (axis_of axis c) - floor_position cells axis + 1).

Lemma floor_position_le cells axis c :
  In c cells -> floor_position cells axis <= position (axis_of axis c).
Proof.
  induction cells as [|x cells IH]; simpl; [tauto|].
  intros [->|H]; [lia|]. specialize (IH H). lia.
Qed.

Lemma neighbor_lower cells root_cell axis n rest :
  neighbor_cells cells root_cell axis = n :: rest ->
  (height cells (_other_axis axis) n < height cells (_other_axis axis) root_cell)%nat.
Proof.
  intros Heq.
  assert (Hin : In n (neighbor_cells cells root_cell axis))
    by (rewrite Heq; now left).
  apply filter_In in Hin. destruct Hin as [Hin Hp].
  apply andb_prop in Hp. destruct Hp as [_ Hp]. apply Z.eqb_eq in Hp.
  pose proof (floor_position_le cells (_other_axis axis) n Hin).
  unfold height. lia.
Qed.

(** Matching on a value while keeping the equation that names it. *)
Definition inspect {A : Type} (x : A) : {y : A | x = y} := exist _ x eq_refl.

(** [[
    def _infer_cell(root_cell, axis, direct, infer):
        empty = len(root_cell.text) == 9
        edge = getattr(root_cell, _other_axis(axis) + '_start') == 0
        if direct and (not empty or edge or not infer):
            return root_cell
        else:
            if edge or not empty:
                return PhantomCell(phrases=[])
            else:
                neighbor_cells = [...]
                return _infer_cell(neighbor_cells[0], axis, direct=True, infer=True)
    ]]
    [cells] is [root_cell.table.cells]; the cells of that list belong to
    the same table, so the recursive call reads the same list. *)
Equations? _infer_cell (cells : list Cell) (root_cell : Cell) (axis : Axis)
    (direct infer : bool) : outcome CellLike
  by wf (height cells (_other_axis axis) root_cell) lt :=
  _infer_cell cells root_cell axis direct infer
    with (direct && (negb (empty root_cell) || edge root_cell axis || negb infer)) => {
    | true := Returned (RealCell root_cell);
    | false with (edge root_cell axis || negb (empty root_cell)) => {
      | true := Returned (PhantomCell []);
      | false with inspect (neighbor_cells cells root_cell axis) => {
        | exist _ [] _ := Raised (IndexError "list index out of range");
        | exist _ (n :: _) Hn := _infer_cell cells n axis true true } } }.
Proof. eapply neighbor_lower; eassumption. Qed.

End Infer.

(* ===================================================================== *)
(** ** lf_helpers.py: row, column and neighbor-cell context *)
(* ===================================================================== *)

(** What [get_neighbor_cell_ngrams] yields: an n-gram, or the pair of an
    n-gram and a direction. *)
Inductive NgramItem : Type :=
| Plain (ngram : string)
| Directed (ngram : string) (direction : string).

Module Tabular.
Section WithFramework.

(** [utils.tokens_to_ngrams] *)
Variable tokens_to_ngrams : list string -> Z -> Z -> bool -> list string.
(** [table_utils.is_axis_aligned(phrase, cell, axis=axis)] *)
Variable is_axis_aligned : Phrase -> Cell -> Axis -> bool.
(** [table_utils.min_row_diff(phrase, cell, absolute=False)] and
    [min_col_diff] *)
Variable min_row_diff min_col_diff : Phrase -> option Cell -> Z.
(** [phrase.cell] *)
Variable cell_of : Phrase -> option Cell.
(** [phrase.table.cells], undefined when [phrase.table] is [None] *)
Variable table_cells_of : Phrase -> option (list Cell).

(** [getattr(phrase, attrib)] *)
Definition getattr_tokens (p : Phrase) (attrib : string) : outcome (list string) :=
  match attribs p attrib with
  | Some toks => Returned toks
  | None => Raised (AttributeError attrib)
  end.

(** The comprehension of [_get_aligned_phrases], cell by cell. *)
Fixpoint aligned_phrases_in (table cells : list Cell) (root_phrase : Phrase)
    (axis : Axis) (direct infer : bool) : outcome (list Phrase) :=
  match cells with
  | [] => Returned []
  | cell :: rest =>
      if is_axis_aligned root_phrase cell axis then
        (inferred <- Infer._infer_cell table cell (_other_axis axis) direct infer ;;
         tail <- aligned_phrases_in table rest root_phrase axis direct infer ;;
         Returned
           (filter (fun phrase => negb (same_phrase_obj phrase root_phrase))
                   (phrases inferred) ++ tail)%list)%outcome
      else aligned_phrases_in table rest root_phrase axis direct infer
  end.

(** [[
    def _get_aligned_phrases(root_phrase, axis, direct=True, infer=False):
        return [phrase for cell in root_phrase.table.cells
                    if is_axis_aligned(root_phrase, cell, axis=axis)
                    for phrase in _infer_cell(cell, _other_axis(axis), direct, infer).phrases
                    if phrase!=root_phrase]
    ]] *)
Definition _get_aligned_phrases (root_phrase : Phrase) (axis : Axis)
    (direct infer : bool) : outcome (list Phrase) :=
  match table_cells_of root_phrase with
  | None => Raised (AttributeError "'NoneType' object has no attribute 'cells'")
  | Some cells => aligned_phrases_in cells cells root_phrase axis direct infer
  end.

(** [[
    for ngram in tokens_to_ngrams(getattr(phrase, attrib), ...):
        yield ngram
    ]] *)
Definition phrase_ngrams (phrase : Phrase) (attrib : string)
    (n_min n_max : Z) (lower : bool) : gen string unit :=
  (toks <- call (getattr_tokens phrase attrib) ;;
   yield_all (tokens_to_ngrams toks n_min n_max lower))%gen.

(** [[
    def _get_axis_ngrams(span, axis, direct=True, infer=False, attrib='words',
                         n_min=1, n_max=1, lower=True):
        for ngram in get_phrase_ngrams(span, ...):
            yield ngram
        if (span.parent.cell is not None):
            for phrase in _get_aligned_phrases(span.parent, axis, direct=direct, infer=infer):
                for ngram in tokens_to_ngrams(getattr(phrase, attrib), ...):
                    yield ngram
    ]] *)
Definition _get_axis_ngrams (span : Span) (axis : Axis) (direct infer : bool)
    (attrib : string) (n_min n_max : Z) (lower : bool) : gen string unit :=
  (Directional.get_phrase_ngrams tokens_to_ngrams (TSpan span)
                                 attrib n_min n_max lower ;;;
   match cell_of (parent span) with
   | Some _ =>
       aligned <- call (_get_aligned_phrases (parent span) axis direct infer) ;;
       for_in aligned (fun phrase => phrase_ngrams phrase attrib n_min n_max lower)
   | None => ret tt
   end)%gen.

(** [[
    def get_row_ngrams(c, direct=True, infer=False, attrib='words', n_min=1, n_max=1, lower=True):
        spans = [c] if isinstance(c, TemporarySpan) else c.get_arguments()
        for span in spans:
            for ngram in _get_axis_ngrams(span, axis='row', direct=direct, infer=infer, ...):
                yield ngram
    ]] *)
Definition get_row_ngrams (c : Target) (direct infer : bool)
    (attrib : string) (n_min n_max : Z) (lower : bool) : gen string unit :=
  for_in (spans_of c) (fun span =>
    _get_axis_ngrams span Row direct infer attrib n_min n_max lower).

(** [get_col_ngrams]: the same with [axis='col']. *)
Definition get_col_ngrams (c : Target) (direct infer : bool)
    (attrib : string) (n_min n_max : Z) (lower : bool) : gen string unit :=
  for_in (spans_of c) (fun span =>
    _get_axis_ngrams span Col direct infer attrib n_min n_max lower).

(** Truth value of an integer. *)
Definition truthy (z : Z) : bool := negb (z =? 0).

(** The test that admits a phrase as a neighbor:
    [[
    (row_diff or col_diff) and not (row_diff and col_diff)
        and abs(row_diff) + abs(col_diff) <= dist
    ]] *)
Definition is_neighbor (row_diff col_diff dist : Z) : bool :=
  (truthy row_diff || truthy col_diff)
  && negb (truthy row_diff && truthy col_diff)
  && (Z.abs row_diff + Z.abs col_diff <=? dist).

(** [[
    direction = ''
    if col_diff==0:
        if 0 < row_diff and row_diff <= dist:
            direction = "UP"
        elif  0 > row_diff and row_diff >= -dist:
            direction = "DOWN"
    elif row_diff==0:
        if 0 < col_diff and col_diff <= dist:
            direction = "RIGHT"
        elif  0 > col_diff and col_diff >= -dist:
            direction = "LEFT"
    ]] *)
Definition direction_of (row_diff col_diff dist : Z) : string :=
  if col_diff =? 0 then
    if (0 <? row_diff) && (row_diff <=? dist) then "UP"
    else if (row_diff <? 0) && (- dist <=? row_diff) then "DOWN"
    else ""
  else if row_diff =? 0 then
    if (0 <? col_diff) && (col_diff <=? dist) then "RIGHT"
    else if (col_diff <? 0) && (- dist <=? col_diff) then "LEFT"
    else ""
  else "".

(** The body of the loop over the aligned phrases.  The loop variable
    [phrase] is a local variable of the function: the body receives
    the phrase and returns it as the new binding. *)
Definition neighbor_body (root_cell : option Cell) (dist : Z) (directions : bool)
    (attrib : string) (n_min n_max : Z) (lower : bool)
    (phrase : Phrase) : gen NgramItem (option Phrase) :=
  let row_diff := min_row_diff phrase root_cell in
  let col_diff := min_col_diff phrase root_cell in
  ((if is_neighbor row_diff col_diff dist then
      if directions then
        let direction := direction_of row_diff col_diff dist in
        yield_each (fun ngram => Directed ngram direction)
                   (phrase_ngrams phrase attrib n_min n_max lower)
      else
        yield_each Plain (phrase_ngrams phrase attrib n_min n_max lower)
    else ret tt) ;;;
   ret (Some phrase))%gen.

(** One iteration of the loop over the spans; [phrase_var] is the
    binding of the local variable [phrase] on entry ([None]: not yet
    bound), the result is its binding on exit. *)
Definition neighbor_span_step (dist : Z) (directions : bool)
    (attrib : string) (n_min n_max : Z) (lower : bool)
    (phrase_var : option Phrase) (span : Span) : gen NgramItem (option Phrase) :=
  (yield_each Plain
     (Directional.get_phrase_ngrams tokens_to_ngrams (TSpan span)
                                    attrib n_min n_max lower) ;;;
   match row_start (parent span), col_start (parent span) with
   | Some _, Some _ =>
       let root_cell := cell_of (parent span) in
       match phrase_var with
       | None => raise (UnboundLocalError "phrase")
       | Some phrase =>
           by_row <- call (_get_aligned_phrases phrase Row true false) ;;
           by_col <- call (_get_aligned_phrases phrase Col true false) ;;
           for_each (by_row ++ by_col)%list phrase_var
             (fun _ phrase' =>
                neighbor_body root_cell dist directions
                              attrib n_min n_max lower phrase')
       end
   | _, _ => ret phrase_var
   end)%gen.

(** [[
    def get_neighbor_cell_ngrams(c, dist=1, directions=False, attrib='words',
                                 n_min=1, n_max=1, lower=True):
        spans = [c] if isinstance(c, TemporarySpan) else c.get_arguments()
        for span in spans:
            for ngram in get_phrase_ngrams(span, ...):
                yield ngram
            if span.parent.row_start is not None and span.parent.col_start is not None:
                root_cell = span.parent.cell
                for phrase in chain.from_iterable([_get_aligned_phrases(phrase, 'row'),
                                                   _get_aligned_phrases(phrase, 'col')]):
                    row_diff = min_row_diff(phrase, root_cell, absolute=False)
                    col_diff = min_col_diff(phrase, root_cell, absolute=False)
                    if (row_diff or col_diff) and not (row_diff and col_diff) \
                            and abs(row_diff) + abs(col_diff) <= dist:
                        if directions:
                            direction = ''
                            ...
                            for ngram in tokens_to_ngrams(getattr(phrase, attrib), ...):
                                yield (ngram, direction)
                        else:
                            for ngram in tokens_to_ngrams(getattr(phrase, attrib), ...):
                                yield  ngram
    ]]
    The iterable of the inner [for] reads [phrase], the variable that
    this very loop binds. *)
Definition get_neighbor_cell_ngrams (c : Target) (dist : Z) (directions : bool)
    (attrib : string) (n_min n_max : Z) (lower : bool) : gen NgramItem unit :=
  (for_each (spans_of c) None
     (neighbor_span_step dist directions attrib n_min n_max lower) ;;;
   ret tt)%gen.

End WithFramework.
End Tabular.

(* ===================================================================== *)
(** ** lf_helpers.py: visual alignment *)
(* ===================================================================== *)

Module Visual.

(** [_Bbox = namedtuple('bbox', ['top','bottom','left','right'])] *)
Record Bbox : Type := mkBbox {
  bb_top : Z;
  bb_bottom : Z;
  bb_left : Z;
  bb_right : Z
}.

(** The fields of a [Phrase] that the visual helpers read: its page, its
    lemmas and its per-word pixel coordinates. *)
Record VisualPhrase : Type := mkVisualPhrase {
  vp_id : nat;
  page : Z;
  lemmas : list string;
  top : list Z;
  bottom : list Z;
  left : list Z;
  right : list Z
}.

(** A document: its phrases, whether the attribute [_visual_features]
    is set, and the attribute [_aligned_lemmas] of each phrase (by
    phrase identity; [None]: the attribute does not exist).  A set of
    strings is a list without repetition. *)
Record Doc : Type := mkDoc {
  doc_phrases : list VisualPhrase;
  has_visual_features : bool;
  aligned_lemmas : nat -> option (list string)
}.

Definition set_aligned (doc : Doc) (id : nat) (s : list string) : Doc :=
  {| doc_phrases := doc_phrases doc;
     has_visual_features := has_visual_features doc;
     aligned_lemmas := fun j => if Nat.eqb j id then Some s else aligned_lemmas doc j |}.

Definition set_flag (doc : Doc) : Doc :=
  {| doc_phrases := doc_phrases doc;
     has_visual_features := true;
     aligned_lemmas := aligned_lemmas doc |}.

(** [s.update(xs)] *)
Definition set_update (s xs : list string) : list string :=
  fold_left (fun acc x => if in_dec string_dec x acc then acc else (acc ++ [x])%list)
            xs s.

(** [min(l)] and [max(l)] *)
Definition py_min (l : list Z) : outcome Z :=
  match l with
  | [] => Raised (ValueError "min() arg is an empty sequence")
  | x :: l' => Returned (fold_left Z.min l' x)
  end.

Definition py_max (l : list Z) : outcome Z :=
  match l with
  | [] => Raised (ValueError "max() arg is an empty sequence")
  | x :: l' => Returned (fold_left Z.max l' x)
  end.

Definition nonempty {A : Type} (l : list A) : bool :=
  match l with [] => false | _ => true end.

(** A [defaultdict(list)] filled by [d[key(x)].append(x)], as the list
    of its items in the order in which the keys were first met.  (Python
    does not fix the order in which [iteritems] visits the keys; the
    updates made group by group are unions of sets, and the statements
    below hold for the order chosen here.) *)
Fixpoint dict_append {X : Type} (d : list (Z * list X)) (k : Z) (x : X)
  : list (Z * list X) :=
  match d with
  | [] => [(k, [x])]
  | (k', xs) :: d' =>
      if k' =? k then (k', (xs ++ [x])%list) :: d'
      else (k', xs) :: dict_append d' k x
  end.

Definition group_by {X : Type} (key : X -> Z) (xs : list X) : list (Z * list X) :=
  fold_left (fun d x => dict_append d (key x) x) xs [].

(** Some list of the dict holds [x]. *)
Definition filed {X : Type} (x : X) (d : list (Z * list X)) : Prop :=
  exists k xs, In (k, xs) d /\ In x xs.

(** [l.sort(key=...)]: a stable sort. *)
Fixpoint insert_by {X : Type} (key : X -> Z) (x : X) (l : list X) : list X :=
  match l with
  | [] => [x]
  | y :: l' => if key y <=? key x then y :: insert_by key x l' else x :: l
  end.

Definition sort_by {X : Type} (key : X -> Z) (l : list X) : list X :=
  fold_left (fun acc x => insert_by key x acc) l [].

(** The attributes that the pass stores on a phrase before indexing it. *)
Record Placed : Type := mkPlaced {
  placed : VisualPhrase;
  yc : Z;
  x0 : Z;
  x1 : Z;
  xc : Z
}.

Section WithModels.

(** [span.get_attrib_tokens(name)] for a coordinate attribute. *)
Variable get_attrib_tokens : VisualPhrase -> string -> list Z.

(** [[
    def _bbox_from_span(span):
        if isinstance(span, Phrase) and span.top:
            return _Bbox(min(span.top), max(span.bottom), min(span.left), max(span.right))
        if span.get_attrib_tokens('top'):
            return _Bbox(min(span.get_attrib_tokens('top')),
                         max(span.get_attrib_tokens('bottom')),
                         min(span.get_attrib_tokens('left')),
                         max(span.get_attrib_tokens('right')))
        else:
            return None
    ]] *)
Definition _bbox_from_span (span : VisualPhrase) : outcome (option Bbox) :=
  if nonempty (top span) then
    (t <- py_min (top span) ;;
     b <- py_max (bottom span) ;;
     l <- py_min (left span) ;;
     r <- py_max (right span) ;;
     Returned (Some (mkBbox t b l r)))%outcome
  else if nonempty (get_attrib_tokens span "top") then
    (t <- py_min (get_attrib_tokens span "top") ;;
     b <- py_max (get_attrib_tokens span "bottom") ;;
     l <- py_min (get_attrib_tokens span "left") ;;
     r <- py_max (get_attrib_tokens span "right") ;;
     Returned (Some (mkBbox t b l r)))%outcome
  else Returned None.

(** [[
    phrase.bbox = _bbox_from_span(phrase)
    phrase.yc = (phrase.bbox.top + phrase.bbox.bottom)/2
    phrase.x0 = phrase.bbox.left
    phrase.x1 = phrase.bbox.right
    phrase.xc = (phrase.x0 + phrase.x1) / 2
    ]] *)
Definition place (phrase : VisualPhrase) : outcome Placed :=
  (bbox <- _bbox_from_span phrase ;;
   match bbox with
   | None => Raised (AttributeError "'NoneType' object has no attribute 'top'")
   | Some bbox =>
       let yc := (bb_top bbox + bb_bottom bbox) / 2 in
       let x0 := bb_left bbox in
       let x1 := bb_right bbox in
       Returned (mkPlaced phrase yc x0 x1 ((x0 + x1) / 2))
   end)%outcome.

Fixpoint place_all (phrases : list VisualPhrase) : outcome (list Placed) :=
  match phrases with
  | [] => Returned []
  | phrase :: rest =>
      (p <- place phrase ;; ps <- place_all rest ;; Returned (p :: ps))%outcome
  end.

(** The body of the loop over the phrases of one group:
    [[
    p._aligned_lemmas.update(context_lemmas)
    if len(p.lemmas) < 7:
        new_lemmas = [lemma.lower() for lemma in p.lemmas if lemma.isalpha()]
        context_lemmas.update(new_lemmas)
        context_lemmas.update(align_type + lemma for lemma in new_lemmas)
    ]] *)
Fixpoint assign_group (align_type : string) (doc : Doc)
    (context_lemmas : list string) (phrases : list Placed) : Doc * outcome unit :=
  match phrases with
  | [] => (doc, Returned tt)
  | p :: rest =>
      match aligned_lemmas doc (vp_id (placed p)) with
      | None => (doc, Raised (AttributeError "_aligned_lemmas"))
      | Some s =>
          let doc' := set_aligned doc (vp_id (placed p)) (set_update s context_lemmas) in
          let context' :=
            if Z.of_nat (List.length (lemmas (placed p))) <? 7 then
              let new_lemmas :=
                map Str.lower (filter Str.isalpha (lemmas (placed p))) in
              set_update (set_update context_lemmas new_lemmas)
                         (map (fun lemma => (align_type ++ lemma)%string) new_lemmas)
            else context_lemmas in
          assign_group align_type doc' context' rest
      end
  end.

(** [[
    def _assign_alignment_features(phrases_by_key, align_type):
        for key, phrases in phrases_by_key.iteritems():
            if len(phrases) == 1: continue
            context_lemmas = set()
            for p in phrases: ...
    ]] *)
Fixpoint _assign_alignment_features (phrases_by_key : list (Z * list Placed))
    (align_type : string) (doc : Doc) : Doc * outcome unit :=
  match phrases_by_key with
  | [] => (doc, Returned tt)
  | (_, phrases) :: rest =>
      if Nat.eqb (List.length phrases) 1
      then _assign_alignment_features rest align_type doc
      else
        match assign_group align_type doc [] phrases with
        | (doc', Returned _) => _assign_alignment_features rest align_type doc'
        | (doc', Raised e) => (doc', Raised e)
        end
  end.

Definition sorted_groups (key : Placed -> Z) (ps : list Placed)
  : list (Z * list Placed) :=
  map (fun kv => (fst kv, sort_by key (snd kv))) (group_by key ps).

(** One iteration of the loop over the pages. *)
Definition process_page (doc : Doc) (phrases : list VisualPhrase) : Doc * outcome unit :=
  match place_all phrases with
  | Raised e => (doc, Raised e)
  | Returned ps =>
      match _assign_alignment_features (sorted_groups yc ps) "Y_" doc with
      | (doc, Raised e) => (doc, Raised e)
      | (doc, Returned _) =>
      match _assign_alignment_features (sorted_groups x0 ps) "LEFT_" doc with
      | (doc, Raised e) => (doc, Raised e)
      | (doc, Returned _) =>
      match _assign_alignment_features (sorted_groups x1 ps) "RIGHT_" doc with
      | (doc, Raised e) => (doc, Raised e)
      | (doc, Returned _) =>
          _assign_alignment_features (sorted_groups xc ps) "CENTER_" doc
      end end end
  end.

Fixpoint process_pages (doc : Doc) (pages : list (Z * list VisualPhrase))
  : Doc * outcome unit :=
  match pages with
  | [] => (doc, Returned tt)
  | (_, phrases) :: rest =>
      match process_page doc phrases with
      | (doc', Returned _) => process_pages doc' rest
      | (doc', Raised e) => (doc', Raised e)
      end
  end.

(** [[
    def _preprocess_visual_features(doc):
        if hasattr(doc, '_visual_features'): return
        doc._visual_features = True
        phrase_by_page = defaultdict(list)
        for phrase in doc.phrases:
            phrase_by_page[phrase.page].append(phrase)
            phrase._aligned_lemmas = set()
        for page, phrases in phrase_by_page.iteritems():
            yc_aligned = defaultdict(list)
            ...
            for phrase in phrases:
                phrase.bbox = _bbox_from_span(phrase)
                phrase.yc = (phrase.bbox.top + phrase.bbox.bottom)/2
                ...
                yc_aligned[phrase.yc].append(phrase)
                ...
            for l in yc_aligned.itervalues(): l.sort(key=lambda p:p.yc)
            ...
            _assign_alignment_features(yc_aligned, 'Y_')
            _assign_alignment_features(x0_aligned, 'LEFT_')
            _assign_alignment_features(x1_aligned, 'RIGHT_')
            _assign_alignment_features(xc_aligned, 'CENTER_')
    ]] *)
Definition _preprocess_visual_features (doc : Doc) : Doc * outcome unit :=
  if has_visual_features doc then (doc, Returned tt)
  else
    let doc := set_flag doc in
    let phrase_by_page := group_by page (doc_phrases doc) in
    let doc := fold_left (fun d phrase => set_aligned d (vp_id phrase) [])
                         (doc_phrases doc) doc in
    process_pages doc phrase_by_page.

(** [[
    def get_visual_aligned_lemmas(span):
        phrase = span.parent
        doc = phrase.document
        _preprocess_visual_features(doc)
        for aligned_lemma in phrase._aligned_lemmas:
            yield aligned_lemma
    ]]
    [phrase] is [span.parent] and [doc] is its document; the result is
    the document after the call and the trace of the generator. *)
Definition get_visual_aligned_lemmas (doc : Doc) (phrase : VisualPhrase)
  : Doc * gen string unit :=
  match _preprocess_visual_features doc with
  | (doc', Raised e) => (doc', raise e)
  | (doc', Returned _) =>
      match aligned_lemmas doc' (vp_id phrase) with
      | None => (doc', raise (AttributeError "_aligned_lemmas"))
      | Some s => (doc', yield_all s)
      end
  end.

End WithModels.
End Visual.

(* ===================================================================== *)
(** ** The n-gram generator of the helpers *)
(* ===================================================================== *)

Module SpecModel.

(** Modelled from the spec: [tokens_to_ngrams], which [lf_helpers.py]
    imports from [utils] and calls with [n_min], [n_max] and [lower],
    and which [utils.py] does not define.  Following section 4.1: the
    space-joined substrings of every contiguous length in
    [n_min .. n_max]; for each end position, the n-grams that end there
    from the longest to the shortest; tokens case-folded unless
    [lower] is off. *)
Definition tokens_to_ngrams (tokens : list string) (n_min n_max : Z) (lower : bool)
  : list string :=
  let f := if lower then Str.lower else (fun s => s) in
  let N := Z.of_nat (List.length tokens) in
  flat_map
    (fun last =>
       map (fun k =>
              let n := Z.min n_max (last + 1) - k in
              f (Py.join " " (Py.slice tokens (last + 1 - n) (last + 1))))
           (Py.range (Z.min n_max (last + 1) - Z.max n_min 1 + 1)))
    (Py.range N).

End SpecModel.

(* ===================================================================== *)
(** ** Vocabulary of the statements about the tabular helpers *)
(* ===================================================================== *)

Module TabularTerms.
Section WithFramework.

Variable tokens_to_ngrams : list string -> Z -> Z -> bool -> list string.
Variable is_axis_aligned : Phrase -> Cell -> Axis -> bool.
Variable min_row_diff min_col_diff : Phrase -> option Cell -> Z.
Variable table_cells_of : Phrase -> option (list Cell).






(** The offsets are nonzero along exactly one axis and at most [dist]. *)
Definition one_axis_within (row_diff col_diff dist : Z) : Prop :=
  (row_diff <> 0 /\ col_diff = 0 /\ Z.abs row_diff <= dist)
  \/ (row_diff = 0 /\ col_diff <> 0 /\ Z.abs col_diff <= dist).

(** The label that goes with the sign of the nonzero offset. *)
Definition label_by_sign (row_diff col_diff : Z) (direction : string) : Prop :=
  (0 < row_diff -> direction = "UP")
  /\ (row_diff < 0 -> direction = "DOWN")
  /\ (0 < col_diff -> direction = "RIGHT")
  /\ (col_diff < 0 -> direction = "LEFT").

(** The parent of the span has a row and a column. *)
Definition positioned (span : Span) : bool :=
  match row_start (parent span), col_start (parent span) with
  | Some _, Some _ => true
  | _, _ => false
  end.

End WithFramework.
End TabularTerms.

(* ===================================================================== *)
(** ** Sample objects *)
(* ===================================================================== *)

Module Sample.

(** A sentence of five one-letter words, outside any table. *)
Definition sentence : Phrase :=
  {| phrase_id := 1;
     text := "a b c d e";
     attribs := fun name =>
       if String.eqb name "words" then Some ["a"; "b"; "c"; "d"; "e"] else None;
     row_start := None;
     col_start := None |}.

(** Another sentence. *)
Definition other_sentence : Phrase :=
  {| phrase_id := 2;
     text := "x y";
     attribs := fun name =>
       if String.eqb name "words" then Some ["x"; "y"] else None;
     row_start := None;
     col_start := None |}.

(** The spans "a b", "b" and "d" of [sentence], and "x" of
    [other_sentence]. *)
Definition span_ab : Span :=
  {| parent := sentence; char_start := 0; char_end := 2;
     word_start := 0; word_end := 1 |}.
Definition span_b : Span :=
  {| parent := sentence; char_start := 2; char_end := 2;
     word_start := 1; word_end := 1 |}.
Definition span_d : Span :=
  {| parent := sentence; char_start := 6; char_end := 6;
     word_start := 3; word_end := 3 |}.
Definition span_x : Span :=
  {| parent := other_sentence; char_start := 0; char_end := 0;
     word_start := 0; word_end := 0 |}.

(** A table of three rows and two columns:
    - row 0: an empty header cell, and "Total";
    - row 1: "Grand Total", and an empty cell;
    - row 2: "Net", and "42". *)
Definition row0 : TableAxis := {| axis_id := 100; position := 0 |}.
Definition row1 : TableAxis := {| axis_id := 101; position := 1 |}.
Definition row2 : TableAxis := {| axis_id := 102; position := 2 |}.
Definition col0 : TableAxis := {| axis_id := 200; position := 0 |}.
Definition col1 : TableAxis := {| axis_id := 201; position := 1 |}.

Definition table_phrase (id : nat) (txt : string) (words : list string)
    (r c : Z) : Phrase :=
  {| phrase_id := id;
     text := txt;
     attribs := fun name => if String.eqb name "words" then Some words else None;
     row_start := Some r;
     col_start := Some c |}.

Definition total : Phrase := table_phrase 11 "Total" ["Total"] 0 1.
Definition grand_total : Phrase := table_phrase 12 "Grand Total" ["Grand"; "Total"] 1 0.
Definition net : Phrase := table_phrase 14 "Net" ["Net"] 2 0.
Definition forty_two : Phrase := table_phrase 15 "42" ["42"] 2 1.

Definition cell_00 : Cell :=
  {| cell_id := 0; cell_text := "<th></th>";
     cell_row_start := 0; cell_col_start := 0;
     cell_row := row0; cell_col := col0; cell_phrases := [] |}.
Definition cell_01 : Cell :=
  {| cell_id := 1; cell_text := "<td>Total</td>";
     cell_row_start := 0; cell_col_start := 1;
     cell_row := row0; cell_col := col1; cell_phrases := [total] |}.
Definition cell_10 : Cell :=
  {| cell_id := 2; cell_text := "<td>Grand Total</td>";
     cell_row_start := 1; cell_col_start := 0;
     cell_row := row1; cell_col := col0; cell_phrases := [grand_total] |}.
Definition cell_11 : Cell :=
  {| cell_id := 3; cell_text := "<td></td>";
     cell_row_start := 1; cell_col_start := 1;
     cell_row := row1; cell_col := col1; cell_phrases := [] |}.
Definition cell_20 : Cell :=
  {| cell_id := 4; cell_text := "<td>Net</td>";
     cell_row_start := 2; cell_col_start := 0;
     cell_row := row2; cell_col := col0; cell_phrases := [net] |}.
Definition cell_21 : Cell :=
  {| cell_id := 5; cell_text := "<td>42</td>";
     cell_row_start := 2; cell_col_start := 1;
     cell_row := row2; cell_col := col1; cell_phrases := [forty_two] |}.

Definition table : list Cell := [cell_00; cell_01; cell_10; cell_11; cell_20; cell_21].

(** [phrase.cell] and [phrase.table.cells] for the phrases above. *)
Definition cell_of (p : Phrase) : option Cell :=
  find (fun c => existsb (same_phrase_obj p) (cell_phrases c)) table.

Definition table_cells_of (p : Phrase) : option (list Cell) :=
  match cell_of p with
  | Some _ => Some table
  | None => None
  end.

(** Modelled from the spec: [is_axis_aligned], imported from
    [table_utils], a module that is not among the repository's files.
    Section 4.2: two objects are aligned
    along an axis when their index ranges along it overlap; every cell of
    the sample table spans one row and one column, so the ranges overlap
    when they start at the same index. *)
Definition is_axis_aligned (p : Phrase) (c : Cell) (axis : Axis) : bool :=
  match axis with
  | Row => match row_start p with Some r => r =? cell_row_start c | None => false end
  | Col => match col_start p with Some k => k =? cell_col_start c | None => false end
  end.

(** Modelled from the spec: [min_row_diff] and [min_col_diff] with
    [absolute=False], imported from [table_utils], a module that is not
    among the repository's files.  Section 4.4: the signed offset between
    the two objects along the axis. *)
Definition min_row_diff (p : Phrase) (c : option Cell) : Z :=
  match row_start p, c with
  | Some r, Some c => r - cell_row_start c
  | _, _ => 0
  end.

Definition min_col_diff (p : Phrase) (c : option Cell) : Z :=
  match col_start p, c with
  | Some k, Some c => k - cell_col_start c
  | _, _ => 0
  end.

(** Modelled from the spec: [is_axis_aligned] on two cells, as above. *)
Definition is_axis_aligned_cell (a c : Cell) (axis : Axis) : bool :=
  match axis with
  | Row => cell_row_start a =? cell_row_start c
  | Col => cell_col_start a =? cell_col_start c
  end.

(** The spans "Total" of "Grand Total", and "Net". *)
Definition span_total : Span :=
  {| parent := grand_total; char_start := 6; char_end := 10;
     word_start := 1; word_end := 1 |}.
Definition span_net : Span :=
  {| parent := net; char_start := 0; char_end := 2;
     word_start := 0; word_end := 0 |}.


(** A phrase without any coordinate, a phrase with a box, and documents
    on which the visual pass has not run yet. *)
Definition bare_phrase : Visual.VisualPhrase :=
  {| Visual.vp_id := 1; Visual.page := 1; Visual.lemmas := ["total"];
     Visual.top := []; Visual.bottom := [];
     Visual.left := []; Visual.right := [] |}.

Definition boxed_phrase : Visual.VisualPhrase :=
  {| Visual.vp_id := 2; Visual.page := 1; Visual.lemmas := ["net"];
     Visual.top := [10]; Visual.bottom := [20];
     Visual.left := [5]; Visual.right := [50] |}.

(** [get_attrib_tokens] of a phrase whose words carry no box. *)
Definition no_token_boxes (p : Visual.VisualPhrase) (name : string) : list Z := [].

Definition bare_doc : Visual.Doc :=
  {| Visual.doc_phrases := [bare_phrase];
     Visual.has_visual_features := false;
     Visual.aligned_lemmas := fun _ => None |}.

Definition mixed_doc : Visual.Doc :=
  {| Visual.doc_phrases := [boxed_phrase; bare_phrase];
     Visual.has_visual_features := false;
     Visual.aligned_lemmas := fun _ => None |}.


(** Two phrases of one page whose boxes start at the same left edge, in
    a document on which the visual pass has not run yet. *)
Definition label_phrase : Visual.VisualPhrase :=
  {| Visual.vp_id := 3; Visual.page := 1; Visual.lemmas := ["Total"; ":"];
     Visual.top := [30]; Visual.bottom := [40];
     Visual.left := [5]; Visual.right := [60] |}.

Definition aligned_doc : Visual.Doc :=
  {| Visual.doc_phrases := [label_phrase; boxed_phrase];
     Visual.has_visual_features := false;
     Visual.aligned_lemmas := fun _ => None |}.

End Sample.

(* ===================================================================== *)
(** ** utils.py: the other helpers *)
(* ===================================================================== *)

Module UtilsRest.

(** [[
    def sort_X_on_Y(X, Y):
        return [x for (y,x) in sorted(zip(Y,X), key=lambda t : t[0])]
    ]]
    [zip] stops at the shorter list and [sorted] is stable; the keys are
    integers. *)
Definition sort_X_on_Y {X : Type} (xs : list X) (ys : list Z) : list X :=
  map snd (Visual.sort_by fst (combine ys xs)).

(** The dict of [corenlp_cleaner]. *)
Definition brackets : list (string * string) :=
  [("-RRB-", ")"); ("-LRB-", "("); ("-RCB-", "}");
   ("-LCB-", "{"); ("-RSB-", "]"); ("-LSB-", "[")].

(** [d[w]] when [w in d] *)
Fixpoint dict_get (d : list (string * string)) (w : string) : option string :=
  match d with
  | [] => None
  | (k, v) :: d' => if String.eqb k w then Some v else dict_get d' w
  end.

(** [[
    def corenlp_cleaner(words):
        d = {'-RRB-': ')', '-LRB-': '(', '-RCB-': '}', '-LCB-': '{',
           '-RSB-': ']', '-LSB-': '['}
        return map(lambda w: d[w] if w in d else w, words)
    ]] *)
Definition corenlp_cleaner (words : list string) : list string :=
  map (fun w => match dict_get brackets w with
                | Some v => v
                | None => w
                end)
      words.

(** The function that [corenlp_cleaner] maps over the words. *)
Definition clean_word (w : string) : string :=
  match dict_get brackets w with
  | Some v => v
  | None => w
  end.

(** [s.split(sep)] for a separator of one character: the pieces between
    the separators, empty pieces included. *)
Fixpoint split (sep : ascii) (s : string) : list string :=
  match s with
  | EmptyString => [EmptyString]
  | String c s' =>
      if Ascii.eqb c sep then EmptyString :: split sep s'
      else match split sep s' with
           | piece :: pieces => String c piece :: pieces
           | [] => [String c EmptyString]
           end
  end.

(** [[
    def split_html_attrs(attrs):
        html_attrs = []
        for a in attrs:
            attr = a[0]
            values = a[1].split(';')
            if isinstance(values, list):
                html_attrs += ["=".join([attr,val]) for val in values]
            else:
                html_attrs += ["=".join([attr,values])]
        return html_attrs
    ]]
    [split] always returns a list, so the first branch is the one taken. *)
Definition split_html_attrs (attrs : list (string * string)) : list string :=
  flat_map
    (fun a =>
       let attr := fst a in
       let values := split ";" (snd a) in
       map (fun val => Py.join "=" [attr; val]) values)
    attrs.

(** [a] does not come after [b] in the order of the keys. *)
Definition key_le {X : Type} (key : X -> Z) (a b : X) : Prop := key a <= key b.

(** The number of occurrences of a character. *)
Fixpoint count_char (c : ascii) (s : string) : nat :=
  match s with
  | EmptyString => 0
  | String c' s' => (if Ascii.eqb c' c then 1 else 0) + count_char c s'
  end.

End UtilsRest.

(* ===================================================================== *)
(** ** lf_helpers.py: membership tests and the [same_*] predicates *)
(* ===================================================================== *)

Module Predicates.

(** The result of a call that may fail on a name that the module does
    not define. *)
Inductive checked (R : Type) : Type :=
| Value (r : R)
| NameError (name : string).
Arguments Value {R} r.
Arguments NameError {R} name.

(** [[
    def overlap(A, B):
        return not set(A).isdisjoint(B)
    ]] *)
Definition overlap (A B : list string) : bool :=
  existsb (fun a => existsb (String.eqb a) B) A.

(** [x == y] on two attributes that hold an object or [None]: an object
    is equal to itself only. *)
Definition same_object (x y : option nat) : bool :=
  match x, y with
  | Some a, Some b => Nat.eqb a b
  | None, None => true
  | _, _ => false
  end.

(** The scheme of [same_document], [same_table], [same_cell] and
    [same_phrase]:
    [[
    all([c[i].parent.X is not None and c[i].parent.X == c[0].parent.X
         for i in range(len(c.get_arguments()))])
    ]]
    [key] gives the identity of the object [parent.X], or [None]. *)
Definition same_on (key : Phrase -> option nat) (c : list Span) : bool :=
  match c with
  | [] => true
  | span0 :: _ =>
      forallb
        (fun span =>
           match key (parent span) with
           | Some k => same_object (Some k) (key (parent span0))
           | None => false
           end)
        c
  end.

Section WithObjectModel.

(** [span.get_attrib_tokens(attrib)] *)
Variable get_attrib_tokens : Span -> string -> list string.
(** The identities of [phrase.document] and of [phrase.table]. *)
Variable document_of table_of : Phrase -> option nat.
(** [phrase.cell] *)
Variable cell_of : Phrase -> option Cell.

(** [[
    def contains_token(c, tok, attrib='words', lower=True):
        spans = [c] if isinstance(c, TemporarySpan) else c.get_arguments()
        f = (lambda w: w.lower()) if lower else (lambda w: w)
        return f(tok) in set(chain.from_iterable(map(f, span.get_attrib_tokens(attrib))
            for span in spans))
    ]] *)
Definition contains_token (c : Target) (tok : string) (attrib : string)
    (lower : bool) : bool :=
  let f := if lower then Str.lower else (fun w => w) in
  existsb (String.eqb (f tok))
          (flat_map (fun span => map f (get_attrib_tokens span attrib)) (spans_of c)).

(** [[
    def same_document(c):
        return (all([c[i].parent.document is not None
            and c[i].parent.document==c[0].parent.document for i in range(len(c.get_arguments()))]))
    ]] *)
Definition same_document (c : list Span) : bool := same_on document_of c.

(** [same_table]: the same with [parent.table]. *)
Definition same_table (c : list Span) : bool := same_on table_of c.

(** [same_cell]: the same with [parent.cell]. *)
Definition same_cell (c : list Span) : bool :=
  same_on (fun p => option_map cell_id (cell_of p)) c.

(** [same_phrase]: the same with [parent] itself, which a span always
    has. *)
Definition same_phrase (c : list Span) : bool :=
  same_on (fun p => Some (phrase_id p)) c.

(** The scheme of [same_row] and [same_col]:
    [[
    all([c[i].parent.table is not None and is_row_aligned(c[0].parent, c[i].parent)
        for i in range(len(c.get_arguments()))])
    ]]
    [lf_helpers.py] neither defines nor imports [is_row_aligned] and
    [is_col_aligned]: the list is built span by span, and the second
    operand of [and] is reached at the first span whose parent has a
    table. *)
Fixpoint same_aligned (name : string) (c : list Span) : checked bool :=
  match c with
  | [] => Value true
  | span :: rest =>
      match table_of (parent span) with
      | Some _ => NameError name
      | None =>
          match same_aligned name rest with
          | NameError n => NameError n
          | Value _ => Value false
          end
      end
  end.

Definition same_row (c : list Span) : checked bool := same_aligned "is_row_aligned" c.
Definition same_col (c : list Span) : checked bool := same_aligned "is_col_aligned" c.

End WithObjectModel.
End Predicates.


(* ===================================================================== *)
(** ** lf_helpers.py: cell, aligned and head context *)
(* ===================================================================== *)

Module TabularRest.

(** A cell of the table, as opposed to a [PhantomCell]. *)
Definition is_real (x : CellLike) : Prop :=
  match x with
  | RealCell _ => True
  | PhantomCell _ => False
  end.

Section WithFramework.

Variable tokens_to_ngrams : list string -> Z -> Z -> bool -> list string.
(** [is_axis_aligned(phrase, cell, axis=axis)] and
    [is_axis_aligned(cell, cell, axis=axis)] *)
Variable is_axis_aligned : Phrase -> Cell -> Axis -> bool.
Variable is_axis_aligned_cell : Cell -> Cell -> Axis -> bool.
(** [phrase.cell], [phrase.table.cells] and [cell.table.cells] *)
Variable cell_of : Phrase -> option Cell.
Variable table_cells_of : Phrase -> option (list Cell).
Variable cells_of : Cell -> list Cell.

(** [cell != root_cell] *)
Definition other_cell (root_cell cell : Cell) : bool :=
  negb (Nat.eqb (cell_id cell) (cell_id root_cell)).

(** The list
    [[
    [tokens_to_ngrams(getattr(phrase,attrib), n_min=n_min, n_max=n_max, lower=lower)
        for phrase in span.parent.cell.phrases if phrase != span.parent]
    ]]
    [getattr] is evaluated for every phrase when the list is built. *)
Fixpoint ngrams_of_phrases (phrases : list Phrase) (attrib : string)
    (n_min n_max : Z) (lower : bool) : outcome (list (list string)) :=
  match phrases with
  | [] => Returned []
  | phrase :: rest =>
      (toks <- Tabular.getattr_tokens phrase attrib ;;
       more <- ngrams_of_phrases rest attrib n_min n_max lower ;;
       Returned (tokens_to_ngrams toks n_min n_max lower :: more))%outcome
  end.

(** [[
    def get_cell_ngrams(c, attrib='words', n_min=1, n_max=1, lower=True):
        spans = [c] if isinstance(c, TemporarySpan) else c.get_arguments()
        for span in spans:
            for ngram in get_phrase_ngrams(span, ...):
                yield ngram
            if span.parent.cell is not None:
                for ngram in chain.from_iterable([tokens_to_ngrams(getattr(phrase,attrib), ...) \
                    for phrase in span.parent.cell.phrases if phrase != span.parent]):
                    yield ngram
    ]] *)
Definition get_cell_ngrams (c : Target) (attrib : string) (n_min n_max : Z)
    (lower : bool) : gen string unit :=
  for_in (spans_of c) (fun span =>
    (Directional.get_phrase_ngrams tokens_to_ngrams (TSpan span)
                                   attrib n_min n_max lower ;;;
     match cell_of (parent span) with
     | Some cell =>
         grams <- call (ngrams_of_phrases
                          (filter (fun phrase =>
                                     negb (same_phrase_obj phrase (parent span)))
                                  (cell_phrases cell))
                          attrib n_min n_max lower) ;;
         yield_all (List.concat grams)
     | None => ret tt
     end)%gen).

(** [[
    def get_aligned_ngrams(c, direct=True, infer=False, attrib='words', n_min=1, n_max=1, lower=True):
        spans = [c] if isinstance(c, TemporarySpan) else c.get_arguments()
        for span in spans:
            for ngram in get_row_ngrams(span, direct=direct, infer=infer, ...):
                yield ngram
            for ngram in get_col_ngrams(span, direct=direct, infer=infer, ...):
                yield ngram
    ]] *)
Definition get_aligned_ngrams (c : Target) (direct infer : bool) (attrib : string)
    (n_min n_max : Z) (lower : bool) : gen string unit :=
  for_in (spans_of c) (fun span =>
    (Tabular.get_row_ngrams tokens_to_ngrams is_axis_aligned cell_of table_cells_of
                            (TSpan span) direct infer attrib n_min n_max lower ;;;
     Tabular.get_col_ngrams tokens_to_ngrams is_axis_aligned cell_of table_cells_of
                            (TSpan span) direct infer attrib n_min n_max lower)%gen).

(** [[_infer_cell(cell, ...) for cell in aligned_cells]] *)
Fixpoint infer_all (table cells : list Cell) (axis : Axis) (direct infer : bool)
  : outcome (list CellLike) :=
  match cells with
  | [] => Returned []
  | cell :: rest =>
      (inferred <- Infer._infer_cell table cell axis direct infer ;;
       more <- infer_all table rest axis direct infer ;;
       Returned (inferred :: more))%outcome
  end.

(** [[
    def _get_aligned_cells(root_cell, axis, direct=True, infer=False):
        aligned_cells = [cell for cell in root_cell.table.cells
            if is_axis_aligned(root_cell, cell, axis=axis)
            and cell != root_cell]
        return [_infer_cell(cell, _other_axis(axis), direct=direct, infer=infer) \
            for cell in aligned_cells] if infer else aligned_cells
    ]] *)
Definition _get_aligned_cells (root_cell : Cell) (axis : Axis) (direct infer : bool)
  : outcome (list CellLike) :=
  let aligned_cells :=
    filter (fun cell => is_axis_aligned_cell root_cell cell axis
                        && other_cell root_cell cell)
           (cells_of root_cell) in
  if infer
  then infer_all (cells_of root_cell) aligned_cells (_other_axis axis) direct infer
  else Returned (map RealCell aligned_cells).

(** [getattr(x, other_axis + '_start')], which a phantom cell does not
    have. *)
Definition start_key (axis : Axis) (x : CellLike) : outcome Z :=
  match x with
  | RealCell c => Returned (axis_start axis c)
  | PhantomCell _ =>
      Raised (AttributeError
                match axis with
                | Row => "'PhantomCell' object has no attribute 'row_start'"
                | Col => "'PhantomCell' object has no attribute 'col_start'"
                end)
  end.

(** The keys of a [sorted(..., key=...)], computed for every element. *)
Fixpoint keyed (axis : Axis) (xs : list CellLike) : outcome (list (Z * CellLike)) :=
  match xs with
  | [] => Returned []
  | x :: rest =>
      (k <- start_key axis x ;;
       more <- keyed axis rest ;;
       Returned ((k, x) :: more))%outcome
  end.

(** [[
    def _get_head_cell(root_cell, axis, infer=False):
        other_axis = 'row' if axis=='col' else 'col'
        aligned_cells = _get_aligned_cells(root_cell, axis, direct=True, infer=infer)
        return sorted(aligned_cells, key=lambda x: getattr(x, other_axis + '_start'))[0] if aligned_cells else []
    ]]
    [None] stands for the empty list that is returned when no cell is
    aligned. *)
Definition _get_head_cell (root_cell : Cell) (axis : Axis) (infer : bool)
  : outcome (option CellLike) :=
  let other_axis := match axis with Col => Row | Row => Col end in
  (aligned_cells <- _get_aligned_cells root_cell axis true infer ;;
   match aligned_cells with
   | [] => Returned None
   | _ =>
       pairs <- keyed other_axis aligned_cells ;;
       match Visual.sort_by fst pairs with
       | [] => Raised (IndexError "list index out of range")
       | (_, head) :: _ => Returned (Some head)
       end
   end)%outcome.

(** [getattr(head, 'phrases', [])] *)
Definition head_phrases (head : option CellLike) : list Phrase :=
  match head with
  | Some x => phrases x
  | None => []
  end.

(** The loop of [get_head_ngrams] over the spans; [return] ends the
    generator at the first span whose parent has no cell. *)
Fixpoint head_loop (spans : list Span) (axes : list Axis) (infer : bool)
    (attrib : string) (n_min n_max : Z) (lower : bool) : gen string unit :=
  match spans with
  | [] => ret tt
  | span :: rest =>
      match cell_of (parent span) with
      | None => ret tt
      | Some cell =>
          (for_in axes (fun axis =>
             head <- call (_get_head_cell cell axis infer) ;;
             for_in (head_phrases head) (fun phrase =>
               Tabular.phrase_ngrams tokens_to_ngrams phrase attrib n_min n_max lower)) ;;;
           head_loop rest axes infer attrib n_min n_max lower)%gen
      end
  end.

(** [[
    def get_head_ngrams(c, axis=None, infer=False, attrib='words', n_min=1, n_max=1, lower=True):
        spans = [c] if isinstance(c, TemporarySpan) else c.get_arguments()
        axes = [axis] if axis else ['row','col']
        for span in spans:
            if not span.parent.cell:
                return
            else:
                for axis in axes:
                    for phrase in getattr(_get_head_cell(span.parent.cell, axis, infer=infer), 'phrases', []):
                        for ngram in tokens_to_ngrams(getattr(phrase, attrib), ...):
                            yield ngram
    ]] *)
Definition get_head_ngrams (c : Target) (axis : option Axis) (infer : bool)
    (attrib : string) (n_min n_max : Z) (lower : bool) : gen string unit :=
  let axes := match axis with
              | Some a => [a]
              | None => [Row; Col]
              end in
  head_loop (spans_of c) axes infer attrib n_min n_max lower.

End WithFramework.
End TabularRest.


(* ===================================================================== *)
(** ** Terms for the statements about the visual pass *)

Module VisualTerms.
Import Visual.

(** The box is tight around the coordinates: its top and left are the
    least of them and its bottom and right the greatest. *)
Definition least (m : Z) (l : list Z) : Prop :=
  In m l /\ Forall (fun x => m <= x) l.

Definition greatest (m : Z) (l : list Z) : Prop :=
  In m l /\ Forall (fun x => x <= m) l.

Definition encloses (bbox : Bbox) (tops bottoms lefts rights : list Z) : Prop :=
  least (bb_top bbox) tops
  /\ greatest (bb_bottom bbox) bottoms
  /\ least (bb_left bbox) lefts
  /\ greatest (bb_right bbox) rights.

(** [after] is [before] with some aligned-lemma sets updated: the
    phrases and the flag are the same and no set is removed. *)
Definition updates (before after : Doc) : Prop :=
  doc_phrases after = doc_phrases before
  /\ has_visual_features after = has_visual_features before
  /\ forall id, aligned_lemmas before id <> None -> aligned_lemmas after id <> None.

(** [align_type] as [_preprocess_visual_features] passes it. *)
Definition align_types : list string := ["Y_"; "LEFT_"; "RIGHT_"; "CENTER_"].

(** [x] is what a phrase [q] adds to the context of a group: [q] has
    fewer than seven lemmas and [x] is one of its alphabetic lemmas in
    lower case, bare or after an [align_type]. *)
Definition contributes (q : VisualPhrase) (x : string) : Prop :=
  (List.length (lemmas q) < 7)%nat
  /\ exists l, In l (lemmas q) /\ Str.isalpha l = true
               /\ (x = Str.lower l
                   \/ exists t, In t align_types /\ x = (t ++ Str.lower l)%string).

(** Every aligned lemma of a phrase among [phrases] was contributed by
    another of them, of the same page. *)
Definition received_from_others (phrases : list VisualPhrase) (doc : Doc) : Prop :=
  forall p s x,
    In p phrases -> aligned_lemmas doc (vp_id p) = Some s -> In x s ->
    exists q, In q phrases /\ vp_id q <> vp_id p /\ page q = page p
              /\ contributes q x.

(** The phrases of [group] are distinct phrases of page [k] among
    [phrases]. *)
Definition page_group (phrases : list VisualPhrase) (k : Z) (group : list Placed)
  : Prop :=
  (forall pl, In pl group -> In (placed pl) phrases /\ page (placed pl) = k)
  /\ NoDup (map (fun pl => vp_id (placed pl)) group).

End VisualTerms.

(* ===================================================================== *)
(** ** Generator objects *)
(* ===================================================================== *)

Module Generator.

(** What a call of a generator function returns: a generator object
    that holds the body, none of whose statements has run. *)
Record generator (Y : Type) : Type := mkGenerator {
  body : gen Y unit
}.
Arguments mkGenerator {Y} body.
Arguments body {Y} g.

(** The call of a generator function, a [def] whose body holds a
    [yield]: the arguments are bound and the generator object is
    returned; whatever the body raises, the call raises nothing. *)
Definition invoke {Y : Type} (b : gen Y unit) : outcome (generator Y) :=
  Returned (mkGenerator b).

(** What [next(g)] gives: the next item, with the generator advanced
    past it; [StopIteration] when the body has returned; or the
    exception that the body raises before its next [yield]. *)
Inductive advance (Y : Type) : Type :=
| Item (y : Y) (rest : generator Y)
| StopIteration
| Failed (e : exn).
Arguments Item {Y} y rest.
Arguments StopIteration {Y}.
Arguments Failed {Y} e.

Definition next {Y : Type} (g : generator Y) : advance Y :=
  match body g with
  | (y :: ys, o) => Item y (mkGenerator (ys, o))
  | ([], Returned _) => StopIteration
  | ([], Raised e) => Failed e
  end.

(** [[x for x in g]]: the generator is advanced to its end; the
    exception that ends it ends the comprehension. *)
Definition drain {Y : Type} (g : generator Y) : outcome (list Y) :=
  match body g with
  | (ys, Returned _) => Returned ys
  | (_, Raised e) => Raised e
  end.

End Generator.

(* ===================================================================== *)
(** ** More sample tables *)
(* ===================================================================== *)

Module SampleNine.
Import Sample.

(** The sample table with a second cell in row 1 that has content and a
    text of nine characters. *)
Definition forty_two_beside : Phrase := table_phrase 16 "42" ["42"] 1 1.

Definition cell_11_nine : Cell :=
  {| cell_id := 3; cell_text := "Total: 42";
     cell_row_start := 1; cell_col_start := 1;
     cell_row := row1; cell_col := col1; cell_phrases := [forty_two_beside] |}.

Definition table : list Cell :=
  [cell_00; cell_01; cell_10; cell_11_nine; cell_20; cell_21].

Definition cell_of (p : Phrase) : option Cell :=
  find (fun c => existsb (same_phrase_obj p) (cell_phrases c)) table.

Definition table_cells_of (p : Phrase) : option (list Cell) :=
  match cell_of p with
  | Some _ => Some table
  | None => None
  end.

End SampleNine.

Module SampleTall.
Import Sample.

(** A table of two rows and two columns whose first column is one cell
    that covers both rows:
    - rows 0 and 1, column 0: "Both rows";
    - row 0, column 1: "Alpha";
    - row 1, column 1: an empty cell. *)
Definition both_rows : Phrase := table_phrase 31 "Both rows" ["Both"; "rows"] 0 0.
Definition alpha : Phrase := table_phrase 32 "Alpha" ["Alpha"] 0 1.

Definition tall_cell : Cell :=
  {| cell_id := 30; cell_text := "<td rowspan=2>Both rows</td>";
     cell_row_start := 0; cell_col_start := 0;
     cell_row := row0; cell_col := col0; cell_phrases := [both_rows] |}.
Definition alpha_cell : Cell :=
  {| cell_id := 31; cell_text := "<td>Alpha</td>";
     cell_row_start := 0; cell_col_start := 1;
     cell_row := row0; cell_col := col1; cell_phrases := [alpha] |}.
Definition below_alpha : Cell :=
  {| cell_id := 32; cell_text := "<td></td>";
     cell_row_start := 1; cell_col_start := 1;
     cell_row := row1; cell_col := col1; cell_phrases := [] |}.

Definition table : list Cell := [tall_cell; alpha_cell; below_alpha].

Definition cell_of (p : Phrase) : option Cell :=
  find (fun c => existsb (same_phrase_obj p) (cell_phrases c)) table.

Definition table_cells_of (p : Phrase) : option (list Cell) :=
  match cell_of p with
  | Some _ => Some table
  | None => None
  end.

(** The last row that a phrase covers: row 1 for "Both rows", the row
    where it starts for the others. *)
Definition row_end (p : Phrase) : option Z :=
  if Nat.eqb (phrase_id p) 31 then Some 1 else row_start p.

(** Modelled from the spec: [is_axis_aligned], imported from
    [table_utils], a module that is not among the repository's files.
    Section 4.2: two objects are aligned along the row when their
    row-index ranges overlap; the cells of column 1 cover one row each. *)
Definition is_axis_aligned (p : Phrase) (c : Cell) (axis : Axis) : bool :=
  match axis with
  | Row =>
      match row_start p, row_end p with
      | Some r, Some r' => (r <=? cell_row_start c) && (cell_row_start c <=? r')
      | _, _ => false
      end
  | Col =>
      match col_start p with
      | Some k => k =? cell_col_start c
      | None => false
      end
  end.


End SampleTall.

(** * Properties *)
(* ===================================================================== *)

(** ** Lists and ranges *)

Lemma before_app {A : Type} (a b : A) (l l' : list A) :
  before a b (l ++ l') <->
  before a b l \/ (In a l /\ In b l') \/ before a b l'.
Proof.
  induction l as [|x l IH]; simpl.
  - tauto.
  - rewrite in_app_iff, IH. intuition (subst; auto).
Qed.

Lemma before_In {A : Type} (a b : A) (l : list A) :
  before a b l -> In a l /\ In b l.
Proof.
  induction l as [|x l IH]; simpl; [tauto|].
  intros [[-> Hb]|H]; [auto|]. destruct (IH H). auto.
Qed.

Section ListFacts.

Context {A B : Type}.

Lemma before_map (g : A -> B) (a b : B) (l : list A) :
  before a b (map g l) ->
  exists x y, before x y l /\ g x = a /\ g y = b.
Proof.
  induction l as [|x l IH]; simpl; [tauto|].
  intros [[Ha Hb]|H].
  - apply in_map_iff in Hb. destruct Hb as (y & Hy & Hin).
    exists x, y. auto.
  - destruct (IH H) as (x' & y' & H' & Hx & Hy).
    exists x', y'. auto.
Qed.

Lemma before_flat_map (f : A -> list B) (a b : B) (l : list A) :
  before a b (flat_map f l) ->
  (exists x, In x l /\ before a b (f x)) \/
  (exists x y, before x y l /\ In a (f x) /\ In b (f y)).
Proof.
  induction l as [|x l IH]; cbn [flat_map]; [simpl; tauto|].
  rewrite before_app. intros [H|[[Ha Hb]|H]].
  - left. exists x. split; [now left|exact H].
  - right. apply in_flat_map in Hb. destruct Hb as (y & Hy & Hb).
    exists x, y. simpl. auto.
  - destruct (IH H) as [(x' & Hin & Hx')|(x' & y' & Hxy & Hx' & Hy')].
    + left. exists x'. simpl. auto.
    + right. exists x', y'. simpl. auto.
Qed.

End ListFacts.

Lemma before_seq (a b s n : nat) : before a b (seq s n) -> (a < b)%nat.
Proof.
  revert s. induction n as [|n IH]; simpl; intros s; [tauto|].
  intros [[-> Hb]|H].
  - apply in_seq in Hb. lia.
  - eauto.
Qed.

Lemma in_range (x n : Z) : In x (Py.range n) <-> 0 <= x < n.
Proof.
  unfold Py.range. rewrite in_map_iff. split.
  - intros (k & <- & Hk). apply in_seq in Hk. lia.
  - intros H. exists (Z.to_nat x). rewrite in_seq. lia.
Qed.

Lemma before_range (a b n : Z) : before a b (Py.range n) -> a < b.
Proof.
  unfold Py.range. intros H.
  apply before_map in H. destruct H as (x & y & H & <- & <-).
  apply before_seq in H. lia.
Qed.

Lemma length_range (n : Z) : List.length (Py.range n) = Z.to_nat n.
Proof. unfold Py.range. now rewrite length_map, length_seq. Qed.

Lemma length_slice {A : Type} (l : list A) (lo hi : Z) :
  0 <= lo -> lo <= hi -> hi <= Z.of_nat (List.length l) ->
  Z.of_nat (List.length (Py.slice l lo hi)) = hi - lo.
Proof.
  intros H1 H2 H3. unfold Py.slice, Py.clamp.
  destruct (Z.ltb_spec lo 0); [lia|].
  destruct (Z.ltb_spec hi 0); [lia|].
  rewrite length_firstn, length_skipn. lia.
Qed.

(** ** utils.py: the n-gram slicer *)

Module UtilsFacts.
Import Utils.

Lemma slice_into_ngrams_spans tokens n_max delim :
  slice_into_ngrams tokens n_max delim =
  map (fun p => Py.join delim (Py.slice tokens (fst p) (fst p + snd p + 1)))
      (ngram_spans (Z.of_nat (List.length tokens)) n_max).
Proof.
  unfold slice_into_ngrams, ngram_spans.
  induction (Py.range (Z.of_nat (List.length tokens))) as [|r rs IH]; simpl.
  - reflexivity.
  - rewrite map_app, map_map, IH. reflexivity.
Qed.

Lemma in_ngram_spans N n_max root n :
  In (root, n) (ngram_spans N n_max) <->
  0 <= root /\ 0 <= n < n_max /\ root + n + 1 <= N.
Proof.
  unfold ngram_spans. rewrite in_flat_map. split.
  - intros (r & Hr & Hin). apply in_range in Hr.
    apply in_map_iff in Hin. destruct Hin as (k & Heq & Hk).
    apply in_range in Hk. inversion Heq; subst. lia.
  - intros H. exists root. split; [apply in_range; lia|].
    apply in_map_iff. exists n. split; [reflexivity|apply in_range; lia].
Qed.

(** The loops visit the pairs in lexicographic order. *)
Lemma ngram_spans_order N n_max p q :
  before p q (ngram_spans N n_max) ->
  fst p < fst q \/ (fst p = fst q /\ snd p < snd q).
Proof.
  unfold ngram_spans. intros H.
  apply before_flat_map in H.
  destruct H as [(r & _ & H)|(r & r' & H & Hp & Hq)].
  - right. apply before_map in H. destruct H as (x & y & H & <- & <-).
    apply before_range in H. simpl. auto.
  - left. apply before_range in H.
    apply in_map_iff in Hp. destruct Hp as (x & <- & _).
    apply in_map_iff in Hq. destruct Hq as (y & <- & _).
    simpl. auto.
Qed.

Lemma list_sum_one (x : nat) : list_sum [x] = x.
Proof. simpl. lia. Qed.

Lemma zsum_snoc (l : list Z) (x : Z) :
  fold_right Z.add 0 (l ++ [x]) = fold_right Z.add 0 l + x.
Proof. induction l as [|y l IH]; cbn [app fold_right]; lia. Qed.

Lemma by_root_succ N m : by_root (S N) m = (Nat.min m (S N) + by_root N m)%nat.
Proof.
  unfold by_root. rewrite <- cons_seq, <- seq_shift. simpl.
  rewrite map_map. reflexivity.
Qed.

Lemma by_length_succ N m :
  by_length (S N) m = (Nat.min m (S N) + by_length N m)%nat.
Proof.
  unfold by_length. induction m as [|m IH].
  - reflexivity.
  - rewrite !seq_S, !map_app, !list_sum_app, IH.
    cbn [map]. rewrite !list_sum_one. lia.
Qed.

Lemma by_root_by_length N m : by_root N m = by_length N m.
Proof.
  induction N as [|N IH].
  - unfold by_root, by_length. simpl.
    induction m as [|m IHm]; [reflexivity|].
    rewrite seq_S, map_app, list_sum_app, <- IHm. reflexivity.
  - now rewrite by_root_succ, by_length_succ, IH.
Qed.

Lemma length_slice_into_ngrams tokens n_max delim :
  List.length (slice_into_ngrams tokens n_max delim) =
  by_root (List.length tokens) (Z.to_nat n_max).
Proof.
  unfold slice_into_ngrams, by_root, Py.range.
  rewrite length_flat_map, map_map, Nat2Z.id. f_equal.
  apply map_ext_in. intros r Hr. apply in_seq in Hr.
  rewrite length_map, length_map, length_seq. lia.
Qed.

Lemma announced_count_from_one N n_max :
  announced_count (Z.of_nat N) 1 n_max =
  Z.of_nat (by_length N (Z.to_nat n_max)).
Proof.
  unfold announced_count, by_length, Py.range.
  replace (n_max - 1 + 1) with n_max by lia.
  induction (Z.to_nat n_max) as [|m IH]; [reflexivity|].
  rewrite !seq_S, !map_app. cbn [map].
  rewrite zsum_snoc, list_sum_app, list_sum_one, IH. lia.
Qed.

End UtilsFacts.

Module UtilsClaims.
Import Utils UtilsFacts.

(** C3, as stated, fails on [slice_into_ngrams]: called on
    ["The", "Fox"] with its defaults it yields "The", "The_Fox", "Fox";
    the items are joined by an underscore and keep their case.  With a
    space passed as delimiter the case is kept all the same, so the
    case-folded n-gram "the fox" is never produced. *)
Lemma slice_into_ngrams_keeps_case :
  slice_into_ngrams ["The"; "Fox"] default_n_max default_delim
    = ["The"; "The_Fox"; "Fox"]
  /\ slice_into_ngrams ["The"; "Fox"] 2 " " = ["The"; "The Fox"; "Fox"]
  /\ ~ In "the fox" (slice_into_ngrams ["The"; "Fox"] 2 " ").
Proof.
  split; [reflexivity|]. split; [reflexivity|].
  simpl. intros [H|[H|[H|[]]]]; discriminate H.
Qed.

(** C3, amended: [slice_into_ngrams] yields, for each start position
    from left to right and each length from 1 up to [n_max] that fits,
    the tokens of that stretch joined by the delimiter it is given (an
    underscore by default) and otherwise unchanged; hence of two
    n-grams that end at the same position the longer one is yielded
    first.  For the tokens the, quick, brown, fox with [n_max = 2] and a
    space as delimiter it yields exactly the, the quick, quick,
    quick brown, brown, brown fox, fox, in this order. *)
Theorem slice_into_ngrams_longer_first :
  (forall tokens n_max delim,
      let spans := ngram_spans (Z.of_nat (List.length tokens)) n_max in
      slice_into_ngrams tokens n_max delim =
      map (fun p => Py.join delim (Py.slice tokens (fst p) (fst p + snd p + 1)))
          spans
      /\ (forall root n, In (root, n) spans <->
            0 <= root /\ 0 <= n < n_max
            /\ root + n + 1 <= Z.of_nat (List.length tokens))
      /\ (forall p q, before p q spans ->
            fst p + snd p = fst q + snd q -> snd q < snd p))
  /\ slice_into_ngrams ["the"; "quick"; "brown"; "fox"] 2 " " =
     ["the"; "the quick"; "quick"; "quick brown"; "brown"; "brown fox"; "fox"].
Proof.
  split; [|reflexivity].
  intros tokens n_max delim spans. split; [|split].
  - apply slice_into_ngrams_spans.
  - intros root n. apply in_ngram_spans.
  - intros p q Hpq Hend.
    destruct (ngram_spans_order _ _ _ _ Hpq) as [H|[H1 H2]]; lia.
Qed.

Lemma slice_into_ngrams_longer_first_witness :
  before (0, 1) (1, 0) (ngram_spans 4 2)
  /\ fst (0, 1) + snd (0, 1) = fst (1, 0) + snd (1, 0)
  /\ snd (1, 0) < snd (0, 1).
Proof.
  split; [simpl; auto|]. split; [reflexivity|].
  destruct slice_into_ngrams_longer_first as [H _].
  destruct (H ["the"; "quick"; "brown"; "fox"] 2 " ") as (_ & _ & Horder).
  apply Horder; [simpl; auto|reflexivity].
Defined.

(** C4, as stated, fails on [slice_into_ngrams], which has no lower
    bound on the length: for two tokens and [n_min = n_max = 2] the
    announced count is 1, and the function yields three items, one of
    them the single token "a". *)
Lemma slice_into_ngrams_has_no_n_min :
  announced_count 2 2 2 = 1
  /\ Z.of_nat (List.length (slice_into_ngrams ["a"; "b"] 2 "_")) = 3
  /\ In "a" (slice_into_ngrams ["a"; "b"] 2 "_").
Proof. split; [reflexivity|]. split; [reflexivity|]. simpl. auto. Qed.

(** C4, amended: for every token sequence [T] and every [n_max],
    [slice_into_ngrams] yields exactly the sum, over the lengths [n]
    from 1 to [n_max], of [len(T) - n + 1] items (zero when
    [len(T) < n]); each item joins between 1 and [n_max] consecutive
    tokens; the empty sequence yields nothing. *)
Theorem slice_into_ngrams_count :
  forall tokens n_max delim,
    Z.of_nat (List.length (slice_into_ngrams tokens n_max delim))
      = announced_count (Z.of_nat (List.length tokens)) 1 n_max
    /\ Forall (fun item => exists root n,
                 item = Py.join delim (Py.slice tokens root (root + n))
                 /\ Z.of_nat (List.length (Py.slice tokens root (root + n))) = n
                 /\ 1 <= n <= n_max)
              (slice_into_ngrams tokens n_max delim)
    /\ slice_into_ngrams [] n_max delim = [].
Proof.
  intros tokens n_max delim. split; [|split].
  - now rewrite length_slice_into_ngrams, announced_count_from_one,
      by_root_by_length.
  - rewrite slice_into_ngrams_spans. apply Forall_forall.
    intros item Hin. apply in_map_iff in Hin.
    destruct Hin as ([root n] & <- & Hin). apply in_ngram_spans in Hin.
    exists root, (n + 1). simpl. rewrite Z.add_assoc. split; [reflexivity|].
    split; [|lia]. rewrite length_slice; lia.
  - reflexivity.
Qed.

End UtilsClaims.

(** ** Generators *)

Lemma bind_call_returned {Y R S : Type} (r : R) (k : R -> gen Y S) :
  Gen.bind (call (Returned r)) k = k r.
Proof. unfold Gen.bind, call. destruct (k r). reflexivity. Qed.

Lemma bind_call_raised {Y R S : Type} (e : exn) (k : R -> gen Y S) :
  Gen.bind (call (Raised e)) k = raise e.
Proof. reflexivity. Qed.

(** ** lf_helpers.py: the directional helpers *)

Module DirectionalFacts.
Section WithTokenizer.
Import Directional.

Variable tokens_to_ngrams : list string -> Z -> Z -> bool -> list string.

Lemma get_right_ngrams_span span window attrib n_min n_max lower toks :
  attribs (parent span) attrib = Some toks ->
  get_right_ngrams tokens_to_ngrams (TSpan span) window attrib n_min n_max lower =
  yield_all (tokens_to_ngrams
               (Py.slice toks (word_end span + 1) (word_end span + 1 + window))
               n_min n_max lower).
Proof.
  intros H. unfold get_right_ngrams, last_span, asdict_attrib.
  rewrite bind_call_returned, H, bind_call_returned. reflexivity.
Qed.

Lemma get_left_ngrams_span span window attrib n_min n_max lower toks :
  attribs (parent span) attrib = Some toks ->
  get_left_ngrams tokens_to_ngrams (TSpan span) window attrib n_min n_max lower =
  yield_all (tokens_to_ngrams
               (Py.slice toks (Z.max 0 (word_start span - window)) (word_start span))
               n_min n_max lower).
Proof.
  intros H. unfold get_left_ngrams, first_span, asdict_attrib.
  rewrite bind_call_returned, H, bind_call_returned. reflexivity.
Qed.

Lemma get_ngrams_missing_attrib span window attrib n_min n_max lower :
  attribs (parent span) attrib = None ->
  get_right_ngrams tokens_to_ngrams (TSpan span) window attrib n_min n_max lower
    = raise (KeyError attrib)
  /\ get_left_ngrams tokens_to_ngrams (TSpan span) window attrib n_min n_max lower
    = raise (KeyError attrib).
Proof.
  intros H.
  unfold get_right_ngrams, get_left_ngrams, last_span, first_span, asdict_attrib.
  rewrite !bind_call_returned, H. auto.
Qed.

(** When the first span starts before the second, the window handed to
    the tokenizer starts after the END of the first span and is as long
    as the distance between the two STARTS, less one. *)
Lemma get_between_ngrams_forward span0 span1 attrib n_min n_max lower toks :
  same_phrase_obj (parent span0) (parent span1) = true ->
  attribs (parent span0) attrib = Some toks ->
  word_start span0 < word_start span1 ->
  get_between_ngrams tokens_to_ngrams [span0; span1] attrib n_min n_max lower =
  yield_all (tokens_to_ngrams
               (Py.slice toks (word_end span0 + 1)
                         (word_end span0 + (word_start span1 - word_start span0)))
               n_min n_max lower).
Proof.
  intros Hp Ha Hlt. unfold get_between_ngrams. rewrite Hp. simpl negb. cbv iota.
  apply Z.ltb_lt in Hlt as Hb. rewrite Hb.
  rewrite (get_right_ngrams_span _ _ _ _ _ _ _ Ha).
  do 3 f_equal. lia.
Qed.

(** Then the gap is returned exactly when the first span is one token
    wide. *)
Lemma get_between_ngrams_forward_unit span0 span1 attrib n_min n_max lower toks :
  same_phrase_obj (parent span0) (parent span1) = true ->
  attribs (parent span0) attrib = Some toks ->
  word_start span0 < word_start span1 ->
  word_end span0 = word_start span0 ->
  get_between_ngrams tokens_to_ngrams [span0; span1] attrib n_min n_max lower =
  yield_all (tokens_to_ngrams
               (Py.slice toks (word_end span0 + 1) (word_start span1))
               n_min n_max lower).
Proof.
  intros Hp Ha Hlt Hw.
  rewrite (get_between_ngrams_forward _ _ _ n_min n_max lower _ Hp Ha Hlt).
  do 3 f_equal. lia.
Qed.

(** When the first span does not start before the second, the window
    lies to the left of the SECOND span, which is the leftmost one. *)
Lemma get_between_ngrams_backward span0 span1 attrib n_min n_max lower toks :
  same_phrase_obj (parent span0) (parent span1) = true ->
  attribs (parent span1) attrib = Some toks ->
  word_start span1 <= word_start span0 ->
  get_between_ngrams tokens_to_ngrams [span0; span1] attrib n_min n_max lower =
  yield_all (tokens_to_ngrams
               (Py.slice toks
                  (Z.max 0 (word_start span1 - (word_start span0 - word_start span1 - 1)))
                  (word_start span1))
               n_min n_max lower).
Proof.
  intros Hp Ha Hle. unfold get_between_ngrams. rewrite Hp. simpl negb. cbv iota.
  assert (Hb : (word_start span0 <? word_start span1) = false)
    by (apply Z.ltb_ge; lia).
  rewrite Hb, (get_left_ngrams_span _ _ _ _ _ _ _ Ha).
  do 4 f_equal. lia.
Qed.

Lemma get_between_ngrams_arity c attrib n_min n_max lower :
  List.length c <> 2%nat ->
  get_between_ngrams tokens_to_ngrams c attrib n_min n_max lower =
  raise (ValueError "Only applicable to binary Candidates").
Proof.
  intros H. destruct c as [|s0 [|s1 [|s2 c]]]; try reflexivity.
  simpl in H. congruence.
Qed.

Lemma get_between_ngrams_no_ValueError span0 span1 attrib n_min n_max lower :
  same_phrase_obj (parent span0) (parent span1) = true ->
  is_ValueError
    (ending (get_between_ngrams tokens_to_ngrams [span0; span1]
                                attrib n_min n_max lower)) = false.
Proof.
  intros Hp. unfold get_between_ngrams. rewrite Hp. simpl negb. cbv iota.
  destruct (word_start span0 <? word_start span1).
  - destruct (attribs (parent span0) attrib) as [toks|] eqn:Ha.
    + now rewrite (get_right_ngrams_span _ _ _ _ _ _ _ Ha).
    + now rewrite (proj1 (get_ngrams_missing_attrib _ _ _ _ _ _ Ha)).
  - destruct (attribs (parent span1) attrib) as [toks|] eqn:Ha.
    + now rewrite (get_left_ngrams_span _ _ _ _ _ _ _ Ha).
    + now rewrite (proj2 (get_ngrams_missing_attrib _ _ _ _ _ _ Ha)).
Qed.

End WithTokenizer.
End DirectionalFacts.

(** ** lf_helpers.py: [get_text_splits] *)

Module TextSplitsFacts.
Import TextSplits.

Lemma chr_cases n :
  (exists letter, Str.chr n = Returned letter)
  \/ (exists msg, Str.chr n = Raised (ValueError msg)).
Proof. unfold Str.chr. destruct ((0 <=? n) && (n <? 256)); eauto. Qed.

(** The loop ends with a [ValueError] as soon as an argument is not a
    span; [chr] raises one of its own from the 192nd argument on. *)
Lemma collect_rejects args :
  existsb (fun a => negb (is_span a)) args = true ->
  forall i spans span,
  exists msg, collect i args spans span = Raised (ValueError msg).
Proof.
  induction args as [|a args IH]; cbn [existsb]; [discriminate|].
  intros H i spans span. destruct a as [s|ctx]; cbn [collect].
  - destruct (chr_cases (65 + i)) as [[letter ->]|[msg ->]]; cbn [obind].
    + apply IH, H.
    + eauto.
  - eauto.
Qed.

Lemma collect_rejects_descriptive pre ctx post :
  forallb is_span pre = true ->
  forall i spans span,
  0 <= i -> i + Z.of_nat (List.length pre) <= 191 ->
  collect i (pre ++ ArgOther ctx :: post) spans span = Raised (ValueError descriptive).
Proof.
  induction pre as [|a pre IH]; cbn [forallb]; intros Hpre i spans span Hi Hlen.
  - reflexivity.
  - apply andb_prop in Hpre. destruct Hpre as [Ha Hpre].
    destruct a as [s|c]; [|discriminate]. cbn [app collect].
    cbn [List.length] in Hlen. unfold Str.chr.
    assert (Hc : (0 <=? 65 + i) && (65 + i <? 256) = true).
    { apply andb_true_intro. split; [apply Z.leb_le|apply Z.ltb_lt]; lia. }
    rewrite Hc. cbn [obind].
    apply IH; [assumption|lia|lia].
Qed.

(** From the 192nd span on, [chr] fails before the loop can reach an
    argument that is not a span. *)
Lemma collect_rejects_chr pre ctx post :
  forallb is_span pre = true ->
  forall i spans span,
  0 <= i <= 191 -> 192 <= i + Z.of_nat (List.length pre) ->
  collect i (pre ++ ArgOther ctx :: post) spans span
  = Raised (ValueError "chr() arg not in range(256)").
Proof.
  induction pre as [|a pre IH]; cbn [forallb]; intros Hpre i spans span Hi Hlen.
  - cbn [List.length] in Hlen. lia.
  - apply andb_prop in Hpre. destruct Hpre as [Ha Hpre].
    destruct a as [s|c]; [|discriminate]. cbn [app collect].
    cbn [List.length] in Hlen. unfold Str.chr.
    destruct (Z.eq_dec i 191) as [->|Hne]; [reflexivity|].
    assert (Hc : (0 <=? 65 + i) && (65 + i <? 256) = true).
    { apply andb_true_intro. split; [apply Z.leb_le|apply Z.ltb_lt]; lia. }
    rewrite Hc. cbn [obind].
    apply IH; [assumption|lia|lia].
Qed.

Lemma get_text_splits_rejects args :
  existsb (fun a => negb (is_span a)) args = true ->
  exists msg, get_text_splits args = Raised (ValueError msg).
Proof.
  intros H. unfold get_text_splits.
  destruct (collect_rejects args H 0 [] None) as [msg ->]. simpl. eauto.
Qed.

Lemma get_text_splits_rejects_descriptive pre ctx post :
  forallb is_span pre = true ->
  (List.length pre <= 191)%nat ->
  get_text_splits (pre ++ ArgOther ctx :: post) = Raised (ValueError descriptive).
Proof.
  intros Hpre Hlen. unfold get_text_splits.
  rewrite collect_rejects_descriptive; [reflexivity|assumption|lia|lia].
Qed.

End TextSplitsFacts.

Module DirectionalClaims.
Import Directional DirectionalFacts TextSplits TextSplitsFacts Generator Sample.

(** C1, evaluated where the code departs from it.  In the sentence
    a b c d e the only token strictly between the spans "a b" and "d"
    is "c".  For the candidate ("a b", "d") the window starts after the
    end of "a b" and has the length of the distance between the two
    starts, less one: the unigrams yielded are "c" and "d", and "d" is
    the second span itself.  For the candidate ("d", "b") the window
    lies left of "b": the unigram yielded is "a", which is outside the
    gap, and "c" is not yielded. *)
Theorem get_between_ngrams_leaves_the_gap :
  get_between_ngrams SpecModel.tokens_to_ngrams [span_ab; span_d] "words" 1 1 true
    = (["c"; "d"], Returned tt)
  /\ SpecModel.tokens_to_ngrams
       (Py.slice ["a"; "b"; "c"; "d"; "e"] (word_end span_ab + 1) (word_start span_d))
       1 1 true = ["c"]
  /\ get_between_ngrams SpecModel.tokens_to_ngrams [span_d; span_b] "words" 1 1 true
    = (["a"], Returned tt).
Proof. repeat split. Qed.

(** C2, evaluated where the code departs from it: for the spans "b"
    and "d" of the sentence a b c d e, the candidate ("b", "d") yields
    "c" and the candidate ("d", "b") yields "a". *)
Theorem get_between_ngrams_depends_on_order :
  get_between_ngrams SpecModel.tokens_to_ngrams [span_b; span_d] "words" 1 1 true
    = (["c"], Returned tt)
  /\ get_between_ngrams SpecModel.tokens_to_ngrams [span_d; span_b] "words" 1 1 true
    = (["a"], Returned tt).
Proof. split; reflexivity. Qed.

(** C9, as stated, fails on the code.  [get_between_ngrams] is a
    generator function: invoked on a candidate of one span it raises
    nothing and returns a generator, and the [ValueError] comes only
    when the caller advances that generator, if it ever does.  And
    [get_text_splits], given 192 spans and then an argument that is not
    a span, fails with the [ValueError] of [chr], which says nothing of
    the argument. *)
Lemma get_between_ngrams_call_raises_nothing :
  (exists g,
      invoke (get_between_ngrams SpecModel.tokens_to_ngrams [span_b] "words" 1 1 true)
      = Returned g
      /\ next g = Failed (ValueError "Only applicable to binary Candidates"))
  /\ get_text_splits (map ArgSpan (repeat span_b 192) ++ [ArgOther sentence])
     = Raised (ValueError "chr() arg not in range(256)").
Proof.
  split; [eexists; split; reflexivity|]. vm_compute. reflexivity.
Qed.

(** C9, amended.  A call of [get_between_ngrams] never fails, whatever
    the candidate: it returns a generator.  When the candidate does not
    have exactly two spans, and when its two spans have different
    parents, the first advance of that generator fails with a
    [ValueError] that names the violated condition, before any item;
    when the candidate has two spans of one parent, no advance fails
    with a [ValueError].  [get_between_tokens], which advances the
    generator to its end within the call, raises these errors at the
    call.  [get_text_splits], a plain function, fails at the call with a
    [ValueError] whenever an argument is not a span: with the message
    "Handles Span-type Candidate arguments only" when fewer than 192
    spans come before that argument, and with the message of [chr]
    otherwise. *)
Theorem input_contract_errors_on_first_advance :
  forall (tokens_to_ngrams : list string -> Z -> Z -> bool -> list string)
         (c : list Span) (attrib : string) (n_min n_max : Z) (lower : bool),
    (exists g,
        invoke (get_between_ngrams tokens_to_ngrams c attrib n_min n_max lower)
        = Returned g
        /\ get_between_tokens tokens_to_ngrams c attrib n_min n_max lower = drain g
        /\ (List.length c <> 2%nat ->
            next g = Failed (ValueError "Only applicable to binary Candidates")
            /\ drain g = Raised (ValueError "Only applicable to binary Candidates"))
        /\ (forall span0 span1,
              c = [span0; span1] ->
              same_phrase_obj (parent span0) (parent span1) = false ->
              next g = Failed (ValueError
                "Only applicable to Candidates where both spans are from the same immediate Context.")
              /\ drain g = Raised (ValueError
                   "Only applicable to Candidates where both spans are from the same immediate Context."))
        /\ (forall span0 span1,
              c = [span0; span1] ->
              same_phrase_obj (parent span0) (parent span1) = true ->
              (forall msg, next g <> Failed (ValueError msg))
              /\ is_ValueError (drain g) = false))
    /\ (forall args,
          existsb (fun a => negb (is_span a)) args = true ->
          exists msg, get_text_splits args = Raised (ValueError msg))
    /\ (forall pre ctx post,
          forallb is_span pre = true ->
          ((List.length pre <= 191)%nat ->
           get_text_splits (pre ++ ArgOther ctx :: post)
           = Raised (ValueError "Handles Span-type Candidate arguments only"))
          /\ ((192 <= List.length pre)%nat ->
              get_text_splits (pre ++ ArgOther ctx :: post)
              = Raised (ValueError "chr() arg not in range(256)"))).
Proof.
  intros ttn c attrib n_min n_max lower. split; [|split].
  - exists (mkGenerator (get_between_ngrams ttn c attrib n_min n_max lower)).
    unfold next, drain, get_between_tokens. cbn [body].
    split; [reflexivity|]. split; [|split; [|split]].
    + unfold ending, yielded.
      destruct (get_between_ngrams ttn c attrib n_min n_max lower) as [ys [[]|e]];
        reflexivity.
    + intros H. rewrite (get_between_ngrams_arity ttn c attrib n_min n_max lower H).
      split; reflexivity.
    + intros s0 s1 -> Hp. unfold get_between_ngrams. rewrite Hp. split; reflexivity.
    + intros s0 s1 -> Hp.
      pose proof (get_between_ngrams_no_ValueError ttn s0 s1 attrib n_min n_max lower Hp)
        as H. unfold ending in H.
      destruct (get_between_ngrams ttn [s0; s1] attrib n_min n_max lower)
        as [[|y ys] [[]|e]]; cbn [snd] in H; split;
        try reflexivity; try exact H; try discriminate.
      intros msg [= ->]. discriminate H.
  - apply get_text_splits_rejects.
  - intros pre ctx post Hpre. split.
    + now apply get_text_splits_rejects_descriptive.
    + intros Hlen. unfold get_text_splits.
      rewrite (collect_rejects_chr pre ctx post Hpre 0 [] None); [reflexivity|lia|lia].
Qed.

Lemma input_contract_errors_on_first_advance_witness :
  exists g,
    invoke (get_between_ngrams SpecModel.tokens_to_ngrams [span_b; span_x]
                               "words" 1 1 true)
    = Returned g
    /\ next g = Failed (ValueError
         "Only applicable to Candidates where both spans are from the same immediate Context.").
Proof.
  destruct (input_contract_errors_on_first_advance SpecModel.tokens_to_ngrams
              [span_b; span_x] "words" 1 1 true)
    as ((g & Hcall & _ & _ & Hparent & _) & _).
  exists g. split; [exact Hcall|].
  apply (Hparent span_b span_x); reflexivity.
Defined.

End DirectionalClaims.

(** ** Traces *)

Lemma yielded_bind {Y R S : Type} (g : gen Y R) (k : R -> gen Y S) :
  yielded (Gen.bind g k) =
  (yielded g ++ match ending g with
                | Returned r => yielded (k r)
                | Raised _ => []
                end)%list.
Proof.
  destruct g as [ys [r|e]]; simpl.
  - destruct (k r). reflexivity.
  - now rewrite app_nil_r.
Qed.



Lemma Forall_yielded_each {X Y R : Type} (P : Y -> Prop) (h : X -> Y) (g : gen X R) :
  Forall (fun x => P (h x)) (yielded g) ->
  Forall P (yielded (yield_each h g)).
Proof.
  intros H. unfold yield_each, yielded. simpl.
  apply Forall_map. exact H.
Qed.

Lemma bind_ext {Y R S : Type} (g : gen Y R) (k k' : R -> gen Y S) :
  (forall r, k r = k' r) -> Gen.bind g k = Gen.bind g k'.
Proof. intros H. destruct g as [ys [r|e]]; simpl; [now rewrite H|reflexivity]. Qed.

Lemma for_in_ext {X Y : Type} (xs : list X) (f g : X -> gen Y unit) :
  (forall x, In x xs -> f x = g x) ->
  for_in xs f = for_in xs g.
Proof.
  unfold for_in. generalize tt.
  induction xs as [|x xs IH]; intros u H; cbn [for_each]; [reflexivity|].
  rewrite (H x) by now left. apply bind_ext.
  intros u'. apply IH. intros y Hy. apply H. now right.
Qed.

(** ** lf_helpers.py: cell inference *)

Module InferFacts.
Import Infer.

Lemma _infer_cell_unfold cells root_cell axis direct infer :
  _infer_cell cells root_cell axis direct infer =
  if direct && (negb (empty root_cell) || edge root_cell axis || negb infer)
  then Returned (RealCell root_cell)
  else if edge root_cell axis || negb (empty root_cell)
       then Returned (PhantomCell [])
       else match neighbor_cells cells root_cell axis with
            | [] => Raised (IndexError "list index out of range")
            | n :: _ => _infer_cell cells n axis true true
            end.
Proof.
  rewrite _infer_cell_equation_1.
  destruct (direct && _); cbn; [reflexivity|].
  destruct (edge root_cell axis || _); cbn; [reflexivity|].
  unfold inspect.
  destruct (neighbor_cells cells root_cell axis); reflexivity.
Qed.

(** The emptiness test reads nothing but the length of the text. *)
Lemma empty_iff_length root_cell :
  empty root_cell = true <-> String.length (cell_text root_cell) = 9%nat.
Proof. unfold empty, Py.len. rewrite Z.eqb_eq. lia. Qed.




(** What [_infer_cell] returns with [direct] on. *)
Lemma infer_direct cells axis infer :
  forall n root_cell,
    (height cells (_other_axis axis) root_cell < n)%nat ->
    match _infer_cell cells root_cell axis true infer with
    | Returned (RealCell c) =>
        (c = root_cell \/ In c cells)
        /\ same_axis_obj (axis_of axis c) (axis_of axis root_cell) = true
        /\ position (axis_of (_other_axis axis) c)
           <= position (axis_of (_other_axis axis) root_cell)
        /\ (infer = true -> empty c = false \/ edge c axis = true)
    | Returned (PhantomCell _) => False
    | Raised e => e = IndexError "list index out of range" /\ infer = true
    end.
Proof.
  induction n as [|n IH]; intros root_cell Hh; [lia|].
  rewrite _infer_cell_unfold. cbn [andb].
  destruct (negb (empty root_cell) || edge root_cell axis || negb infer) eqn:Hc.
  - repeat apply conj.
    + now left.
    + apply Nat.eqb_refl.
    + lia.
    + intros ->. rewrite orb_false_r in Hc. apply orb_prop in Hc.
      destruct Hc as [Hc|Hc]; [left; now apply negb_true_iff|now right].
  - apply orb_false_iff in Hc. destruct Hc as [Hc Hi].
    apply orb_false_iff in Hc. destruct Hc as [He Hd].
    apply negb_false_iff in Hi. subst infer.
    rewrite Hd, He. cbn [orb].
    destruct (neighbor_cells cells root_cell axis) as [|c rest] eqn:Hn;
      [split; reflexivity|].
    pose proof (neighbor_lower cells root_cell axis c rest Hn) as Hlow.
    assert (Hin : In c (neighbor_cells cells root_cell axis))
      by (rewrite Hn; now left).
    apply filter_In in Hin. destruct Hin as [Hin Hp].
    apply andb_prop in Hp. destruct Hp as [Hax Hpos]. apply Z.eqb_eq in Hpos.
    specialize (IH c ltac:(lia)).
    destruct (_infer_cell cells c axis true true) as [[c'|ps]|e];
      [|exact IH|exact IH].
    destruct IH as (Hc' & Hax' & Hpos' & Hne).
    repeat apply conj.
    + right. destruct Hc' as [->|Hc']; assumption.
    + unfold same_axis_obj in *. apply Nat.eqb_eq in Hax, Hax'.
      apply Nat.eqb_eq. congruence.
    + lia.
    + exact Hne.
Qed.

End InferFacts.

(** ** lf_helpers.py: row, column and neighbor-cell context *)

Module TabularFacts.
Section WithFramework.
Import Infer InferFacts Tabular TabularTerms.

Variable tokens_to_ngrams : list string -> Z -> Z -> bool -> list string.
Variable is_axis_aligned : Phrase -> Cell -> Axis -> bool.
Variable min_row_diff min_col_diff : Phrase -> option Cell -> Z.
Variable cell_of : Phrase -> option Cell.
Variable table_cells_of : Phrase -> option (list Cell).










End WithFramework.
End TabularFacts.

Module NeighborFacts.
Section WithFramework.
Import Infer InferFacts Tabular TabularTerms TabularFacts.

Variable tokens_to_ngrams : list string -> Z -> Z -> bool -> list string.
Variable is_axis_aligned : Phrase -> Cell -> Axis -> bool.
Variable min_row_diff min_col_diff : Phrase -> option Cell -> Z.
Variable cell_of : Phrase -> option Cell.
Variable table_cells_of : Phrase -> option (list Cell).

Lemma is_neighbor_spec row_diff col_diff dist :
  is_neighbor row_diff col_diff dist = true <->
  one_axis_within row_diff col_diff dist.
Proof.
  unfold is_neighbor, truthy, one_axis_within.
  destruct (Z.eqb_spec row_diff 0), (Z.eqb_spec col_diff 0); simpl;
    rewrite ?Z.leb_le; split; intros H; try discriminate; try lia.
Qed.

Lemma direction_of_spec row_diff col_diff dist :
  one_axis_within row_diff col_diff dist ->
  label_by_sign row_diff col_diff (direction_of row_diff col_diff dist).
Proof.
  unfold one_axis_within, label_by_sign, direction_of.
  intros [(Hr & -> & Hd)|(-> & Hc & Hd)]; simpl.
  - destruct (Z.ltb_spec 0 row_diff), (Z.leb_spec row_diff dist),
      (Z.ltb_spec row_diff 0), (Z.leb_spec (- dist) row_diff); simpl;
      repeat split; intros; try reflexivity; lia.
  - destruct (Z.eqb_spec col_diff 0); [contradiction|].
    destruct (Z.ltb_spec 0 col_diff), (Z.leb_spec col_diff dist),
      (Z.ltb_spec col_diff 0), (Z.leb_spec (- dist) col_diff); simpl;
      repeat split; intros; try reflexivity; lia.
Qed.

Lemma neighbor_body_skips root_cell dist directions attrib n_min n_max lower phrase :
  is_neighbor (min_row_diff phrase root_cell) (min_col_diff phrase root_cell) dist
    = false ->
  neighbor_body tokens_to_ngrams min_row_diff min_col_diff
                root_cell dist directions attrib n_min n_max lower phrase
  = ret (Some phrase).
Proof. intros H. unfold neighbor_body. now rewrite H. Qed.

(** The n-grams of the phrase of the span come first. *)
Lemma get_neighbor_cell_ngrams_own_first span dist directions attrib n_min n_max lower :
  exists rest,
    yielded (get_neighbor_cell_ngrams tokens_to_ngrams is_axis_aligned
               min_row_diff min_col_diff cell_of table_cells_of
               (TSpan span) dist directions attrib n_min n_max lower)
    = (map Plain (yielded (Directional.get_phrase_ngrams tokens_to_ngrams (TSpan span)
                                                         attrib n_min n_max lower))
       ++ rest)%list.
Proof.
  unfold get_neighbor_cell_ngrams. cbn [spans_of for_each].
  unfold neighbor_span_step at 1.
  rewrite !yielded_bind, <- !app_assoc. eexists. reflexivity.
Qed.

(** The variable [phrase] is read before the loop that binds it: at the
    first positioned span the generator ends with [UnboundLocalError],
    having yielded nothing but n-grams of the phrases of the spans. *)
Lemma neighbor_loop_unbound dist directions attrib n_min n_max lower spans :
  (forall span, In span spans -> attribs (parent span) attrib <> None) ->
  existsb positioned spans = true ->
  ending (for_each spans None
            (neighbor_span_step tokens_to_ngrams is_axis_aligned
               min_row_diff min_col_diff cell_of table_cells_of
               dist directions attrib n_min n_max lower))
  = Raised (UnboundLocalError "phrase").
Proof.
  induction spans as [|span spans IH]; cbn [existsb for_each]; [discriminate|].
  intros Hattr Hpos.
  assert (Hown : exists ys,
             Directional.get_phrase_ngrams tokens_to_ngrams (TSpan span)
                                           attrib n_min n_max lower
             = (ys, Returned tt)).
  { unfold Directional.get_phrase_ngrams, for_in. cbn [spans_of for_each].
    destruct (attribs (parent span) attrib) as [toks|] eqn:Ha;
      [|exfalso; apply (Hattr span); [now left|exact Ha]].
    rewrite (DirectionalFacts.get_left_ngrams_span _ _ _ _ _ _ _ _ Ha),
            (DirectionalFacts.get_right_ngrams_span _ _ _ _ _ _ _ _ Ha).
    eexists. reflexivity. }
  destruct Hown as [ys Hown].
  unfold neighbor_span_step at 1. rewrite Hown.
  unfold positioned in Hpos at 1.
  destruct (row_start (parent span)) as [r|];
    [destruct (col_start (parent span)) as [k|]|]; cbn [orb] in Hpos;
    try reflexivity; cbn;
    match goal with
    | |- context [for_each spans None ?f] =>
        specialize (IH (fun s Hs => Hattr s (or_intror Hs)) Hpos);
        destruct (for_each spans None f) as [zs o]; cbn in *; exact IH
    end.
Qed.

End WithFramework.
End NeighborFacts.

Module TabularClaims.
Import Infer InferFacts Tabular TabularTerms TabularFacts NeighborFacts Sample.

(** C5, evaluated where the code departs from it.  The iterable of the
    loop over the neighbors reads [phrase], the variable that this very
    loop binds.  So for every span whose phrase has a row and a column,
    whatever the table and the arguments, [get_neighbor_cell_ngrams]
    yields the n-grams of the phrase of the span itself, bare, and then
    ends with [UnboundLocalError]: no n-gram of a neighbor is ever
    yielded, and no direction.  In the sample table the phrase "42" is
    aligned with "Net" along the row, at an offset of one column and of
    no row; for the span "Net" the function yields nothing and fails,
    and for the span "Total" of "Grand Total" it yields "grand", from
    the phrase of the span, and fails. *)
Theorem get_neighbor_cell_ngrams_reads_phrase_unbound :
  (forall (tokens_to_ngrams : list string -> Z -> Z -> bool -> list string)
          (is_axis_aligned : Phrase -> Cell -> Axis -> bool)
          (min_row_diff min_col_diff : Phrase -> option Cell -> Z)
          (cell_of : Phrase -> option Cell)
          (table_cells_of : Phrase -> option (list Cell))
          (span : Span) (dist : Z) (directions : bool) (attrib : string)
          (n_min n_max : Z) (lower : bool),
      positioned span = true ->
      get_neighbor_cell_ngrams tokens_to_ngrams is_axis_aligned
        min_row_diff min_col_diff cell_of table_cells_of
        (TSpan span) dist directions attrib n_min n_max lower
      = (yield_each Plain
           (Directional.get_phrase_ngrams tokens_to_ngrams (TSpan span)
                                          attrib n_min n_max lower) ;;;
         raise (UnboundLocalError "phrase"))%gen)
  /\ positioned span_net = true
  /\ _get_aligned_phrases is_axis_aligned table_cells_of net Row true false
     = Returned [forty_two]
  /\ min_row_diff forty_two (cell_of net) = 0
  /\ min_col_diff forty_two (cell_of net) = 1
  /\ is_neighbor (min_row_diff forty_two (cell_of net))
                 (min_col_diff forty_two (cell_of net)) 1 = true
  /\ get_neighbor_cell_ngrams SpecModel.tokens_to_ngrams is_axis_aligned
       min_row_diff min_col_diff cell_of table_cells_of
       (TSpan span_net) 1 true "words" 1 1 true
     = ([], Raised (UnboundLocalError "phrase"))
  /\ get_neighbor_cell_ngrams SpecModel.tokens_to_ngrams is_axis_aligned
       min_row_diff min_col_diff cell_of table_cells_of
       (TSpan span_net) 1 false "words" 1 1 true
     = ([], Raised (UnboundLocalError "phrase"))
  /\ positioned span_total = true
  /\ get_neighbor_cell_ngrams SpecModel.tokens_to_ngrams is_axis_aligned
       min_row_diff min_col_diff cell_of table_cells_of
       (TSpan span_total) 1 true "words" 1 1 true
     = ([Plain "grand"], Raised (UnboundLocalError "phrase")).
Proof.
  split; [|repeat split].
  intros ttn aligned mrd mcd cell_of cells_of span dist directions attrib
         n_min n_max lower Hpos.
  unfold get_neighbor_cell_ngrams. cbn [spans_of for_each].
  unfold neighbor_span_step, positioned in *.
  destruct (row_start (parent span)); [|discriminate].
  destruct (col_start (parent span)); [|discriminate].
  destruct (Directional.get_phrase_ngrams ttn (TSpan span) attrib n_min n_max lower)
    as [ys [[]|e]]; reflexivity.
Qed.


(** C7, evaluated where the code departs from it: [_infer_cell] takes a
    cell for empty exactly when its text has nine characters.  The
    header cell of the sample table, whose text is "<th></th>" and not
    "<td></td>", is taken for empty, and so is a cell whose text is the
    nine characters "Total: 42". *)
Theorem empty_reads_the_length_only :
  (forall root_cell,
      empty root_cell = true <-> String.length (cell_text root_cell) = 9%nat)
  /\ empty cell_00 = true
  /\ cell_text cell_00 <> "<td></td>"
  /\ empty {| cell_id := 9; cell_text := "Total: 42";
              cell_row_start := 1; cell_col_start := 1;
              cell_row := row1; cell_col := col1;
              cell_phrases := [forty_two] |} = true.
Proof.
  split; [apply empty_iff_length|].
  repeat split. discriminate.
Qed.




End TabularClaims.

(** ** lf_helpers.py: visual alignment *)

Module VisualFacts.
Section WithModels.
Import Visual.

Variable get_attrib_tokens : VisualPhrase -> string -> list Z.

Lemma dict_append_new {X : Type} (d : list (Z * list X)) k (x : X) :
  filed x (dict_append d k x).
Proof.
  induction d as [|[k' xs] d IH]; cbn [dict_append].
  - exists k, [x]. split; now left.
  - destruct (k' =? k).
    + exists k', (xs ++ [x])%list. split; [now left|].
      apply in_or_app. right. now left.
    + destruct IH as (k0 & xs0 & H1 & H2). exists k0, xs0. split; [now right|exact H2].
Qed.

Lemma dict_append_old {X : Type} (d : list (Z * list X)) k (x y : X) :
  filed y d -> filed y (dict_append d k x).
Proof.
  induction d as [|[k' xs] d IH]; cbn [dict_append]; intros (k0 & xs0 & H1 & H2).
  - destruct H1.
  - destruct H1 as [[= <- <-]|H1].
    + destruct (k' =? k).
      * exists k', (xs ++ [x])%list. split; [now left|].
        apply in_or_app. now left.
      * exists k', xs. split; [now left|exact H2].
    + destruct (k' =? k).
      * exists k0, xs0. split; [now right|exact H2].
      * destruct (IH (ex_intro _ k0 (ex_intro _ xs0 (conj H1 H2))))
          as (k1 & xs1 & H3 & H4).
        exists k1, xs1. split; [now right|exact H4].
Qed.

Lemma group_by_filed {X : Type} (key : X -> Z) (xs : list X) (x : X) :
  In x xs -> filed x (group_by key xs).
Proof.
  unfold group_by.
  assert (H : forall d, filed x d \/ In x xs ->
                        filed x (fold_left (fun d x => dict_append d (key x) x) xs d)).
  { induction xs as [|y xs IH]; cbn [fold_left]; intros d [Hd|Hin].
    - exact Hd.
    - destruct Hin.
    - apply IH. left. now apply dict_append_old.
    - destruct Hin as [->|Hin].
      + apply IH. left. apply dict_append_new.
      + apply IH. now right. }
  intros Hin. apply H. now right.
Qed.

(** A phrase without any coordinate has no box, and the pass reads the
    box without testing it. *)
Lemma place_without_coordinates phrase :
  top phrase = [] -> get_attrib_tokens phrase "top" = [] ->
  _bbox_from_span get_attrib_tokens phrase = Returned None
  /\ place get_attrib_tokens phrase
     = Raised (AttributeError "'NoneType' object has no attribute 'top'").
Proof.
  intros Ht Hg. unfold place, _bbox_from_span. rewrite Ht, Hg. split; reflexivity.
Qed.

Lemma place_all_raises phrases phrase e :
  In phrase phrases -> place get_attrib_tokens phrase = Raised e ->
  exists e', place_all get_attrib_tokens phrases = Raised e'.
Proof.
  induction phrases as [|p ps IH]; intros Hin Hp; [destruct Hin|].
  cbn [place_all]. destruct Hin as [->|Hin].
  - rewrite Hp. cbn. eauto.
  - destruct (place get_attrib_tokens p) as [pl|e0]; cbn; [|eauto].
    destruct (IH Hin Hp) as [e' ->]. cbn. eauto.
Qed.

Lemma process_pages_raises pages k phrases e :
  In (k, phrases) pages ->
  place_all get_attrib_tokens phrases = Raised e ->
  forall doc, exists e', snd (process_pages get_attrib_tokens doc pages) = Raised e'.
Proof.
  induction pages as [|[k0 ps] pages IH]; intros Hin Hp doc; [destruct Hin|].
  cbn [process_pages]. destruct Hin as [[= -> ->]|Hin].
  - unfold process_page. rewrite Hp. cbn. eauto.
  - destruct (process_page get_attrib_tokens doc ps) as [doc' [u|e0]]; cbn; [|eauto].
    now apply IH.
Qed.

(** The pass ends with an exception as soon as the document holds a
    phrase without any coordinate; the flag is set all the same. *)
Lemma preprocess_raises doc phrase :
  has_visual_features doc = false ->
  In phrase (doc_phrases doc) ->
  top phrase = [] -> get_attrib_tokens phrase "top" = [] ->
  exists e, snd (_preprocess_visual_features get_attrib_tokens doc) = Raised e.
Proof.
  intros Hflag Hin Ht Hg. unfold _preprocess_visual_features. rewrite Hflag.
  destruct (group_by_filed page (doc_phrases doc) phrase Hin) as (k & ps & Hk & Hps).
  destruct (place_without_coordinates phrase Ht Hg) as [_ Hplace].
  destruct (place_all_raises ps phrase _ Hps Hplace) as [e He].
  cbn [doc_phrases set_flag].
  apply (process_pages_raises _ k ps e Hk He).
Qed.

End WithModels.
End VisualFacts.

Module VisualClaims.
Import Visual VisualFacts Sample.

(** C8, evaluated where the code departs from it.  The document holds a
    single phrase, which has no coordinate of any kind.
    [_bbox_from_span] returns [None] for it, and the pass, which reads
    [phrase.bbox.top] next, ends with [AttributeError]: the phrase is not
    skipped.  By then the flag is set and the aligned-lemma set of the
    phrase is the empty set, so [get_visual_aligned_lemmas] raises on the
    first call and yields nothing, without error, from the second call
    on.  A phrase with a box on the same page changes nothing. *)
Theorem preprocess_fails_without_coordinates :
  let after := fst (_preprocess_visual_features no_token_boxes bare_doc) in
  _bbox_from_span no_token_boxes bare_phrase = Returned None
  /\ snd (_preprocess_visual_features no_token_boxes bare_doc)
     = Raised (AttributeError "'NoneType' object has no attribute 'top'")
  /\ has_visual_features after = true
  /\ aligned_lemmas after (vp_id bare_phrase) = Some []
  /\ snd (get_visual_aligned_lemmas no_token_boxes bare_doc bare_phrase)
     = raise (AttributeError "'NoneType' object has no attribute 'top'")
  /\ snd (get_visual_aligned_lemmas no_token_boxes after bare_phrase)
     = ([], Returned tt)
  /\ snd (_preprocess_visual_features no_token_boxes mixed_doc)
     = Raised (AttributeError "'NoneType' object has no attribute 'top'").
Proof. repeat split. Qed.

End VisualClaims.

(** ** Stable sorting by an integer key *)

Section SortBy.
Import Visual.
Context {X : Type} (key : X -> Z).

Local Abbreviation key_le := (UtilsRest.key_le key).

Lemma insert_by_perm x l : Permutation (insert_by key x l) (x :: l).
Proof.
  induction l as [|y l IH]; cbn [insert_by]; [reflexivity|].
  destruct (key y <=? key x); [|reflexivity].
  rewrite IH. apply perm_swap.
Qed.

Lemma sort_by_perm l : Permutation (sort_by key l) l.
Proof.
  unfold sort_by.
  assert (H : forall acc,
             Permutation
               (fold_left (fun acc x => insert_by key x acc) l acc) (acc ++ l)).
  { induction l as [|x l IH]; intros acc; cbn [fold_left].
    - now rewrite app_nil_r.
    - rewrite IH, insert_by_perm. apply Permutation_middle. }
  apply (H []).
Qed.

Lemma insert_by_sorted x l :
  StronglySorted key_le l -> StronglySorted key_le (insert_by key x l).
Proof.
  induction 1 as [|y l Hs IH Hy]; cbn [insert_by].
  - repeat constructor.
  - destruct (Z.leb_spec (key y) (key x)).
    + constructor; [exact IH|].
      eapply Permutation_Forall;
        [symmetry; apply insert_by_perm|].
      constructor; [exact H|exact Hy].
    + constructor; [now constructor|].
      constructor; [unfold UtilsRest.key_le; lia|].
      eapply Forall_impl; [|exact Hy]. unfold UtilsRest.key_le. intros a Ha. lia.
Qed.

Lemma sort_by_sorted l : StronglySorted key_le (sort_by key l).
Proof.
  unfold sort_by.
  assert (H : forall acc, StronglySorted key_le acc ->
                          StronglySorted key_le
                            (fold_left (fun acc x => insert_by key x acc) l acc)).
  { induction l as [|x l IH]; intros acc Hacc; cbn [fold_left]; [exact Hacc|].
    apply IH. now apply insert_by_sorted. }
  apply H. constructor.
Qed.

(** An element that is not below the ones already there goes last. *)
Lemma insert_by_last x l :
  Forall (fun y => key y <= key x) l -> insert_by key x l = (l ++ [x])%list.
Proof.
  induction 1 as [|y l Hy Hl IH]; cbn [insert_by app]; [reflexivity|].
  destruct (Z.leb_spec (key y) (key x)); [now rewrite IH|lia].
Qed.

(** The sort leaves a list alone whose keys already go up: elements with
    equal keys keep their order. *)
Lemma sort_by_sorted_input l :
  StronglySorted key_le l -> sort_by key l = l.
Proof.
  unfold sort_by.
  assert (H : forall acc,
             StronglySorted key_le (acc ++ l) ->
             fold_left (fun acc x => insert_by key x acc) l acc = (acc ++ l)%list).
  { induction l as [|x l IH]; intros acc Hs; cbn [fold_left].
    - now rewrite app_nil_r.
    - rewrite insert_by_last.
      + rewrite IH; rewrite <- app_assoc; [reflexivity|exact Hs].
      + clear IH. induction acc as [|a acc IHa]; [constructor|].
        cbn [app] in Hs. inversion Hs as [|? ? Hs' Ha]; subst.
        constructor; [|now apply IHa].
        rewrite Forall_app in Ha. destruct Ha as [_ Ha].
        now inversion Ha. }
  intros Hs. apply (H [] Hs).
Qed.

End SortBy.

(** ** utils.py: the other helpers *)

Module UtilsRestFacts.
Import Utils UtilsFacts UtilsRest.

Lemma firstn_one_skipn {A : Type} (l : list A) (i : nat) (d : A) :
  (i < List.length l)%nat -> firstn 1 (skipn i l) = [nth i l d].
Proof.
  revert i. induction l as [|x l IH]; intros i Hi; [simpl in Hi; lia|].
  destruct i as [|i]; [reflexivity|].
  cbn [skipn nth]. apply IH. simpl in Hi. lia.
Qed.

Lemma slice_one {A : Type} (l : list A) (i : nat) (d : A) :
  (i < List.length l)%nat ->
  Py.slice l (Z.of_nat i) (Z.of_nat i + 0 + 1) = [nth i l d].
Proof.
  intros Hi. unfold Py.slice, Py.clamp.
  destruct (Z.ltb_spec (Z.of_nat i) 0); [lia|].
  destruct (Z.ltb_spec (Z.of_nat i + 0 + 1) 0); [lia|].
  replace (Z.to_nat (Z.min (Z.of_nat i + 0 + 1) (Z.of_nat (List.length l))
                     - Z.min (Z.of_nat i) (Z.of_nat (List.length l)))) with 1%nat by lia.
  replace (Z.to_nat (Z.min (Z.of_nat i) (Z.of_nat (List.length l)))) with i by lia.
  now apply firstn_one_skipn.
Qed.

Lemma map_nth_seq {A : Type} (l : list A) (d : A) :
  map (fun i => nth i l d) (seq 0 (List.length l)) = l.
Proof.
  induction l as [|x l IH]; [reflexivity|].
  cbn [List.length seq map nth]. f_equal.
  rewrite <- seq_shift, map_map. exact IH.
Qed.

Lemma flat_map_singleton {A B : Type} (f : A -> list B) (g : A -> B) (l : list A) :
  (forall x, In x l -> f x = [g x]) -> flat_map f l = map g l.
Proof.
  induction l as [|x l IH]; intros H; [reflexivity|].
  cbn [flat_map map]. rewrite (H x) by now left.
  rewrite IH; [reflexivity|]. intros y Hy. apply H. now right.
Qed.

Lemma by_root_all N m : (N <= m)%nat -> (2 * by_root N m = N * (N + 1))%nat.
Proof.
  intros H. induction N as [|N IH]; [reflexivity|].
  rewrite by_root_succ. specialize (IH ltac:(lia)). nia.
Qed.

(** X1.  With [n_max = 1] the slicer returns the tokens themselves,
    whatever the delimiter; with [n_max <= 0] it returns nothing; and when
    [n_max] is at least the number [N] of tokens it returns all the
    [N (N + 1) / 2] contiguous stretches. *)
Theorem slice_into_ngrams_extremes :
  forall tokens n_max delim,
    slice_into_ngrams tokens 1 delim = tokens
    /\ (n_max <= 0 -> slice_into_ngrams tokens n_max delim = [])
    /\ (Z.of_nat (List.length tokens) <= n_max ->
        (2 * List.length (slice_into_ngrams tokens n_max delim)
         = List.length tokens * (List.length tokens + 1))%nat).
Proof.
  intros tokens n_max delim. split; [|split].
  - unfold slice_into_ngrams, Py.range. rewrite Nat2Z.id.
    transitivity (map (fun i => nth i tokens EmptyString)
                      (seq 0 (List.length tokens)));
      [|apply map_nth_seq].
    rewrite (flat_map_singleton _ (fun z => nth (Z.to_nat z) tokens EmptyString)).
    + rewrite map_map. apply map_ext. intros i. now rewrite Nat2Z.id.
    + intros z Hz. apply in_map_iff in Hz. destruct Hz as (i & <- & Hi).
      apply in_seq in Hi.
      replace (Z.to_nat (Z.min 1 (Z.of_nat (List.length tokens) - Z.of_nat i)))
        with 1%nat by lia.
      cbn [seq map]. change (Z.of_nat 0) with 0.
      rewrite (slice_one tokens i EmptyString) by lia.
      rewrite Nat2Z.id. reflexivity.
  - intros H. apply length_zero_iff_nil.
    rewrite length_slice_into_ngrams. unfold by_root.
    replace (Z.to_nat n_max) with 0%nat by lia.
    induction (seq 0 (List.length tokens)) as [|r rs IH]; [reflexivity|].
    cbn [map list_sum fold_right]. unfold list_sum in IH. rewrite IH. reflexivity.
  - intros H. rewrite length_slice_into_ngrams. apply by_root_all. lia.
Qed.

Lemma slice_into_ngrams_extremes_witness :
  slice_into_ngrams ["a"; "b"] 0 "_" = []
  /\ (2 * List.length (slice_into_ngrams ["a"; "b"] 5 "_") = 2 * (2 + 1))%nat.
Proof.
  destruct (slice_into_ngrams_extremes ["a"; "b"] 0 "_") as (_ & Hnone & _).
  destruct (slice_into_ngrams_extremes ["a"; "b"] 5 "_") as (_ & _ & Hall).
  split; [apply Hnone; lia|apply Hall; simpl; lia].
Defined.

Lemma length_sort_by {A : Type} (key : A -> Z) (l : list A) :
  List.length (Visual.sort_by key l) = List.length l.
Proof. apply Permutation_length, sort_by_perm. Qed.

Lemma map_snd_combine {A : Type} (xs : list A) (ys : list Z) :
  map snd (combine ys xs) = firstn (List.length ys) xs.
Proof.
  revert xs. induction ys as [|y ys IH]; intros [|x xs]; cbn; try reflexivity.
  now rewrite IH.
Qed.

Lemma combine_sorted {A : Type} (xs : list A) (ys : list Z) :
  StronglySorted Z.le ys -> StronglySorted (key_le fst) (combine ys xs).
Proof.
  intros Hs. revert xs. induction Hs as [|y ys Hs IH Hy]; intros [|x xs]; cbn;
    try constructor.
  - apply IH.
  - apply Forall_forall. intros [y' x'] Hin. apply in_combine_l in Hin.
    rewrite Forall_forall in Hy. unfold key_le. cbn. now apply Hy.
Qed.

(** X2.  [sort_X_on_Y] returns as many elements as the shorter of its
    two lists has: the first elements of [X], paired with the keys of
    [Y], put in the order of their keys, and all of [X] when [Y] is not
    shorter.  Keys that already go up leave the order as it is, so
    elements of equal keys are never swapped. *)
Theorem sort_X_on_Y_sorts :
  forall (X : Type) (xs : list X) (ys : list Z),
    List.length (sort_X_on_Y xs ys) = Nat.min (List.length xs) (List.length ys)
    /\ (exists pairs,
          Permutation pairs (combine ys xs)
          /\ StronglySorted (key_le fst) pairs
          /\ sort_X_on_Y xs ys = map snd pairs)
    /\ ((List.length xs <= List.length ys)%nat ->
        Permutation (sort_X_on_Y xs ys) xs)
    /\ (StronglySorted Z.le ys ->
        sort_X_on_Y xs ys = firstn (List.length ys) xs).
Proof.
  intros X xs ys. unfold sort_X_on_Y. repeat apply conj.
  - rewrite length_map, length_sort_by, length_combine. lia.
  - exists (Visual.sort_by fst (combine ys xs)).
    split; [apply sort_by_perm|]. split; [apply sort_by_sorted|reflexivity].
  - intros H. rewrite (Permutation_map snd (sort_by_perm fst (combine ys xs))).
    rewrite map_snd_combine, firstn_all2; [reflexivity|exact H].
  - intros H. rewrite sort_by_sorted_input by now apply combine_sorted.
    apply map_snd_combine.
Qed.

Lemma sort_X_on_Y_sorts_witness :
  Permutation (sort_X_on_Y ["a"; "b"; "c"] [3; 1; 2]) ["a"; "b"; "c"]
  /\ sort_X_on_Y ["a"; "b"; "c"] [1; 1; 2] = firstn 3 ["a"; "b"; "c"].
Proof.
  destruct (sort_X_on_Y_sorts string ["a"; "b"; "c"] [3; 1; 2]) as (_ & _ & Hperm & _).
  destruct (sort_X_on_Y_sorts string ["a"; "b"; "c"] [1; 1; 2]) as (_ & _ & _ & Hkeep).
  split.
  - apply Hperm. simpl. lia.
  - apply Hkeep. repeat constructor; lia.
Defined.

Lemma dict_get_none d w : dict_get d w = None <-> ~ In w (map fst d).
Proof.
  induction d as [|[k v] d IH]; cbn [dict_get map fst In]; [tauto|].
  destruct (String.eqb_spec k w).
  - split; [discriminate|]. intros H. exfalso. apply H. now left.
  - rewrite IH. tauto.
Qed.

Lemma clean_word_clean w : dict_get brackets (clean_word w) = None.
Proof.
  unfold clean_word. destruct (dict_get brackets w) as [v|] eqn:H; [|exact H].
  unfold brackets in H. cbn [dict_get] in H.
  repeat match type of H with
         | (if String.eqb ?k w then _ else _) = _ =>
             destruct (String.eqb k w);
             [injection H as <-; reflexivity|]
         end.
  discriminate H.
Qed.

(** X3.  [corenlp_cleaner] keeps the number of words, leaves every word
    that is not one of the six bracket codes where it is, returns a list
    without any bracket code, and cleaning twice is cleaning once. *)
Theorem corenlp_cleaner_cleans :
  forall words,
    List.length (corenlp_cleaner words) = List.length words
    /\ Forall (fun w => ~ In w (map fst brackets)) (corenlp_cleaner words)
    /\ corenlp_cleaner (corenlp_cleaner words) = corenlp_cleaner words
    /\ (Forall (fun w => ~ In w (map fst brackets)) words ->
        corenlp_cleaner words = words).
Proof.
  intros words. unfold corenlp_cleaner. fold clean_word.
  change (fun w => match dict_get brackets w with Some v => v | None => w end)
    with clean_word.
  repeat apply conj.
  - apply length_map.
  - apply Forall_map, Forall_forall. intros w _.
    apply dict_get_none, clean_word_clean.
  - rewrite map_map. apply map_ext. intros w.
    unfold clean_word at 1. now rewrite clean_word_clean.
  - intros H. rewrite <- (map_id words) at 2. apply map_ext_in.
    intros w Hw. rewrite Forall_forall in H.
    unfold clean_word. now rewrite (proj2 (dict_get_none brackets w) (H w Hw)).
Qed.

Lemma corenlp_cleaner_cleans_witness :
  corenlp_cleaner ["the"; "("; "fox"] = ["the"; "("; "fox"].
Proof.
  apply (corenlp_cleaner_cleans ["the"; "("; "fox"]).
  repeat constructor; simpl; intros H; decompose [or] H; discriminate || assumption.
Defined.

Lemma split_nonempty sep s : split sep s <> [].
Proof.
  destruct s as [|c s]; cbn [split]; [discriminate|].
  destruct (Ascii.eqb c sep); [discriminate|].
  destruct (split sep s); discriminate.
Qed.

(** Joining the pieces with the separator gives the string back. *)
Lemma join_split sep s : Py.join (String sep EmptyString) (split sep s) = s.
Proof.
  unfold Py.join. induction s as [|c s IH]; cbn [split]; [reflexivity|].
  destruct (Ascii.eqb_spec c sep) as [->|Hc].
  - pose proof (split_nonempty sep s) as Hne.
    destruct (split sep s) as [|piece pieces]; [contradiction|].
    change (String.concat (String sep "") ("" :: piece :: pieces))
      with (String sep (String.concat (String sep "") (piece :: pieces))).
    now rewrite IH.
  - pose proof (split_nonempty sep s) as Hne.
    destruct (split sep s) as [|piece pieces]; [contradiction|].
    destruct pieces as [|piece' pieces].
    + cbn [String.concat] in *. now rewrite IH.
    + change (String.concat (String sep "") (String c piece :: piece' :: pieces))
        with (String c (piece ++ String sep ""
                        ++ String.concat (String sep "") (piece' :: pieces))).
      change (String.concat (String sep "") (piece :: piece' :: pieces))
        with (piece ++ String sep ""
              ++ String.concat (String sep "") (piece' :: pieces))%string in IH.
      now rewrite IH.
Qed.

Lemma split_pieces sep s : Forall (fun piece => count_char sep piece = 0%nat) (split sep s).
Proof.
  induction s as [|c s IH]; cbn [split].
  - repeat constructor.
  - destruct (Ascii.eqb c sep) eqn:Hc.
    + constructor; [reflexivity|exact IH].
    + pose proof (split_nonempty sep s) as Hne.
      destruct (split sep s) as [|piece pieces]; [contradiction|].
      inversion IH as [|? ? Hp Hps]; subst.
      constructor; [|exact Hps]. cbn [count_char]. now rewrite Hc, Hp.
Qed.

Lemma length_split sep s : List.length (split sep s) = S (count_char sep s).
Proof.
  induction s as [|c s IH]; cbn [split count_char]; [reflexivity|].
  destruct (Ascii.eqb c sep).
  - cbn [List.length]. now rewrite IH.
  - pose proof (split_nonempty sep s) as Hne.
    destruct (split sep s) as [|piece pieces]; [contradiction|].
    cbn [List.length] in *. lia.
Qed.

(** X4.  For each pair of an attribute and a value, [split_html_attrs]
    returns one item for each piece of the value between semicolons,
    that is one more than the value has semicolons (one item for an
    empty value), in the order of the pairs; each item is the attribute,
    an equals sign and the piece; no piece holds a semicolon, and the
    pieces joined with semicolons give the value back. *)
Theorem split_html_attrs_pieces :
  forall attrs,
    List.length (split_html_attrs attrs)
    = list_sum (map (fun a => S (count_char ";" (snd a))) attrs)
    /\ (forall more, split_html_attrs (attrs ++ more)
                     = (split_html_attrs attrs ++ split_html_attrs more)%list)
    /\ (forall attr value,
          exists pieces,
            split_html_attrs [(attr, value)]
            = map (fun piece => (attr ++ "=" ++ piece)%string) pieces
            /\ Py.join ";" pieces = value
            /\ Forall (fun piece => count_char ";" piece = 0%nat) pieces).
Proof.
  intros attrs. repeat apply conj.
  - unfold split_html_attrs. rewrite length_flat_map. f_equal.
    apply map_ext. intros a. now rewrite length_map, length_split.
  - intros more. unfold split_html_attrs. apply flat_map_app.
  - intros attr value. exists (split ";" value). repeat apply conj.
    + unfold split_html_attrs. cbn [flat_map fst snd]. rewrite app_nil_r.
      reflexivity.
    + apply join_split.
    + apply split_pieces.
Qed.

End UtilsRestFacts.

(** ** lf_helpers.py: more on the text splits *)

Module TextSplitsMore.
Import TextSplits TextSplitsFacts.

Lemma last_default {A : Type} (l : list A) (d d' : A) :
  l <> [] -> last l d = last l d'.
Proof.
  induction l as [|x l IH]; intros H; [contradiction|].
  destruct l as [|y l]; [reflexivity|].
  cbn [last] in *. apply IH. discriminate.
Qed.

Lemma collect_spans spans :
  forall i acc sp,
    0 <= i -> i + Z.of_nat (List.length spans) <= 191 ->
    exists marks,
      collect i (map ArgSpan spans) acc sp
      = Returned ((acc ++ marks)%list, last (map Some spans) sp)
      /\ List.length marks = List.length spans.
Proof.
  induction spans as [|s spans IH]; intros i acc sp Hi Hlen; cbn [map collect].
  - exists []. now rewrite app_nil_r.
  - cbn [List.length] in Hlen. unfold Str.chr.
    assert (Hc : (0 <=? 65 + i) && (65 + i <? 256) = true).
    { apply andb_true_intro. split; [apply Z.leb_le|apply Z.ltb_lt]; lia. }
    rewrite Hc. cbn [obind].
    destruct (IH (i + 1) (acc ++ [(char_start s, char_end s,
                                   String (ascii_of_nat (Z.to_nat (65 + i))) "")])%list
                 (Some s)) as (marks & -> & Hm); [lia|lia|].
    eexists (_ :: marks). rewrite <- app_assoc. cbn [app]. split.
    + f_equal. f_equal. destruct spans as [|s0 spans]; [reflexivity|].
      cbn [map]. rewrite (last_default (Some s0 :: map Some spans) (Some s) sp)
        by discriminate. reflexivity.
    + cbn [List.length]. now rewrite Hm.
Qed.

Lemma collect_too_many spans :
  forall i acc sp,
    0 <= i <= 191 -> 192 <= i + Z.of_nat (List.length spans) ->
    collect i (map ArgSpan spans) acc sp
    = Raised (ValueError "chr() arg not in range(256)").
Proof.
  induction spans as [|s spans IH]; intros i acc sp Hi Hlen; cbn [map collect].
  - cbn [List.length] in Hlen. lia.
  - cbn [List.length] in Hlen. unfold Str.chr.
    destruct (Z.eq_dec i 191) as [->|Hne]; [reflexivity|].
    assert (Hc : (0 <=? 65 + i) && (65 + i <? 256) = true).
    { apply andb_true_intro. split; [apply Z.leb_le|apply Z.ltb_lt]; lia. }
    rewrite Hc. cbn [obind]. apply IH; lia.
Qed.

Lemma length_insert m l : List.length (insert m l) = S (List.length l).
Proof.
  induction l as [|x l IH]; cbn [insert]; [reflexivity|].
  destruct (mark_leb m x); cbn [List.length]; [reflexivity|now rewrite IH].
Qed.

Lemma length_sort l : List.length (sort l) = List.length l.
Proof.
  unfold sort. induction l as [|x l IH]; cbn [fold_right]; [reflexivity|].
  now rewrite length_insert, IH.
Qed.

Lemma length_chunks_after text prev rest :
  List.length (chunks_after text prev rest) = (2 * List.length rest + 1)%nat.
Proof.
  revert prev. induction rest as [|next rest IH]; intros prev; cbn [chunks_after];
    [reflexivity|].
  cbn [List.length]. rewrite IH. lia.
Qed.

Lemma get_text_splits_length spans :
  (1 <= List.length spans <= 191)%nat ->
  exists chunks,
    get_text_splits (map ArgSpan spans) = Returned chunks
    /\ List.length chunks = (2 * List.length spans + 1)%nat.
Proof.
  intros H. unfold get_text_splits.
  destruct (collect_spans spans 0 [] None) as (marks & -> & Hm); [lia|lia|].
  cbn [obind fst snd app].
  destruct spans as [|s0 spans]; [cbn in H; lia|].
  assert (Hlast : exists s, last (map Some (s0 :: spans)) None = Some s).
  { clear. revert s0. induction spans as [|s spans IH]; intros s0.
    - now exists s0.
    - destruct (IH s) as [s' Hs']. exists s'. exact Hs'. }
  destruct Hlast as [s ->].
  pose proof (length_sort marks) as Hs.
  destruct (sort marks) as [|first rest]; [rewrite Hm in Hs; discriminate Hs|].
  eexists. split; [reflexivity|].
  cbn [List.length] in *. rewrite length_chunks_after. lia.
Qed.

(** X5.  For a candidate of [k] spans, [get_text_splits] returns
    [2 k + 1] chunks when [1 <= k <= 191]; it ends with
    [UnboundLocalError] for a candidate without arguments (the loop
    variable [span] is read after a loop that never ran), and with the
    [ValueError] of [chr] from 192 spans on. *)
Theorem get_text_splits_chunks :
  forall spans : list Span,
    ((1 <= List.length spans <= 191)%nat ->
     exists chunks,
       get_text_splits (map ArgSpan spans) = Returned chunks
       /\ List.length chunks = (2 * List.length spans + 1)%nat)
    /\ (spans = [] ->
        get_text_splits (map ArgSpan spans) = Raised (UnboundLocalError "span"))
    /\ ((192 <= List.length spans)%nat ->
        get_text_splits (map ArgSpan spans)
        = Raised (ValueError "chr() arg not in range(256)")).
Proof.
  intros spans. repeat apply conj.
  - apply get_text_splits_length.
  - intros ->. reflexivity.
  - intros H. unfold get_text_splits.
    rewrite collect_too_many; [reflexivity|lia|lia].
Qed.

Lemma get_text_splits_chunks_witness :
  exists chunks,
    get_text_splits (map ArgSpan [Sample.span_b; Sample.span_d]) = Returned chunks
    /\ List.length chunks = (2 * 2 + 1)%nat.
Proof.
  apply (get_text_splits_chunks [Sample.span_b; Sample.span_d]). simpl. lia.
Defined.

(** X6.  On a candidate of spans, [get_text_between] returns a text
    exactly when the spans are two; for any other number of spans up to
    191 it raises "Only applicable to binary Candidates". *)
Theorem get_text_between_binary_only :
  forall spans : list Span,
    (List.length spans = 2%nat ->
     exists between, get_text_between (map ArgSpan spans) = Returned between)
    /\ ((1 <= List.length spans <= 191)%nat -> List.length spans <> 2%nat ->
        get_text_between (map ArgSpan spans)
        = Raised (ValueError "Only applicable to binary Candidates")).
Proof.
  intros spans. split.
  - intros H2.
    destruct (get_text_splits_length spans) as (chunks & Hc & Hlen); [lia|].
    unfold get_text_between. rewrite Hc. cbn [obind].
    rewrite H2 in Hlen.
    destruct chunks as [|c0 [|c1 [|c2 [|c3 [|c4 [|c5 chunks]]]]]];
      cbn in Hlen; try discriminate Hlen. eauto.
  - intros Hk Hne.
    destruct (get_text_splits_length spans Hk) as (chunks & Hc & Hlen).
    unfold get_text_between. rewrite Hc. cbn [obind].
    destruct chunks as [|c0 [|c1 [|c2 [|c3 [|c4 [|c5 chunks]]]]]];
      try reflexivity.
    cbn in Hlen. lia.
Qed.

Lemma get_text_between_binary_only_witness :
  get_text_between (map ArgSpan [Sample.span_b])
  = Raised (ValueError "Only applicable to binary Candidates").
Proof.
  apply (get_text_between_binary_only [Sample.span_b]); simpl; lia.
Defined.

Lemma get_text_splits_two s0 s1 :
  get_text_splits [ArgSpan s0; ArgSpan s1] =
  let m0 := (char_start s0, char_end s0, "A") in
  let m1 := (char_start s1, char_end s1, "B") in
  let text := text (parent s1) in
  if mark_leb m0 m1
  then Returned [Str.slice_to text (char_start s0); "{{A}}";
                 Str.slice text (char_end s0 + 1) (char_start s1); "{{B}}";
                 Str.slice_from text (char_end s1 + 1)]
  else Returned [Str.slice_to text (char_start s1); "{{B}}";
                 Str.slice text (char_end s1 + 1) (char_start s0); "{{A}}";
                 Str.slice_from text (char_end s0 + 1)].
Proof.
  unfold get_text_splits. cbn [collect].
  change (Str.chr (65 + 0)) with (@Returned string "A").
  cbn [obind]. change (Str.chr (65 + (0 + 1))) with (@Returned string "B").
  cbn [obind app fst snd]. unfold sort. cbn [fold_right insert].
  destruct (mark_leb _ _); reflexivity.
Qed.

(** X7.  Unlike [get_between_ngrams], [get_text_between] does not
    depend on the order of the two spans in the candidate: for two spans
    whose parents have the same text, both orders give the same text,
    the one between the span that comes first in the text and the
    other. *)
Theorem get_text_between_symmetric :
  forall s0 s1 : Span,
    text (parent s0) = text (parent s1) ->
    get_text_between [ArgSpan s0; ArgSpan s1]
    = get_text_between [ArgSpan s1; ArgSpan s0]
    /\ (char_start s0 < char_start s1 ->
        get_text_between [ArgSpan s0; ArgSpan s1]
        = Returned (Str.slice (text (parent s0)) (char_end s0 + 1) (char_start s1))).
Proof.
  intros s0 s1 Ht. unfold get_text_between. rewrite !get_text_splits_two.
  cbv zeta. rewrite Ht.
  unfold mark_leb, mark_start, mark_end, mark_letter. cbn [fst snd].
  split.
  - destruct (Z.ltb_spec (char_start s0) (char_start s1)),
      (Z.ltb_spec (char_start s1) (char_start s0)),
      (Z.ltb_spec (char_end s0) (char_end s1)),
      (Z.ltb_spec (char_end s1) (char_end s0)); try lia; cbn; try reflexivity.
    replace (char_start s1) with (char_start s0) by lia.
    replace (char_end s1) with (char_end s0) by lia. reflexivity.
  - intros Hlt. apply Z.ltb_lt in Hlt. rewrite Hlt. reflexivity.
Qed.

Lemma get_text_between_symmetric_witness :
  get_text_between [ArgSpan Sample.span_b; ArgSpan Sample.span_d]
  = get_text_between [ArgSpan Sample.span_d; ArgSpan Sample.span_b].
Proof.
  destruct (get_text_between_symmetric Sample.span_b Sample.span_d) as [H _];
    [reflexivity|exact H].
Defined.

Lemma string_of_list_ascii_app (a b : list ascii) :
  string_of_list_ascii (a ++ b) = (string_of_list_ascii a ++ string_of_list_ascii b)%string.
Proof. induction a as [|c a IH]; cbn; [reflexivity|now rewrite IH]. Qed.

Lemma length_list_ascii (s : string) :
  String.length s = List.length (list_ascii_of_string s).
Proof. induction s as [|c s IH]; cbn; [reflexivity|now rewrite IH]. Qed.

Lemma slices_partition {A : Type} (l : list A) (a b : Z) :
  0 <= a -> a <= b -> b <= Z.of_nat (List.length l) ->
  (Py.slice_to l a ++ Py.slice l a b ++ Py.slice_from l b)%list = l.
Proof.
  intros Ha Hab Hb. unfold Py.slice_to, Py.slice, Py.slice_from, Py.clamp.
  destruct (Z.ltb_spec a 0); [lia|]. destruct (Z.ltb_spec b 0); [lia|].
  rewrite !Z.min_l by lia.
  rewrite <- (firstn_skipn (Z.to_nat a) l) at 4. f_equal.
  rewrite <- (firstn_skipn (Z.to_nat (b - a)) (skipn (Z.to_nat a) l)) at 2. f_equal.
  rewrite skipn_skipn. f_equal. lia.
Qed.

(** X8.  For a candidate of one span that lies within the text of its
    parent, [get_text_splits] returns the text before the span, the tag
    [{{A}}] and the text after it, [get_tagged_text] their
    concatenation; putting the text of the span back in the place of the
    tag gives the text of the parent. *)
Theorem get_tagged_text_unary :
  forall s : Span,
    0 <= char_start s ->
    char_start s <= char_end s + 1 ->
    char_end s + 1 <= Py.len (text (parent s)) ->
    exists before_span after_span,
      get_text_splits [ArgSpan s] = Returned [before_span; "{{A}}"; after_span]
      /\ get_tagged_text [ArgSpan s]
         = Returned (before_span ++ "{{A}}" ++ after_span)%string
      /\ (before_span
          ++ Str.slice (text (parent s)) (char_start s) (char_end s + 1)
          ++ after_span)%string = text (parent s).
Proof.
  intros s H0 H1 H2.
  exists (Str.slice_to (text (parent s)) (char_start s)),
         (Str.slice_from (text (parent s)) (char_end s + 1)).
  repeat apply conj; try reflexivity.
  unfold Str.slice_to, Str.slice, Str.slice_from.
  rewrite <- !string_of_list_ascii_app.
  rewrite slices_partition; [apply string_of_list_ascii_of_string|lia|lia|].
  unfold Py.len in H2. now rewrite length_list_ascii in H2.
Qed.

Lemma get_tagged_text_unary_witness :
  exists before_span after_span,
    get_text_splits [ArgSpan Sample.span_d] = Returned [before_span; "{{A}}"; after_span]
    /\ get_tagged_text [ArgSpan Sample.span_d]
       = Returned (before_span ++ "{{A}}" ++ after_span)%string
    /\ (before_span ++ Str.slice "a b c d e" 6 7 ++ after_span)%string = "a b c d e".
Proof.
  apply (get_tagged_text_unary Sample.span_d); vm_compute; congruence.
Defined.

End TextSplitsMore.

(** ** lf_helpers.py: more on the directional helpers *)

Module DirectionalMore.
Import Directional DirectionalFacts.

(** The window of [get_left_ngrams]: the last [w] of the tokens before
    position [i]. *)
Lemma slice_left {A : Type} (l : list A) (i w : Z) :
  0 <= i -> 0 <= w ->
  Py.slice l (Z.max 0 (i - w)) i
  = skipn (Z.to_nat (i - w)) (firstn (Z.to_nat i) l).
Proof.
  intros Hi Hw. unfold Py.slice, Py.clamp.
  destruct (Z.ltb_spec (Z.max 0 (i - w)) 0); [lia|].
  destruct (Z.ltb_spec i 0); [lia|].
  rewrite skipn_firstn_comm.
  destruct (Z.le_gt_cases i (Z.of_nat (List.length l))) as [Hle|Hgt].
  - f_equal; [lia|f_equal; lia].
  - destruct (Z.le_gt_cases (Z.of_nat (List.length l)) (i - w)) as [Hout|Hin].
    + rewrite !skipn_all2 by lia. now rewrite !firstn_nil.
    + replace (Z.to_nat (Z.min (Z.max 0 (i - w)) (Z.of_nat (List.length l))))
        with (Z.to_nat (i - w)) by lia.
      rewrite !firstn_all2; [reflexivity| |]; rewrite length_skipn; lia.
Qed.

(** The window of [get_right_ngrams]: the first [w] of the tokens from
    position [i] on. *)
Lemma slice_right {A : Type} (l : list A) (i w : Z) :
  0 <= i -> 0 <= w ->
  Py.slice l i (i + w) = firstn (Z.to_nat w) (skipn (Z.to_nat i) l).
Proof.
  intros Hi Hw. unfold Py.slice, Py.clamp.
  destruct (Z.ltb_spec i 0); [lia|]. destruct (Z.ltb_spec (i + w) 0); [lia|].
  destruct (Z.le_gt_cases i (Z.of_nat (List.length l))) as [Hle|Hgt].
  - replace (Z.to_nat (Z.min i (Z.of_nat (List.length l)))) with (Z.to_nat i) by lia.
    destruct (Z.le_gt_cases (i + w) (Z.of_nat (List.length l))) as [Hle'|Hgt'].
    + f_equal. lia.
    + rewrite !firstn_all2; [reflexivity| |]; rewrite length_skipn; lia.
  - rewrite !skipn_all2 by lia. now rewrite !firstn_nil.
Qed.

(** X9.  For a span whose parent has the attribute, [get_left_ngrams]
    hands to the tokenizer the last [window] tokens before the span (all
    of them when there are fewer), and [get_right_ngrams] the first
    [window] tokens after it: no token of the span, none from the other
    side. *)
Theorem context_windows :
  forall (tokens_to_ngrams : list string -> Z -> Z -> bool -> list string)
         (span : Span) (window : Z) (attrib : string) (n_min n_max : Z)
         (lower : bool) (toks : list string),
    attribs (parent span) attrib = Some toks ->
    0 <= window ->
    (0 <= word_start span ->
     get_left_ngrams tokens_to_ngrams (TSpan span) window attrib n_min n_max lower
     = yield_all
         (tokens_to_ngrams
            (skipn (Z.to_nat (word_start span - window))
                   (firstn (Z.to_nat (word_start span)) toks))
            n_min n_max lower))
    /\ (0 <= word_end span + 1 ->
        get_right_ngrams tokens_to_ngrams (TSpan span) window attrib n_min n_max lower
        = yield_all
            (tokens_to_ngrams
               (firstn (Z.to_nat window) (skipn (Z.to_nat (word_end span + 1)) toks))
               n_min n_max lower)).
Proof.
  intros ttn span window attrib n_min n_max lower toks Ha Hw. split; intros Hi.
  - rewrite (get_left_ngrams_span _ _ _ _ _ _ _ _ Ha), slice_left by lia.
    reflexivity.
  - rewrite (get_right_ngrams_span _ _ _ _ _ _ _ _ Ha), slice_right by lia.
    reflexivity.
Qed.

Lemma context_windows_witness :
  get_left_ngrams SpecModel.tokens_to_ngrams (TSpan Sample.span_d) 2 "words" 1 1 true
  = yield_all (SpecModel.tokens_to_ngrams
                 (skipn (Z.to_nat (3 - 2))
                        (firstn (Z.to_nat 3) ["a"; "b"; "c"; "d"; "e"]))
                 1 1 true).
Proof.
  apply (context_windows SpecModel.tokens_to_ngrams Sample.span_d 2 "words" 1 1 true
           ["a"; "b"; "c"; "d"; "e"]); [reflexivity|lia|simpl; lia].
Defined.

(** X10.  Errors of the directional helpers, all raised before anything
    is yielded: [KeyError] when the parent does not have the attribute,
    from [get_left_ngrams], [get_right_ngrams] and [get_phrase_ngrams];
    [IndexError] for a candidate without arguments.  On a candidate
    [get_left_ngrams] reads its first span and [get_right_ngrams] its
    last. *)
Theorem directional_errors :
  forall (tokens_to_ngrams : list string -> Z -> Z -> bool -> list string)
         (window : Z) (attrib : string) (n_min n_max : Z) (lower : bool),
    (forall span,
        attribs (parent span) attrib = None ->
        get_left_ngrams tokens_to_ngrams (TSpan span) window attrib n_min n_max lower
          = raise (KeyError attrib)
        /\ get_right_ngrams tokens_to_ngrams (TSpan span) window attrib n_min n_max lower
          = raise (KeyError attrib)
        /\ get_phrase_ngrams tokens_to_ngrams (TSpan span) attrib n_min n_max lower
          = raise (KeyError attrib))
    /\ get_left_ngrams tokens_to_ngrams (TCandidate []) window attrib n_min n_max lower
       = raise (IndexError "tuple index out of range")
    /\ get_right_ngrams tokens_to_ngrams (TCandidate []) window attrib n_min n_max lower
       = raise (IndexError "tuple index out of range")
    /\ (forall first rest,
          get_left_ngrams tokens_to_ngrams (TCandidate (first :: rest))
                          window attrib n_min n_max lower
          = get_left_ngrams tokens_to_ngrams (TSpan first)
                            window attrib n_min n_max lower)
    /\ (forall rest last,
          get_right_ngrams tokens_to_ngrams (TCandidate (rest ++ [last]))
                           window attrib n_min n_max lower
          = get_right_ngrams tokens_to_ngrams (TSpan last)
                             window attrib n_min n_max lower).
Proof.
  intros ttn window attrib n_min n_max lower. repeat apply conj; try reflexivity.
  - intros span Ha.
    destruct (get_ngrams_missing_attrib ttn span window attrib n_min n_max lower Ha)
      as [Hr Hl].
    repeat apply conj; [exact Hl|exact Hr|].
    unfold get_phrase_ngrams, for_in. cbn [spans_of for_each].
    now rewrite (proj2 (get_ngrams_missing_attrib ttn span 100 attrib n_min n_max lower Ha)).
  - intros rest last. unfold get_right_ngrams, last_span.
    rewrite rev_unit. reflexivity.
Qed.

Lemma directional_errors_witness :
  get_left_ngrams SpecModel.tokens_to_ngrams (TSpan Sample.span_d) 3 "lemmas" 1 1 true
  = raise (KeyError "lemmas").
Proof.
  apply (directional_errors SpecModel.tokens_to_ngrams 3 "lemmas" 1 1 true).
  reflexivity.
Defined.

(** X11.  [get_phrase_ngrams] on a span yields the n-grams of the
    (up to 100) tokens before the span, then those of the (up to 100)
    tokens after it; when the span has at most 100 tokens on either
    side, these are all the tokens of the phrase outside the span. *)
Theorem get_phrase_ngrams_span :
  forall (tokens_to_ngrams : list string -> Z -> Z -> bool -> list string)
         (span : Span) (attrib : string) (n_min n_max : Z) (lower : bool)
         (toks : list string),
    attribs (parent span) attrib = Some toks ->
    0 <= word_start span -> 0 <= word_end span + 1 ->
    get_phrase_ngrams tokens_to_ngrams (TSpan span) attrib n_min n_max lower
    = yield_all
        (tokens_to_ngrams
           (skipn (Z.to_nat (word_start span - 100))
                  (firstn (Z.to_nat (word_start span)) toks))
           n_min n_max lower
         ++ tokens_to_ngrams
              (firstn 100 (skipn (Z.to_nat (word_end span + 1)) toks))
              n_min n_max lower)%list
    /\ (word_start span <= 100 ->
        Z.of_nat (List.length toks) <= word_end span + 101 ->
        get_phrase_ngrams tokens_to_ngrams (TSpan span) attrib n_min n_max lower
        = yield_all
            (tokens_to_ngrams (firstn (Z.to_nat (word_start span)) toks)
                              n_min n_max lower
             ++ tokens_to_ngrams (skipn (Z.to_nat (word_end span + 1)) toks)
                                 n_min n_max lower)%list).
Proof.
  intros ttn span attrib n_min n_max lower toks Ha Hs He.
  assert (Hgen :
    get_phrase_ngrams ttn (TSpan span) attrib n_min n_max lower
    = yield_all
        (ttn (skipn (Z.to_nat (word_start span - 100))
                    (firstn (Z.to_nat (word_start span)) toks)) n_min n_max lower
         ++ ttn (firstn 100 (skipn (Z.to_nat (word_end span + 1)) toks))
                n_min n_max lower)%list).
  { unfold get_phrase_ngrams, for_in. cbn [spans_of for_each].
    rewrite (get_left_ngrams_span _ _ _ _ _ _ _ _ Ha), slice_left by lia.
    rewrite (get_right_ngrams_span _ _ _ _ _ _ _ _ Ha), slice_right by lia.
    unfold yield_all, Gen.bind, ret. cbn.
    now rewrite app_nil_r. }
  split; [exact Hgen|].
  intros Hs' He'. rewrite Hgen.
  replace (Z.to_nat (word_start span - 100)) with 0%nat by lia.
  rewrite (firstn_all2 (n := 100) (skipn (Z.to_nat (word_end span + 1)) toks))
    by (rewrite length_skipn; lia).
  reflexivity.
Qed.

Lemma get_phrase_ngrams_span_witness :
  get_phrase_ngrams SpecModel.tokens_to_ngrams (TSpan Sample.span_d) "words" 1 1 true
  = yield_all
      (SpecModel.tokens_to_ngrams (firstn (Z.to_nat 3) ["a"; "b"; "c"; "d"; "e"]) 1 1 true
       ++ SpecModel.tokens_to_ngrams (skipn (Z.to_nat (3 + 1)) ["a"; "b"; "c"; "d"; "e"])
            1 1 true)%list.
Proof.
  apply (get_phrase_ngrams_span SpecModel.tokens_to_ngrams Sample.span_d "words" 1 1 true
           ["a"; "b"; "c"; "d"; "e"]); try reflexivity; simpl; lia.
Defined.

(** X12.  When the first span of a binary candidate is one token wide
    and starts before the second, [get_between_ngrams] hands to the
    tokenizer exactly the tokens strictly between the two spans. *)
Theorem get_between_ngrams_gap :
  forall (tokens_to_ngrams : list string -> Z -> Z -> bool -> list string)
         (span0 span1 : Span) (attrib : string) (n_min n_max : Z) (lower : bool)
         (toks : list string),
    same_phrase_obj (parent span0) (parent span1) = true ->
    attribs (parent span0) attrib = Some toks ->
    0 <= word_start span0 ->
    word_end span0 = word_start span0 ->
    word_start span0 < word_start span1 ->
    get_between_ngrams tokens_to_ngrams [span0; span1] attrib n_min n_max lower
    = yield_all
        (tokens_to_ngrams
           (firstn (Z.to_nat (word_start span1 - word_end span0 - 1))
                   (skipn (Z.to_nat (word_end span0 + 1)) toks))
           n_min n_max lower).
Proof.
  intros ttn span0 span1 attrib n_min n_max lower toks Hp Ha H0 Hw Hlt.
  rewrite (get_between_ngrams_forward_unit ttn span0 span1 attrib n_min n_max lower
             toks Hp Ha Hlt Hw).
  replace (word_start span1)
    with (word_end span0 + 1 + (word_start span1 - word_end span0 - 1)) at 1 by lia.
  rewrite slice_right by lia. reflexivity.
Qed.

Lemma get_between_ngrams_gap_witness :
  get_between_ngrams SpecModel.tokens_to_ngrams [Sample.span_b; Sample.span_d]
                     "words" 1 1 true
  = yield_all
      (SpecModel.tokens_to_ngrams
         (firstn (Z.to_nat (3 - 1 - 1)) (skipn (Z.to_nat (1 + 1)) ["a"; "b"; "c"; "d"; "e"]))
         1 1 true).
Proof.
  apply (get_between_ngrams_gap SpecModel.tokens_to_ngrams Sample.span_b Sample.span_d
           "words" 1 1 true ["a"; "b"; "c"; "d"; "e"]); try reflexivity; simpl; lia.
Defined.

End DirectionalMore.

(** ** lf_helpers.py: membership tests and the [same_*] predicates *)

Module PredicatesFacts.
Import Predicates.

Lemma same_object_some a y : same_object (Some a) y = true <-> y = Some a.
Proof.
  destruct y as [b|]; cbn; [|split; discriminate].
  rewrite Nat.eqb_eq. split; [now intros ->|now intros [= ->]].
Qed.

Lemma same_on_true key c :
  same_on key c = true <->
  c = [] \/ exists k, Forall (fun span => key (parent span) = Some k) c.
Proof.
  destruct c as [|span0 rest]; [cbn; tauto|].
  unfold same_on. rewrite forallb_forall. split.
  - intros H. right.
    destruct (key (parent span0)) as [k|] eqn:Hk.
    + exists k. apply Forall_forall. intros span Hin. specialize (H span Hin).
      destruct (key (parent span)) as [k'|] eqn:Hk'; [|discriminate].
      apply same_object_some in H.
      destruct Hin as [<-|Hin]; congruence.
    + specialize (H span0 (or_introl eq_refl)). rewrite Hk in H. discriminate.
  - intros [Hnil|[k Hall]]; [discriminate|].
    rewrite Forall_forall in Hall. intros span Hin.
    rewrite (Hall span Hin), (Hall span0 (or_introl eq_refl)).
    cbn. apply Nat.eqb_refl.
Qed.

Lemma same_on_permutation key c c' :
  Permutation c c' -> same_on key c = same_on key c'.
Proof.
  intros Hp.
  assert (H : same_on key c = true <-> same_on key c' = true).
  { rewrite !same_on_true. split.
    - intros [->|[k Hk]].
      + left. now apply Permutation_nil.
      + right. exists k. now apply (Permutation_Forall Hp).
    - intros [->|[k Hk]].
      + left. apply Permutation_nil. now symmetry.
      + right. exists k. apply (Permutation_Forall (Permutation_sym Hp)), Hk. }
  destruct (same_on key c), (same_on key c'); try reflexivity.
  - symmetry. now apply H.
  - now apply H.
Qed.

(** X13.  [same_document], [same_table], [same_cell] and [same_phrase]
    are true exactly when the candidate has no span or when all its
    spans have one and the same document (table, cell, parent), none
    being without; hence the order of the spans in the candidate does
    not matter. *)
Theorem same_predicates :
  forall (document_of table_of : Phrase -> option nat)
         (cell_of : Phrase -> option Cell) (c : list Span),
    (same_document document_of c = true <->
     c = [] \/ exists d, Forall (fun span => document_of (parent span) = Some d) c)
    /\ (same_table table_of c = true <->
        c = [] \/ exists t, Forall (fun span => table_of (parent span) = Some t) c)
    /\ (same_cell cell_of c = true <->
        c = [] \/ exists k,
                    Forall (fun span => option_map cell_id (cell_of (parent span)) = Some k) c)
    /\ (same_phrase c = true <->
        c = [] \/ exists p, Forall (fun span => phrase_id (parent span) = p) c)
    /\ (forall c',
          Permutation c c' ->
          same_document document_of c = same_document document_of c'
          /\ same_table table_of c = same_table table_of c'
          /\ same_cell cell_of c = same_cell cell_of c'
          /\ same_phrase c = same_phrase c').
Proof.
  intros document_of table_of cell_of c.
  unfold same_document, same_table, same_cell, same_phrase.
  split; [apply same_on_true|]. split; [apply same_on_true|].
  split; [apply same_on_true|]. split.
  - rewrite same_on_true. split; (intros [H|[p H]]; [now left|right; exists p]);
      (eapply Forall_impl; [|exact H]); cbn; intros span Hs; congruence.
  - intros c' Hp. split; [|split; [|split]]; now apply same_on_permutation.
Qed.

Lemma same_predicates_witness :
  same_phrase [Sample.span_b; Sample.span_d] = same_phrase [Sample.span_d; Sample.span_b].
Proof.
  destruct (same_predicates (fun _ => None) (fun _ => None) Sample.cell_of
              [Sample.span_b; Sample.span_d]) as (_ & _ & _ & _ & H).
  apply (H [Sample.span_d; Sample.span_b]). apply perm_swap.
Defined.

(** X14.  [same_phrase] is the guard of [get_between_ngrams]: on a
    candidate of two spans, [get_between_ngrams] raises no [ValueError]
    exactly when [same_phrase] is true. *)
Theorem same_phrase_guards_between :
  forall (tokens_to_ngrams : list string -> Z -> Z -> bool -> list string)
         (c : list Span) (attrib : string) (n_min n_max : Z) (lower : bool),
    List.length c = 2%nat ->
    (same_phrase c = true <->
     is_ValueError
       (ending (Directional.get_between_ngrams tokens_to_ngrams c
                                               attrib n_min n_max lower))
     = false).
Proof.
  intros ttn c attrib n_min n_max lower Hlen.
  destruct c as [|s0 [|s1 [|s2 c]]]; try discriminate Hlen.
  unfold same_phrase, same_on. cbn [forallb same_object].
  rewrite Nat.eqb_refl, andb_true_r. cbn [andb].
  destruct (same_phrase_obj (parent s0) (parent s1)) eqn:Hp.
  - rewrite (DirectionalFacts.get_between_ngrams_no_ValueError ttn s0 s1 _ _ _ _ Hp).
    unfold same_phrase_obj in Hp. rewrite Nat.eqb_sym, Hp. tauto.
  - unfold Directional.get_between_ngrams. rewrite Hp. cbn.
    unfold same_phrase_obj in Hp. rewrite Nat.eqb_sym, Hp.
    split; discriminate.
Qed.

Lemma same_phrase_guards_between_witness :
  same_phrase [Sample.span_b; Sample.span_x] = true <->
  is_ValueError
    (ending (Directional.get_between_ngrams SpecModel.tokens_to_ngrams
               [Sample.span_b; Sample.span_x] "words" 1 1 true)) = false.
Proof.
  apply (same_phrase_guards_between SpecModel.tokens_to_ngrams
           [Sample.span_b; Sample.span_x] "words" 1 1 true).
  reflexivity.
Defined.

(** X15.  [contains_token] is true exactly when a token of one of the
    spans is the searched token, both taken in lower case when [lower]
    is on; a match with [lower] off is a match with [lower] on; a
    candidate without spans contains nothing. *)
Theorem contains_token_spec :
  forall (get_attrib_tokens : Span -> string -> list string)
         (c : Target) (tok attrib : string),
    (forall lower,
        contains_token get_attrib_tokens c tok attrib lower = true <->
        exists span w,
          In span (spans_of c) /\ In w (get_attrib_tokens span attrib)
          /\ (if lower then Str.lower w = Str.lower tok else w = tok))
    /\ (contains_token get_attrib_tokens c tok attrib false = true ->
        contains_token get_attrib_tokens c tok attrib true = true)
    /\ (forall lower,
          contains_token get_attrib_tokens (TCandidate []) tok attrib lower = false).
Proof.
  intros gat c tok attrib.
  assert (Hspec : forall lower,
    contains_token gat c tok attrib lower = true <->
    exists span w,
      In span (spans_of c) /\ In w (gat span attrib)
      /\ (if lower then Str.lower w = Str.lower tok else w = tok)).
  { intros lower. unfold contains_token. rewrite existsb_exists. split.
    - intros (x & Hin & Heq). apply String.eqb_eq in Heq.
      apply in_flat_map in Hin. destruct Hin as (span & Hspan & Hx).
      apply in_map_iff in Hx. destruct Hx as (w & <- & Hw).
      exists span, w. destruct lower; auto.
    - intros (span & w & Hspan & Hw & Heq).
      exists ((if lower then Str.lower else fun w0 => w0) w). split.
      + apply in_flat_map. exists span. split; [exact Hspan|].
        now apply in_map.
      + apply String.eqb_eq. destruct lower; auto. }
  repeat apply conj.
  - exact Hspec.
  - intros H. apply (Hspec false) in H. destruct H as (span & w & Hs & Hw & ->).
    apply (Hspec true). exists span, tok. auto.
  - intros lower. destruct lower; reflexivity.
Qed.

Lemma contains_token_spec_witness :
  contains_token (fun span attrib => ["Total"]) (TSpan Sample.span_d) "Total" "words" true
  = true.
Proof.
  apply (contains_token_spec (fun span attrib => ["Total"]) (TSpan Sample.span_d)
           "Total" "words").
  reflexivity.
Defined.

(** X16.  [same_row] and [same_col] never return [True] for a candidate
    that has a span: they end with [NameError] as soon as the parent of
    a span has a table, the names [is_row_aligned] and [is_col_aligned]
    being unknown to the module, and return [False] when no parent has
    one. *)
Theorem same_row_col_fail :
  forall (table_of : Phrase -> option nat) (c : list Span),
    (existsb (fun span => match table_of (parent span) with
                          | Some _ => true
                          | None => false
                          end) c = true ->
     same_row table_of c = NameError "is_row_aligned"
     /\ same_col table_of c = NameError "is_col_aligned")
    /\ (c <> [] ->
        existsb (fun span => match table_of (parent span) with
                             | Some _ => true
                             | None => false
                             end) c = false ->
        same_row table_of c = Value false /\ same_col table_of c = Value false).
Proof.
  intros table_of c. unfold same_row, same_col.
  assert (H : forall name,
    (existsb (fun span => match table_of (parent span) with
                          | Some _ => true | None => false end) c = true ->
     same_aligned table_of name c = NameError name)
    /\ (c <> [] ->
        existsb (fun span => match table_of (parent span) with
                             | Some _ => true | None => false end) c = false ->
        same_aligned table_of name c = Value false)).
  { intros name. induction c as [|span rest [IHt IHf]];
      cbn [existsb same_aligned].
    - split; [discriminate|contradiction].
    - destruct (table_of (parent span)); cbn [orb].
      + split; [reflexivity|discriminate].
      + split.
        * intros Ht. now rewrite (IHt Ht).
        * intros _ Hf. destruct rest as [|span' rest']; [reflexivity|].
          rewrite IHf; [reflexivity|discriminate|exact Hf]. }
  split.
  - intros Ht. split; now apply H.
  - intros Hne Hf. split; now apply H.
Qed.

Lemma same_row_col_fail_witness :
  same_row (fun _ => Some 7%nat) [Sample.span_total] = NameError "is_row_aligned".
Proof.
  apply (same_row_col_fail (fun _ => Some 7%nat) [Sample.span_total]). reflexivity.
Defined.

(** X17.  [overlap] is true exactly when the two sequences have an
    element in common, and does not depend on the order of its
    arguments. *)
Theorem overlap_spec :
  forall A B : list string,
    (overlap A B = true <-> exists x, In x A /\ In x B)
    /\ overlap A B = overlap B A.
Proof.
  assert (Hspec : forall A B, overlap A B = true <-> exists x, In x A /\ In x B).
  { intros A B. unfold overlap. rewrite existsb_exists. split.
    - intros (a & Ha & Hb). apply existsb_exists in Hb.
      destruct Hb as (b & Hb & Heq). apply String.eqb_eq in Heq. subst b. eauto.
    - intros (x & Ha & Hb). exists x. split; [exact Ha|].
      apply existsb_exists. exists x. split; [exact Hb|apply String.eqb_refl]. }
  intros A B. split; [apply Hspec|].
  destruct (overlap A B) eqn:HAB, (overlap B A) eqn:HBA; try reflexivity.
  - apply Hspec in HAB. destruct HAB as (x & Ha & Hb).
    rewrite <- HBA. symmetry. apply Hspec. eauto.
  - apply Hspec in HBA. destruct HBA as (x & Hb & Ha).
    rewrite <- HAB. apply Hspec. eauto.
Qed.

End PredicatesFacts.

(** ** lf_helpers.py: more on cell inference *)

Module InferMore.
Import Infer InferFacts.

Lemma infer_direct_only cells root_cell axis :
  _infer_cell cells root_cell axis true false = Returned (RealCell root_cell).
Proof. rewrite _infer_cell_unfold. cbn. now rewrite orb_true_r. Qed.

(** X18.  The modes of [_infer_cell].  With [direct] on and [infer] off
    it returns the cell it was given.  With [direct] on it never returns
    a phantom cell, and the only way it fails is [IndexError], with
    [infer] on, when an empty cell away from the edge has no preceding
    cell.  With [direct] off the value of [infer] is not read. *)
Theorem infer_cell_modes :
  forall cells root_cell axis infer,
    _infer_cell cells root_cell axis true false = Returned (RealCell root_cell)
    /\ (forall ps, _infer_cell cells root_cell axis true infer
                   <> Returned (PhantomCell ps))
    /\ (forall e, _infer_cell cells root_cell axis true infer = Raised e ->
                  e = IndexError "list index out of range" /\ infer = true)
    /\ _infer_cell cells root_cell axis false infer
       = _infer_cell cells root_cell axis false true.
Proof.
  intros cells root_cell axis infer.
  pose proof (infer_direct cells axis infer _ root_cell (Nat.lt_succ_diag_r _)) as H.
  repeat apply conj.
  - rewrite _infer_cell_unfold. cbn. now rewrite orb_true_r.
  - intros ps Hps. rewrite Hps in H. exact H.
  - intros e He. rewrite He in H. exact H.
  - rewrite !_infer_cell_unfold. reflexivity.
Qed.



(** X20.  Inference is idempotent: the cell returned with [direct] and
    [infer] on is returned unchanged when inferred from again. *)
Theorem infer_cell_idempotent :
  forall cells root_cell axis c,
    _infer_cell cells root_cell axis true true = Returned (RealCell c) ->
    _infer_cell cells c axis true true = Returned (RealCell c).
Proof.
  intros cells root_cell axis c Hc.
  pose proof (infer_direct cells axis true _ root_cell (Nat.lt_succ_diag_r _)) as H.
  rewrite Hc in H. destruct H as (_ & _ & _ & Hne).
  rewrite _infer_cell_unfold. cbn [andb].
  destruct (Hne eq_refl) as [-> | ->]; cbn; [reflexivity|].
  now rewrite orb_true_r.
Qed.

Lemma infer_cell_idempotent_witness :
  _infer_cell Sample.table Sample.cell_01 Col true true
  = Returned (RealCell Sample.cell_01).
Proof.
  apply (infer_cell_idempotent Sample.table Sample.cell_11 Col Sample.cell_01).
  reflexivity.
Defined.

End InferMore.

(** ** More on traces *)

Lemma bind_ret_unit {Y : Type} (g : gen Y unit) :
  Gen.bind g (fun _ => ret tt) = g.
Proof. destruct g as [ys [[]|e]]; cbn; [now rewrite app_nil_r|reflexivity]. Qed.

Lemma bind_ret {Y R : Type} (g : gen Y R) :
  Gen.bind g (fun r => ret r) = g.
Proof. destruct g as [ys [r|e]]; cbn; [now rewrite app_nil_r|reflexivity]. Qed.

Lemma yield_each_bind {X Y R S : Type} (h : X -> Y) (g : gen X R) (k : R -> gen X S) :
  yield_each h (Gen.bind g k)
  = Gen.bind (yield_each h g) (fun r => yield_each h (k r)).
Proof.
  destruct g as [ys [r|e]]; [|reflexivity].
  unfold yield_each, Gen.bind. cbn [fst snd].
  destruct (k r) as [zs o]. cbn [fst snd]. now rewrite map_app.
Qed.

Lemma bind_assoc {Y R S T : Type} (g : gen Y R) (k : R -> gen Y S) (k' : S -> gen Y T) :
  Gen.bind (Gen.bind g k) k' = Gen.bind g (fun r => Gen.bind (k r) k').
Proof.
  destruct g as [ys [r|e]]; cbn; [|reflexivity].
  destruct (k r) as [zs [s|e]]; cbn; [|reflexivity].
  destruct (k' s) as [ws o]. now rewrite app_assoc.
Qed.

Lemma bind_ret_left {Y R S : Type} (r : R) (k : R -> gen Y S) :
  Gen.bind (ret r) k = k r.
Proof. unfold Gen.bind, ret. destruct (k r). reflexivity. Qed.

Lemma bind_raised {Y R S : Type} (ys : list Y) (e : exn) (k : R -> gen Y S) :
  Gen.bind (ys, Raised e) k = (ys, Raised e).
Proof. reflexivity. Qed.

Lemma get_phrase_ngrams_one ttn span attrib n_min n_max lower :
  Directional.get_phrase_ngrams ttn (TSpan span) attrib n_min n_max lower
  = (Directional.get_left_ngrams ttn (TSpan span) 100 attrib n_min n_max lower ;;;
     Directional.get_right_ngrams ttn (TSpan span) 100 attrib n_min n_max lower)%gen.
Proof.
  unfold Directional.get_phrase_ngrams, for_in. cbn [spans_of for_each].
  apply bind_ret.
Qed.

Lemma get_phrase_ngrams_spans ttn c attrib n_min n_max lower :
  Directional.get_phrase_ngrams ttn c attrib n_min n_max lower
  = for_in (spans_of c)
      (fun span => Directional.get_phrase_ngrams ttn (TSpan span)
                                                 attrib n_min n_max lower).
Proof.
  unfold Directional.get_phrase_ngrams at 1. apply for_in_ext.
  intros span _. now rewrite get_phrase_ngrams_one.
Qed.

(** ** lf_helpers.py: more on the tabular helpers *)

Module TabularMore.
Import Infer InferFacts Tabular TabularTerms TabularFacts NeighborFacts.

Lemma aligned_phrases_in_direct is_axis_aligned table cells root_phrase axis :
  aligned_phrases_in is_axis_aligned table cells root_phrase axis true false
  = Returned
      (flat_map
         (fun cell =>
            if is_axis_aligned root_phrase cell axis
            then filter (fun phrase => negb (same_phrase_obj phrase root_phrase))
                        (cell_phrases cell)
            else [])
         cells).
Proof.
  induction cells as [|cell rest IH]; cbn [aligned_phrases_in flat_map];
    [reflexivity|].
  rewrite IH. destruct (is_axis_aligned root_phrase cell axis); [|reflexivity].
  rewrite (InferMore.infer_direct_only table cell (_other_axis axis)).
  reflexivity.
Qed.

Lemma aligned_phrases_in_others is_axis_aligned table cells root_phrase axis
    direct infer :
  forall aligned,
    aligned_phrases_in is_axis_aligned table cells root_phrase axis direct infer
      = Returned aligned ->
    Forall (fun phrase => same_phrase_obj phrase root_phrase = false) aligned.
Proof.
  induction cells as [|cell rest IH]; intros aligned; cbn [aligned_phrases_in].
  - intros [= <-]. constructor.
  - destruct (is_axis_aligned root_phrase cell axis); [|apply IH].
    destruct (_infer_cell table cell (_other_axis axis) direct infer)
      as [inferred|e]; cbn [obind]; [|discriminate].
    destruct (aligned_phrases_in is_axis_aligned table rest root_phrase axis direct infer)
      as [tail|e]; cbn [obind]; [|discriminate].
    intros [= <-]. apply Forall_app. split; [|now apply IH].
    apply Forall_forall. intros phrase Hin. apply filter_In in Hin.
    now apply negb_true_iff.
Qed.

(** X21.  [_get_aligned_phrases] never returns the phrase it was given.
    With its defaults ([direct=True], [infer=False]) it cannot fail once
    the phrase has a table, and returns, in the order of the cells of the
    table, the phrases of the aligned cells other than the given one;
    without a table it ends with [AttributeError]. *)
Theorem get_aligned_phrases_direct :
  forall (is_axis_aligned : Phrase -> Cell -> Axis -> bool)
         (table_cells_of : Phrase -> option (list Cell))
         (root_phrase : Phrase) (axis : Axis),
    (forall direct infer aligned,
        _get_aligned_phrases is_axis_aligned table_cells_of root_phrase axis direct infer
          = Returned aligned ->
        Forall (fun phrase => same_phrase_obj phrase root_phrase = false) aligned)
    /\ (forall cells,
          table_cells_of root_phrase = Some cells ->
          _get_aligned_phrases is_axis_aligned table_cells_of root_phrase axis true false
          = Returned
              (flat_map
                 (fun cell =>
                    if is_axis_aligned root_phrase cell axis
                    then filter (fun phrase => negb (same_phrase_obj phrase root_phrase))
                                (cell_phrases cell)
                    else [])
                 cells))
    /\ (table_cells_of root_phrase = None ->
        forall direct infer,
          _get_aligned_phrases is_axis_aligned table_cells_of root_phrase axis direct infer
          = Raised (AttributeError "'NoneType' object has no attribute 'cells'")).
Proof.
  intros aligned cells_of root_phrase axis. unfold _get_aligned_phrases.
  repeat apply conj.
  - intros direct infer al. destruct (cells_of root_phrase) as [cells|];
      [apply aligned_phrases_in_others|discriminate].
  - intros cells ->. apply aligned_phrases_in_direct.
  - intros ->. reflexivity.
Qed.

Lemma get_aligned_phrases_direct_witness :
  _get_aligned_phrases Sample.is_axis_aligned Sample.table_cells_of
                       Sample.net Row true false
  = Returned
      (flat_map
         (fun cell =>
            if Sample.is_axis_aligned Sample.net cell Row
            then filter (fun phrase => negb (same_phrase_obj phrase Sample.net))
                        (cell_phrases cell)
            else [])
         Sample.table).
Proof.
  apply (get_aligned_phrases_direct Sample.is_axis_aligned Sample.table_cells_of
           Sample.net Row).
  reflexivity.
Defined.

Lemma _get_axis_ngrams_without_cell ttn is_axis_aligned cell_of table_cells_of
    span axis direct infer attrib n_min n_max lower :
  cell_of (parent span) = None ->
  _get_axis_ngrams ttn is_axis_aligned cell_of table_cells_of
                   span axis direct infer attrib n_min n_max lower
  = Directional.get_phrase_ngrams ttn (TSpan span) attrib n_min n_max lower.
Proof.
  intros H. unfold _get_axis_ngrams. rewrite H. apply bind_ret_unit.
Qed.

Lemma neighbor_span_step_unpositioned ttn is_axis_aligned min_row_diff min_col_diff
    cell_of table_cells_of dist directions attrib n_min n_max lower phrase_var span :
  positioned span = false ->
  neighbor_span_step ttn is_axis_aligned min_row_diff min_col_diff
                     cell_of table_cells_of
                     dist directions attrib n_min n_max lower phrase_var span
  = Gen.bind
      (yield_each Plain
         (Directional.get_phrase_ngrams ttn (TSpan span) attrib n_min n_max lower))
      (fun _ => ret phrase_var).
Proof.
  intros Hpos. unfold neighbor_span_step. unfold positioned in Hpos.
  destruct (row_start (parent span));
    [destruct (col_start (parent span)); [discriminate Hpos|]|]; reflexivity.
Qed.

Lemma neighbor_loop_unpositioned ttn is_axis_aligned min_row_diff min_col_diff
    cell_of table_cells_of dist directions attrib n_min n_max lower spans :
  forallb (fun span => negb (positioned span)) spans = true ->
  for_each spans None
    (neighbor_span_step ttn is_axis_aligned min_row_diff min_col_diff
                        cell_of table_cells_of
                        dist directions attrib n_min n_max lower)
  = Gen.bind
      (yield_each Plain
         (for_in spans
            (fun span => Directional.get_phrase_ngrams ttn (TSpan span)
                                                       attrib n_min n_max lower)))
      (fun _ => ret None).
Proof.
  induction spans as [|span spans IH]; cbn [forallb]; intros H; [reflexivity|].
  apply andb_prop in H. destruct H as [Hs Hrest]. apply negb_true_iff in Hs.
  unfold for_in in *. cbn [for_each].
  rewrite (neighbor_span_step_unpositioned _ _ _ _ _ _ _ _ _ _ _ _ _ _ Hs).
  rewrite yield_each_bind, !bind_assoc. apply bind_ext. intros [].
  rewrite bind_ret_left. exact (IH Hrest).
Qed.

(** X22.  Outside tables the tabular helpers fall back on the phrase of
    the span, with no error of their own: when no span of [c] has a
    cell, [get_row_ngrams] and [get_col_ngrams] are [get_phrase_ngrams];
    when no span of [c] has both a row and a column,
    [get_neighbor_cell_ngrams] yields what [get_phrase_ngrams] yields and
    ends as it ends. *)
Theorem tabular_helpers_outside_tables :
  forall (tokens_to_ngrams : list string -> Z -> Z -> bool -> list string)
         (is_axis_aligned : Phrase -> Cell -> Axis -> bool)
         (min_row_diff min_col_diff : Phrase -> option Cell -> Z)
         (cell_of : Phrase -> option Cell)
         (table_cells_of : Phrase -> option (list Cell))
         (c : Target) (attrib : string) (n_min n_max : Z) (lower : bool),
    (forallb (fun span => match cell_of (parent span) with
                          | None => true
                          | Some _ => false
                          end) (spans_of c) = true ->
     forall direct infer,
       get_row_ngrams tokens_to_ngrams is_axis_aligned cell_of table_cells_of
                      c direct infer attrib n_min n_max lower
       = Directional.get_phrase_ngrams tokens_to_ngrams c attrib n_min n_max lower
       /\ get_col_ngrams tokens_to_ngrams is_axis_aligned cell_of table_cells_of
                         c direct infer attrib n_min n_max lower
          = Directional.get_phrase_ngrams tokens_to_ngrams c attrib n_min n_max lower)
    /\ (forallb (fun span => negb (positioned span)) (spans_of c) = true ->
        forall dist directions,
          get_neighbor_cell_ngrams tokens_to_ngrams is_axis_aligned
            min_row_diff min_col_diff cell_of table_cells_of
            c dist directions attrib n_min n_max lower
          = yield_each Plain
              (Directional.get_phrase_ngrams tokens_to_ngrams c attrib n_min n_max lower)).
Proof.
  intros ttn aligned mrd mcd cell_of cells_of c attrib n_min n_max lower. split.
  - intros H direct infer. rewrite forallb_forall in H.
    rewrite get_phrase_ngrams_spans. unfold get_row_ngrams, get_col_ngrams.
    split; apply for_in_ext; intros span Hin;
      apply _get_axis_ngrams_without_cell;
      specialize (H span Hin); destruct (cell_of (parent span));
      [discriminate|reflexivity|discriminate|reflexivity].
  - intros H dist directions. unfold get_neighbor_cell_ngrams.
    rewrite (neighbor_loop_unpositioned ttn aligned mrd mcd cell_of cells_of
               dist directions attrib n_min n_max lower (spans_of c) H).
    rewrite get_phrase_ngrams_spans.
    destruct (yield_each Plain _) as [ys [[]|e]]; cbn; [|reflexivity].
    now rewrite !app_nil_r.
Qed.

Lemma tabular_helpers_outside_tables_witness :
  get_neighbor_cell_ngrams SpecModel.tokens_to_ngrams Sample.is_axis_aligned
    Sample.min_row_diff Sample.min_col_diff Sample.cell_of Sample.table_cells_of
    (TSpan Sample.span_d) 1 true "words" 1 1 true
  = yield_each Plain
      (Directional.get_phrase_ngrams SpecModel.tokens_to_ngrams (TSpan Sample.span_d)
                                     "words" 1 1 true).
Proof.
  apply (tabular_helpers_outside_tables SpecModel.tokens_to_ngrams
           Sample.is_axis_aligned Sample.min_row_diff Sample.min_col_diff
           Sample.cell_of Sample.table_cells_of (TSpan Sample.span_d) "words" 1 1 true).
  reflexivity.
Defined.

Lemma neighbor_span_step_unbound ttn is_axis_aligned min_row_diff min_col_diff
    cell_of table_cells_of dist directions attrib n_min n_max lower span :
  neighbor_span_step ttn is_axis_aligned min_row_diff min_col_diff
                     cell_of table_cells_of
                     dist directions attrib n_min n_max lower None span
  = Gen.bind
      (yield_each Plain
         (Directional.get_phrase_ngrams ttn (TSpan span) attrib n_min n_max lower))
      (fun _ => if positioned span
                then raise (UnboundLocalError "phrase")
                else ret None).
Proof.
  unfold neighbor_span_step, positioned.
  destruct (row_start (parent span)); [destruct (col_start (parent span))|];
    reflexivity.
Qed.

Lemma neighbor_loop_plain ttn is_axis_aligned min_row_diff min_col_diff
    cell_of table_cells_of dist directions attrib n_min n_max lower spans :
  let g := for_each spans None
             (neighbor_span_step ttn is_axis_aligned min_row_diff min_col_diff
                                 cell_of table_cells_of
                                 dist directions attrib n_min n_max lower) in
  Forall (fun item => exists ngram, item = Plain ngram) (yielded g)
  /\ (existsb positioned spans = true -> exists e, ending g = Raised e).
Proof.
  induction spans as [|span spans [IHy IHe]]; cbn [for_each existsb].
  - split; [constructor|discriminate].
  - rewrite neighbor_span_step_unbound.
    destruct (Directional.get_phrase_ngrams ttn (TSpan span) attrib n_min n_max lower)
      as [ys [[]|e]].
    + destruct (positioned span); cbn [orb].
      * split; [|intros _; eexists; reflexivity].
        cbn. rewrite app_nil_r. apply Forall_map, Forall_forall. eauto.
      * unfold yield_each, Gen.bind, ret, yielded, ending in *.
        cbn [fst snd app] in *.
        destruct (for_each spans None _) as [zs o].
        cbn [fst snd] in *. rewrite app_nil_r. split.
        -- apply Forall_app. split; [|exact IHy].
           apply Forall_map, Forall_forall. eauto.
        -- exact IHe.
    + split; [|intros _; eexists; reflexivity].
      cbn. apply Forall_map, Forall_forall. eauto.
Qed.

(** X23.  [get_neighbor_cell_ngrams] never yields an n-gram with a
    direction, and it ends with an exception whenever a span of the
    candidate has a row and a column: the variable [phrase] is read
    before the loop that binds it, so the generator ends with
    [UnboundLocalError] there (when the parents have the attribute; with
    [KeyError] before that otherwise). *)
Theorem get_neighbor_cell_ngrams_never_directed :
  forall (tokens_to_ngrams : list string -> Z -> Z -> bool -> list string)
         (is_axis_aligned : Phrase -> Cell -> Axis -> bool)
         (min_row_diff min_col_diff : Phrase -> option Cell -> Z)
         (cell_of : Phrase -> option Cell)
         (table_cells_of : Phrase -> option (list Cell))
         (c : Target) (dist : Z) (directions : bool) (attrib : string)
         (n_min n_max : Z) (lower : bool),
    let g := get_neighbor_cell_ngrams tokens_to_ngrams is_axis_aligned
               min_row_diff min_col_diff cell_of table_cells_of
               c dist directions attrib n_min n_max lower in
    Forall (fun item => exists ngram, item = Plain ngram) (yielded g)
    /\ (existsb positioned (spans_of c) = true -> exists e, ending g = Raised e)
    /\ (existsb positioned (spans_of c) = true ->
        (forall span, In span (spans_of c) -> attribs (parent span) attrib <> None) ->
        ending g = Raised (UnboundLocalError "phrase")).
Proof.
  intros ttn aligned mrd mcd cell_of cells_of c dist directions attrib n_min n_max lower.
  unfold get_neighbor_cell_ngrams.
  destruct (neighbor_loop_plain ttn aligned mrd mcd cell_of cells_of
              dist directions attrib n_min n_max lower (spans_of c)) as [Hy He].
  pose proof (neighbor_loop_unbound ttn aligned mrd mcd cell_of cells_of
                dist directions attrib n_min n_max lower (spans_of c)) as Hu.
  destruct (for_each (spans_of c) None _) as [ys [r|e]]; cbn in *.
  - rewrite app_nil_r. repeat apply conj; [exact Hy| |].
    + intros Hp. destruct (He Hp) as [e Hr]. discriminate Hr.
    + intros Hp Ha. specialize (Hu Ha Hp). discriminate Hu.
  - repeat apply conj; [exact Hy|eauto|].
    intros Hp Ha. specialize (Hu Ha Hp). injection Hu as ->. reflexivity.
Qed.

Lemma get_neighbor_cell_ngrams_never_directed_witness :
  exists e,
    ending (get_neighbor_cell_ngrams SpecModel.tokens_to_ngrams Sample.is_axis_aligned
              Sample.min_row_diff Sample.min_col_diff Sample.cell_of
              Sample.table_cells_of (TSpan Sample.span_net) 1 true "words" 1 1 true)
    = Raised e.
Proof.
  apply (get_neighbor_cell_ngrams_never_directed SpecModel.tokens_to_ngrams
           Sample.is_axis_aligned Sample.min_row_diff Sample.min_col_diff
           Sample.cell_of Sample.table_cells_of (TSpan Sample.span_net)
           1 true "words" 1 1 true).
  reflexivity.
Defined.

End TabularMore.

(** ** lf_helpers.py: cell, aligned and head context *)

Module TabularRestFacts.
Import Infer InferFacts Tabular TabularTerms TabularFacts TabularRest.

Lemma get_axis_ngrams_own_first ttn is_axis_aligned cell_of table_cells_of
    span axis direct infer attrib n_min n_max lower :
  exists rest,
    yielded (_get_axis_ngrams ttn is_axis_aligned cell_of table_cells_of
                              span axis direct infer attrib n_min n_max lower)
    = (yielded (Directional.get_phrase_ngrams ttn (TSpan span) attrib n_min n_max lower)
       ++ rest)%list.
Proof. unfold _get_axis_ngrams. rewrite yielded_bind. eexists. reflexivity. Qed.

Lemma get_row_ngrams_one ttn is_axis_aligned cell_of table_cells_of
    span direct infer attrib n_min n_max lower :
  get_row_ngrams ttn is_axis_aligned cell_of table_cells_of
                 (TSpan span) direct infer attrib n_min n_max lower
  = _get_axis_ngrams ttn is_axis_aligned cell_of table_cells_of
                     span Row direct infer attrib n_min n_max lower.
Proof. unfold get_row_ngrams, for_in. cbn [spans_of for_each]. apply bind_ret. Qed.

Lemma get_col_ngrams_one ttn is_axis_aligned cell_of table_cells_of
    span direct infer attrib n_min n_max lower :
  get_col_ngrams ttn is_axis_aligned cell_of table_cells_of
                 (TSpan span) direct infer attrib n_min n_max lower
  = _get_axis_ngrams ttn is_axis_aligned cell_of table_cells_of
                     span Col direct infer attrib n_min n_max lower.
Proof. unfold get_col_ngrams, for_in. cbn [spans_of for_each]. apply bind_ret. Qed.

(** X24.  [get_aligned_ngrams] on a span is [get_row_ngrams] followed
    by [get_col_ngrams]: when the row part ends normally it yields the
    row n-grams, then the column n-grams, and ends as the column part
    ends; when the row part raises, it stops there.  Both parts start
    with the n-grams of the phrase of the span, which are therefore
    yielded twice. *)
Theorem get_aligned_ngrams_row_then_col :
  forall (tokens_to_ngrams : list string -> Z -> Z -> bool -> list string)
         (is_axis_aligned : Phrase -> Cell -> Axis -> bool)
         (cell_of : Phrase -> option Cell)
         (table_cells_of : Phrase -> option (list Cell))
         (direct infer : bool) (attrib : string) (n_min n_max : Z) (lower : bool),
    let row c := get_row_ngrams tokens_to_ngrams is_axis_aligned cell_of table_cells_of
                                c direct infer attrib n_min n_max lower in
    let col c := get_col_ngrams tokens_to_ngrams is_axis_aligned cell_of table_cells_of
                                c direct infer attrib n_min n_max lower in
    let both c := get_aligned_ngrams tokens_to_ngrams is_axis_aligned cell_of
                                     table_cells_of c direct infer
                                     attrib n_min n_max lower in
    forall span,
      (ending (row (TSpan span)) = Returned tt ->
       yielded (both (TSpan span))
       = (yielded (row (TSpan span)) ++ yielded (col (TSpan span)))%list
       /\ ending (both (TSpan span)) = ending (col (TSpan span)))
      /\ (forall e, ending (row (TSpan span)) = Raised e ->
                    both (TSpan span) = row (TSpan span))
      /\ exists in_row in_col,
           yielded (row (TSpan span))
           = (yielded (Directional.get_phrase_ngrams tokens_to_ngrams (TSpan span)
                                                     attrib n_min n_max lower)
              ++ in_row)%list
           /\ yielded (col (TSpan span))
              = (yielded (Directional.get_phrase_ngrams tokens_to_ngrams (TSpan span)
                                                        attrib n_min n_max lower)
                 ++ in_col)%list.
Proof.
  intros ttn aligned cell_of cells_of direct infer attrib n_min n_max lower row col both.
  intros span.
  assert (Hboth : both (TSpan span)
                  = Gen.bind (row (TSpan span)) (fun _ => col (TSpan span))).
  { unfold both, get_aligned_ngrams, for_in. cbn [spans_of for_each].
    apply bind_ret. }
  repeat apply conj.
  - intros Hr. rewrite Hboth.
    generalize (col (TSpan span)). intros [zs o'].
    destruct (row (TSpan span)) as [ys o]. unfold ending in Hr.
    cbn [snd] in Hr. subst o. split; reflexivity.
  - intros e Hr. rewrite Hboth.
    generalize (col (TSpan span)). intros k.
    destruct (row (TSpan span)) as [ys o]. unfold ending in Hr.
    cbn [snd] in Hr. subst o. reflexivity.
  - unfold row, col. rewrite get_row_ngrams_one, get_col_ngrams_one.
    destruct (get_axis_ngrams_own_first ttn aligned cell_of cells_of span Row
                direct infer attrib n_min n_max lower) as [r Hr].
    destruct (get_axis_ngrams_own_first ttn aligned cell_of cells_of span Col
                direct infer attrib n_min n_max lower) as [k Hk].
    exists r, k. split; assumption.
Qed.

Lemma ngrams_of_phrases_ok ttn phrases attrib n_min n_max lower :
  Forall (fun phrase => attribs phrase attrib <> None) phrases ->
  ngrams_of_phrases ttn phrases attrib n_min n_max lower
  = Returned
      (map (fun phrase =>
              ttn (match attribs phrase attrib with
                   | Some toks => toks
                   | None => []
                   end) n_min n_max lower)
           phrases).
Proof.
  induction 1 as [|phrase rest Hp Hrest IH]; cbn [ngrams_of_phrases map];
    [reflexivity|].
  unfold getattr_tokens. destruct (attribs phrase attrib); [|contradiction].
  cbn [obind]. now rewrite IH.
Qed.

Lemma ngrams_of_phrases_fail ttn phrases attrib n_min n_max lower :
  Exists (fun phrase => attribs phrase attrib = None) phrases ->
  ngrams_of_phrases ttn phrases attrib n_min n_max lower
  = Raised (AttributeError attrib).
Proof.
  induction phrases as [|phrase rest IH]; intros H; [inversion H|].
  cbn [ngrams_of_phrases]. unfold getattr_tokens.
  destruct (attribs phrase attrib) as [toks|] eqn:Ha; [|reflexivity].
  cbn [obind]. rewrite IH; [reflexivity|].
  inversion H as [? ? Hh|? ? Ht]; subst; [congruence|exact Ht].
Qed.

(** X25.  [get_cell_ngrams] on a span yields the n-grams of the phrase
    of the span and then, when the phrase has a cell, the n-grams of the
    other phrases of that cell, phrase by phrase.  The attribute of all
    these phrases is read before the first of their n-grams is yielded:
    when one of them does not have it, the generator ends with
    [AttributeError] right after the n-grams of the phrase of the span.
    Without a cell it is [get_phrase_ngrams]. *)
Theorem get_cell_ngrams_span :
  forall (tokens_to_ngrams : list string -> Z -> Z -> bool -> list string)
         (cell_of : Phrase -> option Cell)
         (span : Span) (attrib : string) (n_min n_max : Z) (lower : bool),
    let own := Directional.get_phrase_ngrams tokens_to_ngrams (TSpan span)
                                             attrib n_min n_max lower in
    let cell_ngrams := get_cell_ngrams tokens_to_ngrams cell_of (TSpan span)
                                       attrib n_min n_max lower in
    (cell_of (parent span) = None -> cell_ngrams = own)
    /\ (forall cell,
          cell_of (parent span) = Some cell ->
          let others := filter (fun phrase => negb (same_phrase_obj phrase (parent span)))
                               (cell_phrases cell) in
          (Forall (fun phrase => attribs phrase attrib <> None) others ->
           cell_ngrams
           = (own ;;;
              yield_all
                (flat_map (fun phrase =>
                             tokens_to_ngrams
                               (match attribs phrase attrib with
                                | Some toks => toks
                                | None => []
                                end) n_min n_max lower)
                          others))%gen)
          /\ (Exists (fun phrase => attribs phrase attrib = None) others ->
              cell_ngrams = (own ;;; raise (AttributeError attrib))%gen)).
Proof.
  intros ttn cell_of span attrib n_min n_max lower own cell_ngrams.
  assert (Hone : cell_ngrams
                 = Gen.bind own
                     (fun _ =>
                        match cell_of (parent span) with
                        | Some cell =>
                            Gen.bind
                              (call (ngrams_of_phrases ttn
                                       (filter (fun phrase =>
                                                  negb (same_phrase_obj phrase (parent span)))
                                               (cell_phrases cell))
                                       attrib n_min n_max lower))
                              (fun grams => yield_all (List.concat grams))
                        | None => ret tt
                        end)).
  { unfold cell_ngrams, get_cell_ngrams, for_in. cbn [spans_of for_each].
    apply bind_ret. }
  split.
  - intros Hc. rewrite Hone, Hc. apply bind_ret_unit.
  - intros cell Hc others. rewrite Hone, Hc. split.
    + intros Hall. apply bind_ext. intros _. fold others.
      rewrite (ngrams_of_phrases_ok ttn others attrib n_min n_max lower Hall).
      rewrite bind_call_returned. now rewrite flat_map_concat_map.
    + intros Hex. apply bind_ext. intros _. fold others.
      now rewrite (ngrams_of_phrases_fail ttn others attrib n_min n_max lower Hex).
Qed.

Lemma get_cell_ngrams_span_witness :
  get_cell_ngrams SpecModel.tokens_to_ngrams Sample.cell_of (TSpan Sample.span_d)
                  "words" 1 1 true
  = Directional.get_phrase_ngrams SpecModel.tokens_to_ngrams (TSpan Sample.span_d)
                                  "words" 1 1 true.
Proof.
  apply (get_cell_ngrams_span SpecModel.tokens_to_ngrams Sample.cell_of
           Sample.span_d "words" 1 1 true).
  reflexivity.
Defined.

End TabularRestFacts.

(** ** lf_helpers.py: the head cell of a row or column *)

Section SortHead.
Import Visual.
Context {X : Type} (key : X -> Z).

(** The sort is stable, so its first element is the first element of
    the input whose key is the least. *)
Lemma sort_by_head l :
  l <> [] ->
  exists h rest before after,
    sort_by key l = h :: rest
    /\ l = (before ++ h :: after)%list
    /\ Forall (fun x => key h < key x) before
    /\ Forall (fun x => key h <= key x) after.
Proof.
  induction l as [|x l IH] using rev_ind; [congruence|]. intros _.
  unfold sort_by in *. rewrite fold_left_app. cbn [fold_left].
  destruct l as [|y l'].
  - exists x, [], [], []. cbn. repeat apply conj; constructor.
  - destruct (IH ltac:(discriminate)) as (h & rest & before & after & Hs & Hl & Hb & Ha).
    rewrite Hs. cbn [insert_by].
    destruct (Z.leb_spec (key h) (key x)) as [Hle|Hlt].
    + exists h, (insert_by key x rest), before, (after ++ [x])%list.
      repeat apply conj.
      * reflexivity.
      * rewrite Hl, <- app_assoc. reflexivity.
      * exact Hb.
      * apply Forall_app. split; [exact Ha|]. constructor; [exact Hle|constructor].
    + exists x, (h :: rest), (y :: l'), []. repeat apply conj.
      * reflexivity.
      * reflexivity.
      * rewrite Hl. apply Forall_app. split.
        -- eapply Forall_impl; [|exact Hb]. cbn. intros; lia.
        -- constructor; [lia|]. eapply Forall_impl; [|exact Ha]. cbn. intros; lia.
      * constructor.
Qed.

End SortHead.

Module HeadFacts.
Import Infer InferFacts Tabular TabularRest.

Lemma infer_all_direct table cells axis infer :
  match infer_all table cells axis true infer with
  | Returned l => Forall is_real l /\ (cells <> [] -> l <> [])
  | Raised e =>
      e = IndexError "list index out of range" /\ infer = true /\ cells <> []
  end.
Proof.
  induction cells as [|cell rest IH]; cbn [infer_all].
  - split; [constructor|congruence].
  - pose proof (InferFacts.infer_direct table axis infer _ cell (Nat.lt_succ_diag_r _))
      as H.
    destruct (_infer_cell table cell axis true infer) as [[c|ps]|e]; cbn [obind].
    + destruct (infer_all table rest axis true infer) as [l|e]; cbn [obind].
      * split; [constructor; [exact I|apply IH]|discriminate].
      * destruct IH as (He & Hi & _). repeat apply conj; [exact He|exact Hi|discriminate].
    + contradiction.
    + destruct H as [He Hi]. repeat apply conj; [exact He|exact Hi|discriminate].
Qed.

Lemma keyed_real axis l :
  Forall is_real l ->
  exists pairs,
    keyed axis l = Returned pairs
    /\ map snd pairs = l
    /\ Forall (fun p => start_key axis (snd p) = Returned (fst p)) pairs.
Proof.
  induction 1 as [|x l Hx Hl (pairs & Hk & Hm & Hf)]; cbn [keyed].
  - exists []. repeat apply conj; [reflexivity|reflexivity|constructor].
  - destruct x as [c|ps]; [|contradiction]. cbn [start_key obind].
    rewrite Hk. cbn [obind].
    exists ((axis_start axis c, RealCell c) :: pairs).
    repeat apply conj; [reflexivity|cbn; now rewrite Hm|].
    constructor; [reflexivity|exact Hf].
Qed.

Lemma sort_by_keyed {A B : Type} (key : A -> Z) (g : A -> B) (l : list A) :
  Visual.sort_by fst (map (fun c => (key c, g c)) l)
  = map (fun c => (key c, g c)) (Visual.sort_by key l).
Proof.
  unfold Visual.sort_by.
  change (@nil (Z * B)) with (map (fun c => (key c, g c)) []).
  generalize (@nil A) as acc.
  induction l as [|x l IH]; intros acc; cbn [fold_left map]; [reflexivity|].
  rewrite <- IH. f_equal.
  induction acc as [|y acc IHacc]; cbn [Visual.insert_by map fst]; [reflexivity|].
  destruct (key y <=? key x); cbn [map]; [now rewrite IHacc|reflexivity].
Qed.

Lemma keyed_cells axis cells :
  keyed axis (map RealCell cells)
  = Returned (map (fun c => (axis_start axis c, RealCell c)) cells).
Proof.
  induction cells as [|c cells IH]; cbn [keyed map start_key obind]; [reflexivity|].
  now rewrite IH.
Qed.

(** X26.  [_get_head_cell] never returns a phantom cell and never fails
    on one: it returns the empty list exactly when no other cell of the
    table is aligned with the root cell, and otherwise a cell, or, with
    [infer] on only, the [IndexError] of [_infer_cell].  Without [infer]
    the head is an aligned cell other than the root cell, the first in
    table order of those whose start along the other axis is the
    least. *)
Theorem get_head_cell_result :
  forall (is_axis_aligned_cell : Cell -> Cell -> Axis -> bool)
         (cells_of : Cell -> list Cell)
         (root_cell : Cell) (axis : Axis) (infer : bool),
    let aligned :=
      filter (fun cell => is_axis_aligned_cell root_cell cell axis
                          && other_cell root_cell cell)
             (cells_of root_cell) in
    let start := axis_start (_other_axis axis) in
    match _get_head_cell is_axis_aligned_cell cells_of root_cell axis infer with
    | Returned None => aligned = []
    | Returned (Some (RealCell head)) =>
        aligned <> []
        /\ (infer = false ->
            is_axis_aligned_cell root_cell head axis = true
            /\ cell_id head <> cell_id root_cell
            /\ exists before after,
                 aligned = (before ++ head :: after)%list
                 /\ Forall (fun c => start head < start c) before
                 /\ Forall (fun c => start head <= start c) after)
    | Returned (Some (PhantomCell _)) => False
    | Raised e =>
        e = IndexError "list index out of range" /\ infer = true /\ aligned <> []
    end.
Proof.
  intros aligned_cell cells_of root_cell axis infer aligned start.
  assert (Hother : (match axis with Col => Row | Row => Col end) = _other_axis axis)
    by now destruct axis.
  assert (Hfilter : forall c, In c aligned ->
                              aligned_cell root_cell c axis = true
                              /\ cell_id c <> cell_id root_cell).
  { intros c Hin. apply filter_In in Hin. destruct Hin as [_ Hin].
    apply andb_prop in Hin. destruct Hin as [Hin Hoth]. split; [exact Hin|].
    unfold other_cell in Hoth. now apply negb_true_iff, Nat.eqb_neq in Hoth. }
  unfold _get_head_cell, _get_aligned_cells. fold aligned. rewrite Hother.
  clearbody aligned. destruct infer.
  - destruct aligned as [|a rest]; [reflexivity|].
    pose proof (infer_all_direct (cells_of root_cell) (a :: rest) (_other_axis axis) true)
      as H.
    destruct (infer_all (cells_of root_cell) (a :: rest) (_other_axis axis) true true)
      as [l|e]; cbn [obind]; [|exact H].
    destruct H as [Hreal Hne]. destruct l as [|x l].
    { exfalso. now apply Hne. }
    destruct (keyed_real (_other_axis axis) (x :: l) Hreal) as (pairs & Hk & Hm & _).
    rewrite Hk. cbn [obind].
    assert (Hp : pairs <> []) by (intros ->; discriminate).
    destruct (sort_by_head fst pairs Hp)
      as ([k h] & tl & before & after & Hs & Hl & _ & _).
    rewrite Hs.
    assert (Hin : In h (x :: l)).
    { rewrite <- Hm, Hl, map_app. apply in_or_app. right. now left. }
    rewrite Forall_forall in Hreal. specialize (Hreal h Hin).
    destruct h as [c|ps]; [|contradiction].
    split; discriminate.
  - cbn [obind]. destruct aligned as [|a rest]; [reflexivity|].
    cbn [map]. change (RealCell a :: map RealCell rest) with (map RealCell (a :: rest)).
    rewrite keyed_cells. cbn [obind]. rewrite sort_by_keyed.
    destruct (sort_by_head start (a :: rest) ltac:(discriminate))
      as (h & tl & before & after & Hs & Hl & Hb & Hafter).
    fold start. rewrite Hs. cbn [map]. split; [discriminate|]. intros _.
    assert (Hin : In h (a :: rest)).
    { rewrite Hl. apply in_or_app. right. now left. }
    destruct (Hfilter h Hin) as [Hal Hid].
    repeat apply conj; [exact Hal|exact Hid|].
    exists before, after. repeat apply conj; assumption.
Qed.

Lemma head_loop_cut ttn aligned_cell cell_of cells_of axes infer attrib n_min n_max lower :
  forall prefix span rest,
    cell_of (parent span) = None ->
    head_loop ttn aligned_cell cell_of cells_of (prefix ++ span :: rest) axes infer
              attrib n_min n_max lower
    = head_loop ttn aligned_cell cell_of cells_of prefix axes infer
                attrib n_min n_max lower.
Proof.
  intros prefix span rest Hc.
  induction prefix as [|s prefix IH]; cbn [app head_loop].
  - now rewrite Hc.
  - destruct (cell_of (parent s)); [|reflexivity]. now rewrite IH.
Qed.

(** X27.  [get_head_ngrams] stops at the first span whose phrase has no
    cell: the spans after it are not looked at, also those that are in a
    table.  On a single span, no [axis] means the row head and then the
    column head.  A span whose cell has no other aligned cell along the
    given axis yields nothing. *)
Theorem get_head_ngrams_spans :
  forall (tokens_to_ngrams : list string -> Z -> Z -> bool -> list string)
         (is_axis_aligned_cell : Cell -> Cell -> Axis -> bool)
         (cell_of : Phrase -> option Cell)
         (cells_of : Cell -> list Cell)
         (infer : bool) (attrib : string) (n_min n_max : Z) (lower : bool),
    let head_ngrams c axis :=
      get_head_ngrams tokens_to_ngrams is_axis_aligned_cell cell_of cells_of
                      c axis infer attrib n_min n_max lower in
    (forall axis prefix span rest,
        cell_of (parent span) = None ->
        head_ngrams (TCandidate (prefix ++ span :: rest)) axis
        = head_ngrams (TCandidate prefix) axis)
    /\ (forall span,
          head_ngrams (TSpan span) None
          = (head_ngrams (TSpan span) (Some Row) ;;;
             head_ngrams (TSpan span) (Some Col))%gen)
    /\ (forall span cell axis,
          cell_of (parent span) = Some cell ->
          filter (fun other => is_axis_aligned_cell cell other axis
                               && other_cell cell other)
                 (cells_of cell) = [] ->
          head_ngrams (TSpan span) (Some axis) = ret tt).
Proof.
  intros ttn aligned_cell cell_of cells_of infer attrib n_min n_max lower head_ngrams.
  unfold head_ngrams, get_head_ngrams. repeat apply conj.
  - intros axis prefix span rest Hc. cbn [spans_of]. now apply head_loop_cut.
  - intros span. cbn [spans_of head_loop].
    destruct (cell_of (parent span)) as [cell|]; [|reflexivity].
    unfold for_in. cbn [for_each].
    rewrite !bind_ret_unit. rewrite !bind_ret. reflexivity.
  - intros span cell axis Hc Hnone. cbn [spans_of head_loop]. rewrite Hc.
    unfold for_in at 1. cbn [for_each].
    unfold _get_head_cell, _get_aligned_cells. rewrite Hnone.
    destruct infer; reflexivity.
Qed.

Lemma get_head_ngrams_spans_witness :
  get_head_ngrams SpecModel.tokens_to_ngrams Sample.is_axis_aligned_cell Sample.cell_of
                  (fun _ => Sample.table)
                  (TCandidate ([Sample.span_net] ++ Sample.span_d :: [Sample.span_total]))
                  (Some Row) false "words" 1 1 true
  = get_head_ngrams SpecModel.tokens_to_ngrams Sample.is_axis_aligned_cell Sample.cell_of
                    (fun _ => Sample.table)
                    (TCandidate [Sample.span_net])
                    (Some Row) false "words" 1 1 true.
Proof.
  apply (get_head_ngrams_spans SpecModel.tokens_to_ngrams Sample.is_axis_aligned_cell
           Sample.cell_of (fun _ => Sample.table) false "words" 1 1 true).
  reflexivity.
Defined.

End HeadFacts.

(** ** lf_helpers.py: more on the visual pass *)

Module VisualMore.
Import Visual VisualTerms.

Lemma fold_min_least l : forall x, least (fold_left Z.min l x) (x :: l).
Proof.
  induction l as [|y l IH]; intros x; cbn [fold_left].
  - split; [now left|]. constructor; [lia|constructor].
  - destruct (IH (Z.min x y)) as [Hin Hall]. split.
    + destruct Hin as [Hin|Hin]; [|right; now right].
      rewrite <- Hin. destruct (Z.min_spec x y) as [[_ ->]|[_ ->]];
        [now left|right; now left].
    + inversion Hall as [|? ? Hm Hl]; subst.
      constructor; [lia|]. constructor; [lia|exact Hl].
Qed.

Lemma fold_max_greatest l : forall x, greatest (fold_left Z.max l x) (x :: l).
Proof.
  induction l as [|y l IH]; intros x; cbn [fold_left].
  - split; [now left|]. constructor; [lia|constructor].
  - destruct (IH (Z.max x y)) as [Hin Hall]. split.
    + destruct Hin as [Hin|Hin]; [|right; now right].
      rewrite <- Hin. destruct (Z.max_spec x y) as [[_ ->]|[_ ->]];
        [right; now left|now left].
    + inversion Hall as [|? ? Hm Hl]; subst.
      constructor; [lia|]. constructor; [lia|exact Hl].
Qed.

Lemma py_min_spec l :
  match py_min l with
  | Returned m => least m l
  | Raised e => l = [] /\ e = ValueError "min() arg is an empty sequence"
  end.
Proof. destruct l as [|x l]; cbn [py_min]; [now split|apply fold_min_least]. Qed.

Lemma py_max_spec l :
  match py_max l with
  | Returned m => greatest m l
  | Raised e => l = [] /\ e = ValueError "max() arg is an empty sequence"
  end.
Proof. destruct l as [|x l]; cbn [py_max]; [now split|apply fold_max_greatest]. Qed.

Lemma box_spec tops bottoms lefts rights :
  match (t <- py_min tops ;;
         b <- py_max bottoms ;;
         l <- py_min lefts ;;
         r <- py_max rights ;;
         Returned (Some (mkBbox t b l r)))%outcome with
  | Returned (Some bbox) => encloses bbox tops bottoms lefts rights
  | Returned None => False
  | Raised e =>
      (tops = [] \/ bottoms = [] \/ lefts = [] \/ rights = [])
      /\ exists msg, e = ValueError msg
  end.
Proof.
  pose proof (py_min_spec tops) as Ht. pose proof (py_max_spec bottoms) as Hb.
  pose proof (py_min_spec lefts) as Hl. pose proof (py_max_spec rights) as Hr.
  destruct (py_min tops) as [t|e]; cbn [obind]; [|destruct Ht as [-> ->]; eauto].
  destruct (py_max bottoms) as [b|e]; cbn [obind]; [|destruct Hb as [-> ->]; eauto].
  destruct (py_min lefts) as [l|e]; cbn [obind]; [|destruct Hl as [-> ->]; eauto 6].
  destruct (py_max rights) as [r|e]; cbn [obind]; [|destruct Hr as [-> ->]; eauto 6].
  repeat split; cbn; first [apply Ht|apply Hb|apply Hl|apply Hr].
Qed.

(** X28.  [_bbox_from_span] returns [None] exactly when the phrase has
    no top coordinate of its own and its tokens have none.  The box it
    returns is tight: its top and left are the least and its bottom and
    right the greatest of the coordinates, those of the phrase itself
    when it has a top coordinate (the tokens are then not read), those
    of its tokens otherwise.  The only way it fails is [ValueError], when
    the list of top coordinates is not empty and one of the three other
    lists is. *)
Theorem bbox_from_span_tight :
  forall (get_attrib_tokens : VisualPhrase -> string -> list Z)
         (span : VisualPhrase),
    let box := _bbox_from_span get_attrib_tokens span in
    (box = Returned None <-> top span = [] /\ get_attrib_tokens span "top" = [])
    /\ (forall bbox,
          box = Returned (Some bbox) ->
          if nonempty (top span)
          then encloses bbox (top span) (bottom span) (left span) (right span)
          else encloses bbox (get_attrib_tokens span "top")
                        (get_attrib_tokens span "bottom")
                        (get_attrib_tokens span "left")
                        (get_attrib_tokens span "right"))
    /\ (forall e,
          box = Raised e ->
          (exists msg, e = ValueError msg)
          /\ if nonempty (top span)
             then bottom span = [] \/ left span = [] \/ right span = []
             else get_attrib_tokens span "bottom" = []
                  \/ get_attrib_tokens span "left" = []
                  \/ get_attrib_tokens span "right" = []).
Proof.
  intros gat span box. unfold box, _bbox_from_span.
  pose proof (box_spec (top span) (bottom span) (left span) (right span)) as Hown.
  pose proof (box_spec (gat span "top") (gat span "bottom")
                       (gat span "left") (gat span "right")) as Htok.
  destruct (top span) as [|t ts] eqn:Htop; cbn [nonempty].
  - destruct (gat span "top") as [|g gs] eqn:Hg; cbn [nonempty].
    + split; [split; [now split|reflexivity]|split; intros ? H; discriminate H].
    + match type of Htok with
      | match ?o with _ => _ end => destruct o as [[bbox|]|e]
      end.
      * split; [split; [intros H|intros [_ H]]; discriminate H|split].
        -- intros bbox' [= <-]. exact Htok.
        -- intros ? H; discriminate H.
      * contradiction.
      * split; [split; [intros H|intros [_ H]]; discriminate H|split].
        -- intros ? H; discriminate H.
        -- intros e' [= <-]. destruct Htok as [[H|H] Hmsg]; [discriminate H|].
           split; assumption.
  - match type of Hown with
    | match ?o with _ => _ end => destruct o as [[bbox|]|e]
    end.
    + split; [split; [intros H|intros [H _]]; discriminate H|split].
      * intros bbox' [= <-]. exact Hown.
      * intros ? H; discriminate H.
    + contradiction.
    + split; [split; [intros H|intros [H _]]; discriminate H|split].
      * intros ? H; discriminate H.
      * intros e' [= <-]. destruct Hown as [[H|H] Hmsg]; [discriminate H|].
        split; assumption.
Qed.

Lemma updates_refl doc : updates doc doc.
Proof. repeat split; auto. Qed.

Lemma updates_trans a b c : updates a b -> updates b c -> updates a c.
Proof.
  intros (Hp & Hf & Hs) (Hp' & Hf' & Hs'). repeat split.
  - congruence.
  - congruence.
  - intros id H. apply Hs', Hs, H.
Qed.

Lemma set_aligned_updates doc id s : updates doc (set_aligned doc id s).
Proof.
  repeat split. intros j H. cbn. destruct (Nat.eqb j id); [discriminate|exact H].
Qed.

Section Pass.
Variable get_attrib_tokens : VisualPhrase -> string -> list Z.

Lemma assign_group_updates align_type phrases :
  forall doc context_lemmas,
    updates doc (fst (assign_group align_type doc context_lemmas phrases)).
Proof.
  induction phrases as [|p rest IH]; intros doc ctx; cbn [assign_group].
  - apply updates_refl.
  - destruct (aligned_lemmas doc (vp_id (placed p))) as [s|]; [|apply updates_refl].
    eapply updates_trans; [apply set_aligned_updates|apply IH].
Qed.

Lemma assign_alignment_features_updates align_type groups :
  forall doc, updates doc (fst (_assign_alignment_features groups align_type doc)).
Proof.
  induction groups as [|[k phrases] rest IH]; intros doc;
    cbn [_assign_alignment_features].
  - apply updates_refl.
  - destruct (Nat.eqb (List.length phrases) 1); [apply IH|].
    pose proof (assign_group_updates align_type phrases doc []) as H.
    destruct (assign_group align_type doc [] phrases) as [doc' [u|e]]; cbn [fst] in *.
    + eapply updates_trans; [exact H|apply IH].
    + exact H.
Qed.

Lemma process_page_updates doc phrases :
  updates doc (fst (process_page get_attrib_tokens doc phrases)).
Proof.
  unfold process_page.
  destruct (place_all get_attrib_tokens phrases) as [ps|e]; [|apply updates_refl].
  pose proof (assign_alignment_features_updates "Y_" (sorted_groups yc ps) doc) as H1.
  destruct (_assign_alignment_features (sorted_groups yc ps) "Y_" doc)
    as [d1 [u|e]]; cbn [fst] in *; [|exact H1].
  pose proof (assign_alignment_features_updates "LEFT_" (sorted_groups x0 ps) d1) as H2.
  destruct (_assign_alignment_features (sorted_groups x0 ps) "LEFT_" d1)
    as [d2 [u2|e]]; cbn [fst] in *; [|eapply updates_trans; eassumption].
  pose proof (assign_alignment_features_updates "RIGHT_" (sorted_groups x1 ps) d2) as H3.
  destruct (_assign_alignment_features (sorted_groups x1 ps) "RIGHT_" d2)
    as [d3 [u3|e]]; cbn [fst] in *;
    [|eapply updates_trans; [eapply updates_trans|]; eassumption].
  pose proof (assign_alignment_features_updates "CENTER_" (sorted_groups xc ps) d3) as H4.
  eapply updates_trans; [eapply updates_trans; [eapply updates_trans|]|]; eassumption.
Qed.

Lemma process_pages_updates pages :
  forall doc, updates doc (fst (process_pages get_attrib_tokens doc pages)).
Proof.
  induction pages as [|[k phrases] rest IH]; intros doc; cbn [process_pages].
  - apply updates_refl.
  - pose proof (process_page_updates doc phrases) as H.
    destruct (process_page get_attrib_tokens doc phrases) as [doc' [u|e]];
      cbn [fst] in *; [|exact H].
    eapply updates_trans; [exact H|apply IH].
Qed.

Lemma initialised phrases :
  forall doc,
    let doc' := fold_left (fun d phrase => set_aligned d (vp_id phrase) []) phrases doc in
    updates doc doc'
    /\ forall phrase, In phrase phrases -> aligned_lemmas doc' (vp_id phrase) <> None.
Proof.
  induction phrases as [|p rest IH]; intros doc; cbn [fold_left].
  - split; [apply updates_refl|intros ? []].
  - destruct (IH (set_aligned doc (vp_id p) [])) as [Hu Hin]. split.
    + eapply updates_trans; [apply set_aligned_updates|exact Hu].
    + intros phrase [<-|H]; [|now apply Hin].
      apply Hu. cbn. now rewrite Nat.eqb_refl.
Qed.

Lemma preprocess_after doc :
  let after := fst (_preprocess_visual_features get_attrib_tokens doc) in
  has_visual_features after = true
  /\ doc_phrases after = doc_phrases doc
  /\ (has_visual_features doc = false ->
      forall phrase, In phrase (doc_phrases doc) ->
                     aligned_lemmas after (vp_id phrase) <> None).
Proof.
  unfold _preprocess_visual_features.
  destruct (has_visual_features doc) eqn:Hflag; cbn [fst].
  - repeat split; [exact Hflag|discriminate].
  - cbn [doc_phrases set_flag].
    destruct (initialised (doc_phrases doc) (set_flag doc)) as [(Hp & Hf & _) Hin].
    pose proof (process_pages_updates
                  (group_by page (doc_phrases doc))
                  (fold_left (fun d phrase => set_aligned d (vp_id phrase) [])
                             (doc_phrases doc) (set_flag doc)))
      as (Hp' & Hf' & Hs').
    repeat split.
    + now rewrite Hf', Hf.
    + now rewrite Hp', Hp.
    + intros _ phrase Hph. apply Hs', Hin, Hph.
Qed.

End Pass.

(** X29.  The visual pass runs once per document.  After a call of
    [_preprocess_visual_features] the flag is set and the phrases are
    the same, whether the call ended normally or not, so that a further
    call changes nothing and ends normally.  A call on a document whose
    flag was not set leaves every phrase of the document with an
    aligned-lemma set.  Hence a second [get_visual_aligned_lemmas] on a
    phrase of the document never fails, also when the first one did. *)
Theorem preprocess_runs_once :
  forall (get_attrib_tokens : VisualPhrase -> string -> list Z) (doc : Doc),
    let after := fst (_preprocess_visual_features get_attrib_tokens doc) in
    has_visual_features after = true
    /\ doc_phrases after = doc_phrases doc
    /\ _preprocess_visual_features get_attrib_tokens after = (after, Returned tt)
    /\ (has_visual_features doc = false ->
        forall phrase,
          In phrase (doc_phrases doc) ->
          aligned_lemmas after (vp_id phrase) <> None
          /\ fst (get_visual_aligned_lemmas get_attrib_tokens doc phrase) = after
          /\ exists s,
               get_visual_aligned_lemmas get_attrib_tokens after phrase
               = (after, yield_all s)).
Proof.
  intros gat doc after.
  destruct (preprocess_after gat doc) as (Hflag & Hphrases & Hsets).
  fold after in Hflag, Hphrases, Hsets.
  assert (Hagain : _preprocess_visual_features gat after = (after, Returned tt)).
  { unfold _preprocess_visual_features at 1. now rewrite Hflag. }
  split; [exact Hflag|]. split; [exact Hphrases|]. split; [exact Hagain|].
  intros Hunset phrase Hin. specialize (Hsets Hunset phrase Hin).
  split; [exact Hsets|]. split.
  - unfold get_visual_aligned_lemmas, after.
    destruct (_preprocess_visual_features gat doc) as [doc' [u|e]]; cbn [fst];
      [|reflexivity].
    destruct (aligned_lemmas doc' (vp_id phrase)); reflexivity.
  - unfold get_visual_aligned_lemmas. rewrite Hagain.
    destruct (aligned_lemmas after (vp_id phrase)) as [s|]; [|congruence].
    now exists s.
Qed.

Lemma set_update_in s xs x : In x (set_update s xs) -> In x s \/ In x xs.
Proof.
  unfold set_update. revert s.
  induction xs as [|y xs IH]; intros s H; cbn [fold_left] in H; [now left|].
  apply IH in H. destruct H as [H|H]; [|right; now right].
  destruct (in_dec string_dec y s); [now left|].
  apply in_app_or in H. destruct H as [H|[<-|[]]]; [now left|right; now left].
Qed.

Lemma new_lemmas_contribute align_type q x :
  In align_type align_types ->
  (Z.of_nat (List.length (lemmas q)) <? 7) = true ->
  (In x (map Str.lower (filter Str.isalpha (lemmas q)))
   \/ In x (map (fun lemma => (align_type ++ lemma)%string)
                (map Str.lower (filter Str.isalpha (lemmas q))))) ->
  contributes q x.
Proof.
  intros Hat Hlt H. apply Z.ltb_lt in Hlt. split; [lia|].
  destruct H as [H|H].
  - apply in_map_iff in H. destruct H as (l & <- & Hl).
    apply filter_In in Hl. destruct Hl as [Hl Ha].
    exists l. repeat split; [exact Hl|exact Ha|now left].
  - apply in_map_iff in H. destruct H as (l' & <- & Hl').
    apply in_map_iff in Hl'. destruct Hl' as (l & <- & Hl).
    apply filter_In in Hl. destruct Hl as [Hl Ha].
    exists l. repeat split; [exact Hl|exact Ha|]. right. now exists align_type.
Qed.

Lemma dict_append_perm {X : Type} (d : list (Z * list X)) k x :
  Permutation (List.concat (map snd (dict_append d k x))) (x :: List.concat (map snd d)).
Proof.
  induction d as [|[k' xs] d IH]; cbn [dict_append map snd List.concat app];
    [reflexivity|].
  destruct (k' =? k); cbn [map snd List.concat].
  - rewrite <- app_assoc. cbn [app]. symmetry. apply Permutation_middle.
  - rewrite IH. symmetry. apply Permutation_middle.
Qed.

Lemma group_by_perm {X : Type} (key : X -> Z) (xs : list X) :
  Permutation (List.concat (map snd (group_by key xs))) xs.
Proof.
  unfold group_by.
  assert (H : forall d,
             Permutation
               (List.concat (map snd (fold_left (fun d x => dict_append d (key x) x) xs d)))
               (List.concat (map snd d) ++ xs)).
  { induction xs as [|x xs IH]; intros d; cbn [fold_left].
    - now rewrite app_nil_r.
    - rewrite IH, dict_append_perm. apply Permutation_middle. }
  apply (H []).
Qed.

Lemma group_by_key {X : Type} (key : X -> Z) (xs : list X) kk g x :
  In (kk, g) (group_by key xs) -> In x g -> key x = kk.
Proof.
  unfold group_by.
  assert (Happ : forall d y,
             (forall kk g x, In (kk, g) d -> In x g -> key x = kk) ->
             forall kk g x, In (kk, g) (dict_append d (key y) y) -> In x g ->
                            key x = kk).
  { induction d as [|[k' ys] d IH]; intros y Hd kk0 g0 x0; cbn [dict_append].
    - intros [[= <- <-]|[]] [<-|[]]. reflexivity.
    - destruct (Z.eqb_spec k' (key y)) as [Heq|Hne].
      + intros [[= <- <-]|Hin] Hx.
        * apply in_app_or in Hx. destruct Hx as [Hx|[<-|[]]];
            [apply (Hd k' ys); [now left|exact Hx]|now symmetry].
        * apply (Hd kk0 g0); [now right|exact Hx].
      + intros [[= <- <-]|Hin] Hx.
        * apply (Hd k' ys); [now left|exact Hx].
        * apply (IH y (fun a b c Hab => Hd a b c (or_intror Hab)) kk0 g0 x0 Hin Hx). }
  assert (H : forall d,
             (forall kk g x, In (kk, g) d -> In x g -> key x = kk) ->
             forall kk g x,
               In (kk, g) (fold_left (fun d x => dict_append d (key x) x) xs d) ->
               In x g -> key x = kk).
  { induction xs as [|y xs IH]; intros d Hd; cbn [fold_left]; [exact Hd|].
    apply IH. now apply Happ. }
  apply H. intros ? ? ? [].
Qed.

(** A list of a [defaultdict(list)] is a part of what was filed. *)
Lemma group_part {X : Type} (key : X -> Z) (xs : list X) kk g :
  In (kk, g) (group_by key xs) ->
  (forall x, In x g -> In x xs)
  /\ forall (f : X -> nat), NoDup (map f xs) -> NoDup (map f g).
Proof.
  intros Hin. apply in_split in Hin. destruct Hin as (d1 & d2 & Hd).
  pose proof (group_by_perm key xs) as Hperm.
  rewrite Hd, map_app, concat_app in Hperm. cbn [map snd List.concat] in Hperm.
  split.
  - intros x Hx. eapply Permutation_in; [exact Hperm|].
    apply in_or_app. right. apply in_or_app. now left.
  - intros f Hnd.
    eapply Permutation_NoDup in Hnd; [|symmetry; apply Permutation_map; exact Hperm].
    rewrite !map_app in Hnd.
    apply NoDup_app_remove_l in Hnd. now apply NoDup_app_remove_r in Hnd.
Qed.

Lemma nodup_ids phrases :
  NoDup (map vp_id phrases) ->
  forall p q, In p phrases -> In q phrases -> vp_id p = vp_id q -> p = q.
Proof.
  induction phrases as [|a l IH]; cbn [map]; intros Hnd p q Hp Hq Heq;
    [destruct Hp|].
  inversion Hnd as [|? ? Hnotin Hnd']; subst.
  destruct Hp as [<-|Hp], Hq as [<-|Hq].
  - reflexivity.
  - exfalso. apply Hnotin. rewrite Heq. now apply in_map.
  - exfalso. apply Hnotin. rewrite <- Heq. now apply in_map.
  - now apply IH.
Qed.

Section Provenance.
Variable get_attrib_tokens : VisualPhrase -> string -> list Z.
Variable P : list VisualPhrase.
Hypothesis Hid : forall p q, In p P -> In q P -> vp_id p = vp_id q -> p = q.

Lemma assign_group_sound align_type k :
  In align_type align_types ->
  forall group done doc context_lemmas,
    page_group P k group ->
    (forall q, In q done -> In q P /\ page q = k) ->
    (forall pl, In pl group -> ~ In (vp_id (placed pl)) (map vp_id done)) ->
    (forall x, In x context_lemmas -> exists q, In q done /\ contributes q x) ->
    received_from_others P doc ->
    received_from_others P (fst (assign_group align_type doc context_lemmas group)).
Proof.
  intros Hat. induction group as [|pl rest IH];
    intros done doc ctx Hg Hdone Hfresh Hctx Hdoc; cbn [assign_group];
    [exact Hdoc|].
  destruct (aligned_lemmas doc (vp_id (placed pl))) as [s|] eqn:Hs; [|exact Hdoc].
  destruct Hg as [Hmem Hnd]. cbn [map] in Hnd.
  inversion Hnd as [|? ? Hnotin Hnd']; subst.
  destruct (Hmem pl (or_introl eq_refl)) as [HplP Hplk].
  apply (IH (placed pl :: done)).
  - split; [intros pl' Hin; apply Hmem; now right|exact Hnd'].
  - intros q [<-|Hq]; [now split|now apply Hdone].
  - intros pl' Hin [Heq|Hin'].
    + apply Hnotin. rewrite Heq.
      apply (in_map (fun pl => vp_id (placed pl))). exact Hin.
    + apply (Hfresh pl'); [now right|exact Hin'].
  - intros x Hx.
    destruct (Z.of_nat (List.length (lemmas (placed pl))) <? 7) eqn:Hlt.
    + apply set_update_in in Hx. destruct Hx as [Hx|Hx];
        [apply set_update_in in Hx; destruct Hx as [Hx|Hx]|].
      * destruct (Hctx x Hx) as (q & Hq & Hc). exists q. split; [now right|exact Hc].
      * exists (placed pl). split; [now left|].
        apply (new_lemmas_contribute align_type); [exact Hat|exact Hlt|now left].
      * exists (placed pl). split; [now left|].
        apply (new_lemmas_contribute align_type); [exact Hat|exact Hlt|now right].
    + destruct (Hctx x Hx) as (q & Hq & Hc). exists q. split; [now right|exact Hc].
  - intros p s' x Hp Hs' Hx. cbn [set_aligned aligned_lemmas] in Hs'.
    destruct (Nat.eqb (vp_id p) (vp_id (placed pl))) eqn:Heq.
    + apply Nat.eqb_eq in Heq. injection Hs' as <-.
      apply set_update_in in Hx. destruct Hx as [Hx|Hx].
      * apply (Hdoc p s x Hp); [rewrite Heq; exact Hs|exact Hx].
      * destruct (Hctx x Hx) as (q & Hq & Hc). destruct (Hdone q Hq) as [HqP Hqk].
        exists q. split; [|split; [|split]].
        -- exact HqP.
        -- intros E. apply (Hfresh pl (or_introl eq_refl)).
           rewrite <- Heq, <- E. now apply in_map.
        -- rewrite (Hid p (placed pl) Hp HplP Heq). congruence.
        -- exact Hc.
    + apply (Hdoc p s' x Hp Hs' Hx).
Qed.

Lemma assign_alignment_features_sound align_type k :
  In align_type align_types ->
  forall groups doc,
    (forall key g, In (key, g) groups -> page_group P k g) ->
    received_from_others P doc ->
    received_from_others P (fst (_assign_alignment_features groups align_type doc)).
Proof.
  intros Hat. induction groups as [|[key g] rest IH]; intros doc Hg Hdoc;
    cbn [_assign_alignment_features]; [exact Hdoc|].
  assert (Hrest : forall key g, In (key, g) rest -> page_group P k g)
    by (intros key' g' Hin; apply (Hg key' g'); now right).
  destruct (Nat.eqb (List.length g) 1); [now apply IH|].
  assert (H : received_from_others P (fst (assign_group align_type doc [] g))).
  { apply (assign_group_sound align_type k Hat g [] doc []).
    - apply (Hg key g). now left.
    - intros ? [].
    - intros ? ? [].
    - intros ? [].
    - exact Hdoc. }
  destruct (assign_group align_type doc [] g) as [doc' [u|e]]; cbn [fst] in *;
    [now apply IH|exact H].
Qed.

Lemma sorted_groups_page_group k key ps :
  page_group P k ps ->
  forall kk g, In (kk, g) (sorted_groups key ps) -> page_group P k g.
Proof.
  intros [Hmem Hnd] kk g Hin. unfold sorted_groups in Hin.
  apply in_map_iff in Hin. destruct Hin as ([kk0 g0] & [= <- <-] & Hin).
  destruct (group_part key ps kk0 g0 Hin) as [Hsub Hnodup].
  cbn [fst snd]. split.
  - intros pl Hpl. apply Hmem, Hsub.
    eapply Permutation_in; [apply sort_by_perm|exact Hpl].
  - eapply Permutation_NoDup;
      [symmetry; apply Permutation_map, sort_by_perm|].
    now apply Hnodup.
Qed.

Lemma place_all_placed phrases :
  forall ps, place_all get_attrib_tokens phrases = Returned ps ->
             map placed ps = phrases.
Proof.
  induction phrases as [|p rest IH]; intros ps; cbn [place_all].
  - intros [= <-]. reflexivity.
  - unfold place at 1.
    destruct (_bbox_from_span get_attrib_tokens p) as [[bbox|]|e]; cbn [obind];
      [|discriminate|discriminate].
    destruct (place_all get_attrib_tokens rest) as [ps'|e]; cbn [obind];
      [|discriminate].
    intros [= <-]. cbn [map placed]. now rewrite (IH ps' eq_refl).
Qed.

Lemma process_page_sound k phrases doc :
  (forall p, In p phrases -> In p P /\ page p = k) ->
  NoDup (map vp_id phrases) ->
  received_from_others P doc ->
  received_from_others P (fst (process_page get_attrib_tokens doc phrases)).
Proof.
  intros Hmem Hnd Hdoc. unfold process_page.
  destruct (place_all get_attrib_tokens phrases) as [ps|e] eqn:Hps; [|exact Hdoc].
  apply place_all_placed in Hps.
  assert (Hg : page_group P k ps).
  { split.
    - intros pl Hpl. apply Hmem. rewrite <- Hps. now apply in_map.
    - rewrite <- (map_map placed vp_id), Hps. exact Hnd. }
  assert (Hstep : forall key align_type d,
             In align_type align_types ->
             received_from_others P d ->
             received_from_others P
               (fst (_assign_alignment_features (sorted_groups key ps) align_type d))).
  { intros key align_type d Hat Hd.
    apply (assign_alignment_features_sound align_type k Hat); [|exact Hd].
    apply sorted_groups_page_group. exact Hg. }
  pose proof (Hstep yc "Y_" doc ltac:(cbn; tauto) Hdoc) as H1.
  destruct (_assign_alignment_features (sorted_groups yc ps) "Y_" doc)
    as [d1 [u1|e]]; cbn [fst] in *; [|exact H1].
  pose proof (Hstep x0 "LEFT_" d1 ltac:(cbn; tauto) H1) as H2.
  destruct (_assign_alignment_features (sorted_groups x0 ps) "LEFT_" d1)
    as [d2 [u2|e]]; cbn [fst] in *; [|exact H2].
  pose proof (Hstep x1 "RIGHT_" d2 ltac:(cbn; tauto) H2) as H3.
  destruct (_assign_alignment_features (sorted_groups x1 ps) "RIGHT_" d2)
    as [d3 [u3|e]]; cbn [fst] in *; [|exact H3].
  apply (Hstep xc "CENTER_" d3 ltac:(cbn; tauto) H3).
Qed.

Lemma process_pages_sound pages :
  forall doc,
    (forall kk g, In (kk, g) pages ->
                  (forall p, In p g -> In p P /\ page p = kk)
                  /\ NoDup (map vp_id g)) ->
    received_from_others P doc ->
    received_from_others P (fst (process_pages get_attrib_tokens doc pages)).
Proof.
  induction pages as [|[kk g] rest IH]; intros doc Hpages Hdoc; cbn [process_pages];
    [exact Hdoc|].
  destruct (Hpages kk g (or_introl eq_refl)) as [Hmem Hnd].
  pose proof (process_page_sound kk g doc Hmem Hnd Hdoc) as H.
  destruct (process_page get_attrib_tokens doc g) as [doc' [u|e]]; cbn [fst] in *;
    [|exact H].
  apply IH; [|exact H]. intros kk' g' Hin. apply (Hpages kk' g'). now right.
Qed.

End Provenance.

Lemma initialised_empty phrases :
  forall doc p,
    In p phrases ->
    aligned_lemmas (fold_left (fun d phrase => set_aligned d (vp_id phrase) [])
                              phrases doc) (vp_id p) = Some [].
Proof.
  assert (Hkeep : forall l doc id,
             aligned_lemmas doc id = Some [] ->
             aligned_lemmas (fold_left (fun d phrase => set_aligned d (vp_id phrase) [])
                                       l doc) id = Some []).
  { induction l as [|a l IH]; intros doc id H; cbn [fold_left]; [exact H|].
    apply IH. cbn. destruct (Nat.eqb id (vp_id a)); [reflexivity|exact H]. }
  induction phrases as [|a l IH]; intros doc p Hin; [destruct Hin|].
  cbn [fold_left]. destruct Hin as [<-|Hin]; [|now apply IH].
  apply Hkeep. cbn. now rewrite Nat.eqb_refl.
Qed.

(** X30.  Where the aligned lemmas come from.  After the pass on an
    unprocessed document whose phrases are distinct, every aligned lemma
    of a phrase was contributed by another phrase of the same page that
    has fewer than seven lemmas: it is one of the alphabetic lemmas of
    that phrase in lower case, bare or after one of [Y_], [LEFT_],
    [RIGHT_] and [CENTER_].  So a phrase never receives from itself, from
    another page, from a phrase of seven lemmas or more, or a lemma that
    is not alphabetic. *)
Theorem aligned_lemmas_come_from_others :
  forall (get_attrib_tokens : VisualPhrase -> string -> list Z) (doc : Doc),
    has_visual_features doc = false ->
    NoDup (map vp_id (doc_phrases doc)) ->
    let after := fst (_preprocess_visual_features get_attrib_tokens doc) in
    forall p s x,
      In p (doc_phrases doc) ->
      aligned_lemmas after (vp_id p) = Some s ->
      In x s ->
      exists q,
        In q (doc_phrases doc) /\ vp_id q <> vp_id p /\ page q = page p
        /\ contributes q x.
Proof.
  intros gat doc Hflag Hnd after.
  change (received_from_others (doc_phrases doc) after).
  unfold after, _preprocess_visual_features. rewrite Hflag.
  cbn [doc_phrases set_flag].
  apply process_pages_sound.
  - now apply nodup_ids.
  - intros kk g Hin.
    destruct (group_part page (doc_phrases doc) kk g Hin) as [Hsub Hnodup].
    split; [|now apply Hnodup].
    intros p Hp. split; [now apply Hsub|].
    apply (group_by_key page (doc_phrases doc) kk g p Hin Hp).
  - intros p s x Hp Hs Hx.
    rewrite (initialised_empty (doc_phrases doc) (set_flag doc) p Hp) in Hs.
    injection Hs as <-. destruct Hx.
Qed.

Lemma aligned_lemmas_come_from_others_witness :
  exists q,
    In q (doc_phrases Sample.aligned_doc)
    /\ vp_id q <> vp_id Sample.boxed_phrase
    /\ page q = page Sample.boxed_phrase
    /\ contributes q "LEFT_total".
Proof.
  apply (aligned_lemmas_come_from_others Sample.no_token_boxes Sample.aligned_doc
           eq_refl
           ltac:(repeat constructor; cbn; intuition discriminate)
           Sample.boxed_phrase ["total"; "LEFT_total"] "LEFT_total").
  - right. now left.
  - vm_compute. reflexivity.
  - right. now left.
Defined.

End VisualMore.
